(** * Key bundles of a top-level folder (libkbfs/key_bundle.go)

    A shallow embedding of the key-bundle data model, of the provisioning
    routine [fillInDevices] and of the lookup accessors, together with the
    properties of them that the specification states.

    Go maps and pointers are reference values, and provisioning mutates the
    bundle in place, so the embedding threads an explicit store through the
    code: a map or a struct behind a pointer is an object of the store and a
    Go value of map or pointer type is a reference to such an object (or
    nil). *)

From stdpp Require Import gmap strings list fin_maps.
From Stdlib Require Import ZArith Strings.Byte.

Local Open Scope Z_scope.
Set Warnings "-clear-no-such-hyp".

(** ** Values *)

(** [keybase1.UID] and [keybase1.KID] are Go string types. *)
Abbreviation keybase1_UID := string (only parsing).
Abbreviation keybase1_KID := string (only parsing).

(** Modelled from the spec: the key halves, the keys and the HMAC are
    declared outside key_bundle.go; the specification describes them as
    byte-string values with equality and copy semantics and nothing more. *)
Record HMAC := mkHMAC { hmac_bytes : list byte }.
Record TLFCryptKeyServerHalf := mkServerHalf { server_half_bytes : list byte }.
Record TLFCryptKeyClientHalf := mkClientHalf { client_half_bytes : list byte }.
Record EncryptedTLFCryptKeyClientHalf :=
  mkEncryptedClientHalf { encrypted_bytes : list byte }.
Record TLFCryptKey := mkTLFCryptKey { crypt_key_bytes : list byte }.
Record TLFPublicKey := mkTLFPublicKey { public_key_bytes : list byte }.
Record TLFEphemeralPublicKey := mkEPubKey { epub_bytes : list byte }.
Record TLFEphemeralPrivateKey := mkEPrivKey { epriv_bytes : list byte }.

(** [CryptPublicKey]: the code only reads its [KID] field. *)
Record CryptPublicKey := mkCryptPublicKey { KID : keybase1_KID }.

(** Hand-made [[]TLFEphemeralPublicKey]; a Go slice read as a sequence. *)
Abbreviation TLFEphemeralPublicKeys := (list TLFEphemeralPublicKey) (only parsing).

(** Go's [error] interface.  The crypto collaborator reports opaque errors;
    [TLFEphemeralPublicKeyNotFoundError] is the struct built by
    [GetTLFEphemeralPublicKey]. *)
Inductive error :=
  | CryptoError (msg : string)
  | TLFEphemeralPublicKeyNotFoundError (user : keybase1_UID) (key : keybase1_KID).

(** A Go result pair [(v, err)] of which the caller reads [v] only when
    [err == nil]. *)
Inductive res (A : Type) :=
  | Ok (a : A)
  | Err (e : error).
Arguments Ok {A} a.
Arguments Err {A} e.

Record TLFCryptKeyServerHalfID := mkServerHalfID { ID : HMAC }.

Record TLFCryptKeyInfo := mkTLFCryptKeyInfo {
  ClientHalf : EncryptedTLFCryptKeyClientHalf;
  ServerHalfID : TLFCryptKeyServerHalfID;
  EPubKeyIndex : Z
}.

(** ** The store *)

Abbreviation loc := positive (only parsing).

(** A Go value of map or pointer type: [None] is nil. *)
Abbreviation ref := (option positive) (only parsing).

(** The Go types [UserCryptKeyBundle] and [TLFKeyMap] are map types; a value
    of such a type is a reference, the map itself is an object. *)
Abbreviation UserCryptKeyBundle := (option positive) (only parsing).
Abbreviation TLFKeyMap := (option positive) (only parsing).
Abbreviation uckb_object := (gmap string TLFCryptKeyInfo) (only parsing).
Abbreviation tkm_object := (gmap string (option positive)) (only parsing).

Record TLFWriterKeyBundle := mkTLFWriterKeyBundle {
  WKeys : TLFKeyMap;
  TLFPublicKey_of : TLFPublicKey;
  TLFEphemeralPublicKeys_of : TLFEphemeralPublicKeys
}.

Record TLFReaderKeyBundle := mkTLFReaderKeyBundle {
  RKeys : TLFKeyMap
}.

(** [TLFKeyBundle] embeds the two pointers. *)
Record TLFKeyBundle := mkTLFKeyBundle {
  TLFWriterKeyBundle_ptr : ref;
  TLFReaderKeyBundle_ptr : ref
}.

Record store := mkStore {
  uckbs : gmap positive uckb_object;
  tkms : gmap positive tkm_object;
  wkbs : gmap positive TLFWriterKeyBundle;
  rkbs : gmap positive TLFReaderKeyBundle
}.

Definition empty_store : store := mkStore ∅ ∅ ∅ ∅.

Definition set_uckbs (f : gmap positive uckb_object → gmap positive uckb_object)
    (h : store) : store :=
  mkStore (f (uckbs h)) (tkms h) (wkbs h) (rkbs h).
Definition set_tkms (f : gmap positive tkm_object → gmap positive tkm_object)
    (h : store) : store :=
  mkStore (uckbs h) (f (tkms h)) (wkbs h) (rkbs h).
Definition set_wkbs
    (f : gmap positive TLFWriterKeyBundle → gmap positive TLFWriterKeyBundle)
    (h : store) : store :=
  mkStore (uckbs h) (tkms h) (f (wkbs h)) (rkbs h).
Definition set_rkbs
    (f : gmap positive TLFReaderKeyBundle → gmap positive TLFReaderKeyBundle)
    (h : store) : store :=
  mkStore (uckbs h) (tkms h) (wkbs h) (f (rkbs h)).

(** Reading a Go map: indexing a nil map yields the zero value, so nil reads
    as the empty map.  A non-nil reference always names a live map in Go;
    for a store where it does not, reading is empty as well. *)
Definition read_uckb (h : store) (r : UserCryptKeyBundle) : uckb_object :=
  match r with
  | Some l => default ∅ (uckbs h !! l)
  | None => ∅
  end.

Definition read_tkm (h : store) (r : TLFKeyMap) : tkm_object :=
  match r with
  | Some l => default ∅ (tkms h !! l)
  | None => ∅
  end.

(** ** Computations *)

(** A call either returns, with a result and the state it leaves, or
    panics (assignment to an entry of a nil map, nil pointer dereference,
    index out of range). *)
Inductive outcome (A : Type) :=
  | Returns (a : A)
  | Panics.
Arguments Returns {A} a.
Arguments Panics {A}.

Definition M (S A : Type) : Type := S → outcome (A * S).

Definition ret {S A} (a : A) : M S A := λ s, Returns (a, s).

Definition bind {S A B} (m : M S A) (k : A → M S B) : M S B :=
  λ s, match m s with
       | Returns (a, s') => k a s'
       | Panics => Panics
       end.

(** The idiom [v, err = f(); if err != nil { return nil, err }]. *)
Definition bind_res {S A B} (m : M S (res A)) (k : A → M S (res B))
    : M S (res B) :=
  bind m (λ r, match r with
               | Ok a => k a
               | Err e => ret (Err e)
               end).

Notation "x <- m ; k" := (bind m (λ x, k))
  (at level 20, m at level 100, k at level 200, only parsing).
Notation "x <-? m ; k" := (bind_res m (λ x, k))
  (at level 20, m at level 100, k at level 200, only parsing).

Fixpoint for_each {S A} (l : list A) (body : A → M S unit) : M S unit :=
  match l with
  | [] => ret tt
  | x :: rest => u <- body x ; for_each rest body
  end.

Definition get_store : M store store := λ h, Returns (h, h).

(** [make] and composite literals of map type allocate a new map. *)
Definition alloc_uckb (m : uckb_object) : M store UserCryptKeyBundle :=
  λ h, let l := fresh (dom (uckbs h)) in
       Returns (Some l, set_uckbs <[l := m]> h).

Definition alloc_tkm (m : tkm_object) : M store TLFKeyMap :=
  λ h, let l := fresh (dom (tkms h)) in
       Returns (Some l, set_tkms <[l := m]> h).

(** [&TLFWriterKeyBundle{...}] and [&TLFReaderKeyBundle{...}]. *)
Definition alloc_wkb (b : TLFWriterKeyBundle) : M store ref :=
  λ h, let l := fresh (dom (wkbs h)) in
       Returns (Some l, set_wkbs <[l := b]> h).

Definition alloc_rkb (b : TLFReaderKeyBundle) : M store ref :=
  λ h, let l := fresh (dom (rkbs h)) in
       Returns (Some l, set_rkbs <[l := b]> h).

(** [uckb[k] = info]; assigning to an entry of a nil map panics. *)
Definition uckb_assign (uckb : UserCryptKeyBundle) (k : keybase1_KID)
    (info : TLFCryptKeyInfo) : M store unit :=
  λ h, match uckb with
       | Some l =>
           match uckbs h !! l with
           | Some m => Returns (tt, set_uckbs <[l := <[k := info]> m]> h)
           | None => Panics
           end
       | None => Panics
       end.

(** [tkm[u] = uckb]. *)
Definition tkm_assign (tkm : TLFKeyMap) (u : keybase1_UID)
    (uckb : UserCryptKeyBundle) : M store unit :=
  λ h, match tkm with
       | Some l =>
           match tkms h !! l with
           | Some m => Returns (tt, set_tkms <[l := <[u := uckb]> m]> h)
           | None => Panics
           end
       | None => Panics
       end.

(** [tkm[u]] as an expression: the zero value, nil, when [u] is absent. *)
Definition tkm_index (h : store) (tkm : TLFKeyMap) (u : keybase1_UID)
    : UserCryptKeyBundle :=
  default None (read_tkm h tkm !! u).

(** Dereferencing a pointer; nil panics. *)
Definition deref_wkb (h : store) (p : ref) : outcome TLFWriterKeyBundle :=
  match p with
  | Some l =>
      match wkbs h !! l with
      | Some b => Returns b
      | None => Panics
      end
  | None => Panics
  end.

Definition deref_rkb (h : store) (p : ref) : outcome TLFReaderKeyBundle :=
  match p with
  | Some l =>
      match rkbs h !! l with
      | Some b => Returns b
      | None => Panics
      end
  | None => Panics
  end.

Definition load_wkb (p : ref) : M store TLFWriterKeyBundle :=
  λ h, match deref_wkb h p with
       | Returns b => Returns (b, h)
       | Panics => Panics
       end.

Definition load_rkb (p : ref) : M store TLFReaderKeyBundle :=
  λ h, match deref_rkb h p with
       | Returns b => Returns (b, h)
       | Panics => Panics
       end.

(** Assignment to the field [TLFEphemeralPublicKeys] through the pointer. *)
Definition store_TLFEphemeralPublicKeys (p : ref)
    (keys : TLFEphemeralPublicKeys) : M store unit :=
  λ h, match p with
       | Some l =>
           match wkbs h !! l with
           | Some b =>
               Returns (tt, set_wkbs
                 <[l := mkTLFWriterKeyBundle (WKeys b) (TLFPublicKey_of b) keys]> h)
           | None => Panics
           end
       | None => Panics
       end.

(** Indexing a slice; an index out of range panics. *)
Definition slice_index {A} (l : list A) (i : Z) : outcome A :=
  if decide (0 ≤ i) then
    match l !! Z.to_nat i with
    | Some x => Returns x
    | None => Panics
    end
  else Panics.

(** ** Deep copies *)

(** Modelled from the spec: the [DeepCopy] methods of
    [EncryptedTLFCryptKeyClientHalf], [TLFPublicKey] and
    [TLFEphemeralPublicKeys] are declared outside key_bundle.go; these are
    values with copy semantics, and a copy of a value is that value. *)
Definition EncryptedTLFCryptKeyClientHalf_DeepCopy
    (c : EncryptedTLFCryptKeyClientHalf) : EncryptedTLFCryptKeyClientHalf := c.
Definition TLFPublicKey_DeepCopy (k : TLFPublicKey) : TLFPublicKey := k.
Definition TLFEphemeralPublicKeys_DeepCopy (keys : TLFEphemeralPublicKeys)
    : TLFEphemeralPublicKeys := keys.

Definition TLFCryptKeyServerHalfID_DeepCopy (id : TLFCryptKeyServerHalfID)
    : TLFCryptKeyServerHalfID := id.

Definition TLFCryptKeyInfo_DeepCopy (info : TLFCryptKeyInfo) : TLFCryptKeyInfo :=
  mkTLFCryptKeyInfo
    (EncryptedTLFCryptKeyClientHalf_DeepCopy (ClientHalf info))
    (TLFCryptKeyServerHalfID_DeepCopy (ServerHalfID info))
    (EPubKeyIndex info).

(** The [range] loops visit the entries of a map in an order Go leaves
    open; here it is the order of [map_to_list].  The order only decides
    which addresses the new maps get. *)
Definition UserCryptKeyBundle_DeepCopy (uckb : UserCryptKeyBundle)
    : M store UserCryptKeyBundle :=
  newUckb <- alloc_uckb ∅ ;
  h <- get_store ;
  u <- for_each (map_to_list (read_uckb h uckb))
         (λ kb, uckb_assign newUckb kb.1 (TLFCryptKeyInfo_DeepCopy kb.2)) ;
  ret newUckb.

Definition TLFKeyMap_DeepCopy (tkm : TLFKeyMap) : M store TLFKeyMap :=
  keys <- alloc_tkm ∅ ;
  h <- get_store ;
  u <- for_each (map_to_list (read_tkm h tkm))
         (λ um, m' <- UserCryptKeyBundle_DeepCopy um.2 ;
                tkm_assign keys um.1 m') ;
  ret keys.

Definition TLFReaderKeyBundle_DeepCopy (trb : ref) : M store ref :=
  b <- load_rkb trb ;
  rkeys <- TLFKeyMap_DeepCopy (RKeys b) ;
  alloc_rkb (mkTLFReaderKeyBundle rkeys).

Definition TLFWriterKeyBundle_DeepCopy (tkb : ref) : M store ref :=
  b <- load_wkb tkb ;
  wkeys <- TLFKeyMap_DeepCopy (WKeys b) ;
  alloc_wkb (mkTLFWriterKeyBundle wkeys
               (TLFPublicKey_DeepCopy (TLFPublicKey_of b))
               (TLFEphemeralPublicKeys_DeepCopy (TLFEphemeralPublicKeys_of b))).

Definition TLFKeyBundle_DeepCopy (tkb : TLFKeyBundle) : M store TLFKeyBundle :=
  w <- TLFWriterKeyBundle_DeepCopy (TLFWriterKeyBundle_ptr tkb) ;
  r <- TLFReaderKeyBundle_DeepCopy (TLFReaderKeyBundle_ptr tkb) ;
  ret (mkTLFKeyBundle w r).

(** [NewTLFKeyBundle]; the zero value of [TLFPublicKey], a type declared
    elsewhere, is a parameter. *)
Definition NewTLFKeyBundle (zeroTLFPublicKey : TLFPublicKey)
    : M store TLFKeyBundle :=
  wkeys <- alloc_tkm ∅ ;
  w <- alloc_wkb (mkTLFWriterKeyBundle wkeys zeroTLFPublicKey []) ;
  rkeys <- alloc_tkm ∅ ;
  r <- alloc_rkb (mkTLFReaderKeyBundle rkeys) ;
  ret (mkTLFKeyBundle w r).

(** ** Membership and generations *)

Definition TLFWriterKeyBundle_IsWriter (h : store) (tkb : TLFWriterKeyBundle)
    (user : keybase1_UID) (deviceKID : keybase1_KID) : bool :=
  bool_decide (is_Some (read_uckb h (tkm_index h (WKeys tkb) user) !! deviceKID)).

Definition TLFReaderKeyBundle_IsReader (h : store) (trb : TLFReaderKeyBundle)
    (user : keybase1_UID) (deviceKID : keybase1_KID) : bool :=
  bool_decide (is_Some (read_uckb h (tkm_index h (RKeys trb) user) !! deviceKID)).

(** [[]*TLFWriterKeyBundle] and [[]*TLFReaderKeyBundle]. *)
Abbreviation TLFWriterKeyGenerations := (list (option positive)) (only parsing).
Abbreviation TLFReaderKeyGenerations := (list (option positive)) (only parsing).

(** [KeyGen] is an integer type. *)
Abbreviation KeyGen := Z (only parsing).

Definition TLFWriterKeyGenerations_GetKeyGeneration
    (tkg : TLFWriterKeyGenerations) : KeyGen :=
  Z.of_nat (length tkg).

(** The receiver of [TLFWriterKeyBundle.IsWriter] is a value: the call
    dereferences the pointer held at [tkg[keyGen-1]]. *)
Definition TLFWriterKeyGenerations_IsWriter (h : store)
    (tkg : TLFWriterKeyGenerations)
    (user : keybase1_UID) (deviceKID : keybase1_KID) : outcome bool :=
  let keyGen := TLFWriterKeyGenerations_GetKeyGeneration tkg in
  if decide (keyGen < 1) then Returns false
  else
    match slice_index tkg (keyGen - 1) with
    | Returns p =>
        match deref_wkb h p with
        | Returns b => Returns (TLFWriterKeyBundle_IsWriter h b user deviceKID)
        | Panics => Panics
        end
    | Panics => Panics
    end.

Definition TLFReaderKeyGenerations_GetKeyGeneration
    (tkg : TLFReaderKeyGenerations) : KeyGen :=
  Z.of_nat (length tkg).

Definition TLFReaderKeyGenerations_IsReader (h : store)
    (tkg : TLFReaderKeyGenerations)
    (user : keybase1_UID) (deviceKID : keybase1_KID) : outcome bool :=
  let keyGen := TLFReaderKeyGenerations_GetKeyGeneration tkg in
  if decide (keyGen < 1) then Returns false
  else
    match slice_index tkg (keyGen - 1) with
    | Returns p =>
        match deref_rkb h p with
        | Returns b => Returns (TLFReaderKeyBundle_IsReader h b user deviceKID)
        | Panics => Panics
        end
    | Panics => Panics
    end.

(** The [DeepCopy] methods of the two generation lists make a slice of
    the length of the list and assign [keys[i] = k.DeepCopy()] for every
    index; the loop below runs from index [i] on.  The index is always in
    range. *)
Fixpoint TLFWriterKeyGenerations_DeepCopy_loop (i : nat)
    (rest : TLFWriterKeyGenerations) (keys : TLFWriterKeyGenerations)
    : M store TLFWriterKeyGenerations :=
  match rest with
  | [] => ret keys
  | k :: rest' =>
      k' <- TLFWriterKeyBundle_DeepCopy k ;
      TLFWriterKeyGenerations_DeepCopy_loop (S i) rest' (<[i := k']> keys)
  end.

Definition TLFWriterKeyGenerations_DeepCopy (tkg : TLFWriterKeyGenerations)
    : M store TLFWriterKeyGenerations :=
  TLFWriterKeyGenerations_DeepCopy_loop 0 tkg (replicate (length tkg) None).

Fixpoint TLFReaderKeyGenerations_DeepCopy_loop (i : nat)
    (rest : TLFReaderKeyGenerations) (keys : TLFReaderKeyGenerations)
    : M store TLFReaderKeyGenerations :=
  match rest with
  | [] => ret keys
  | k :: rest' =>
      k' <- TLFReaderKeyBundle_DeepCopy k ;
      TLFReaderKeyGenerations_DeepCopy_loop (S i) rest' (<[i := k']> keys)
  end.

Definition TLFReaderKeyGenerations_DeepCopy (trg : TLFReaderKeyGenerations)
    : M store TLFReaderKeyGenerations :=
  TLFReaderKeyGenerations_DeepCopy_loop 0 trg (replicate (length trg) None).

(** ** Lookup accessors *)

(** [GetTLFCryptKeyInfo] returns [(info, ok, err)]; the pair [(info, ok)]
    is an option here: [Some info] for [ok = true], [None] for the zero
    value with [ok = false]. *)
Definition GetTLFCryptKeyInfo (h : store) (tkb : TLFKeyBundle)
    (user : keybase1_UID) (currentCryptPublicKey : CryptPublicKey)
    : outcome (option TLFCryptKeyInfo * option error) :=
  let key := KID currentCryptPublicKey in
  match deref_wkb h (TLFWriterKeyBundle_ptr tkb) with
  | Returns w =>
      match read_tkm h (WKeys w) !! user with
      | Some u => Returns (read_uckb h u !! key, None)
      | None =>
          match deref_rkb h (TLFReaderKeyBundle_ptr tkb) with
          | Returns r =>
              match read_tkm h (RKeys r) !! user with
              | Some u => Returns (read_uckb h u !! key, None)
              | None => Returns (None, None)
              end
          | Panics => Panics
          end
      end
  | Panics => Panics
  end.

Definition GetTLFEphemeralPublicKey (h : store) (tkb : TLFKeyBundle)
    (user : keybase1_UID) (currentCryptPublicKey : CryptPublicKey)
    : outcome (res TLFEphemeralPublicKey) :=
  let key := KID currentCryptPublicKey in
  match GetTLFCryptKeyInfo h tkb user currentCryptPublicKey with
  | Returns (_, Some err) => Returns (Err err)
  | Returns (None, None) =>
      Returns (Err (TLFEphemeralPublicKeyNotFoundError user key))
  | Returns (Some info, None) =>
      match deref_wkb h (TLFWriterKeyBundle_ptr tkb) with
      | Returns w =>
          match slice_index (TLFEphemeralPublicKeys_of w) (EPubKeyIndex info) with
          | Returns e => Returns (Ok e)
          | Panics => Panics
          end
      | Panics => Panics
      end
  | Panics => Panics
  end.

(** [GetKIDs] appends the keys of the bundle to a nil slice, in the order
    in which the [range] loop visits them; Go leaves that order open, here
    it is the order of [map_to_list].  The nil slice is the empty list. *)
Definition UserCryptKeyBundle_GetKIDs (h : store) (uckb : UserCryptKeyBundle)
    : list keybase1_KID :=
  foldl (λ keys kb, keys ++ [kb.1]) [] (map_to_list (read_uckb h uckb)).

(** [GetTLFCryptPublicKeys] returns the pair [(kids, ok)]. *)
Definition GetTLFCryptPublicKeys (h : store) (tkb : TLFKeyBundle)
    (user : keybase1_UID) : outcome (list keybase1_KID * bool) :=
  match deref_wkb h (TLFWriterKeyBundle_ptr tkb) with
  | Returns w =>
      match read_tkm h (WKeys w) !! user with
      | Some u => Returns (UserCryptKeyBundle_GetKIDs h u, true)
      | None =>
          match deref_rkb h (TLFReaderKeyBundle_ptr tkb) with
          | Returns r =>
              match read_tkm h (RKeys r) !! user with
              | Some u => Returns (UserCryptKeyBundle_GetKIDs h u, true)
              | None => Returns ([], false)
              end
          | Panics => Panics
          end
      end
  | Panics => Panics
  end.

(** ** The crypto collaborator *)

(** The [Crypto] interface is declared outside key_bundle.go; the four
    methods the provisioning code calls are taken as parameters.  An
    implementation may keep state (a random generator, nonces), so every
    method runs on the implementation's state [C]. *)
Class Crypto (C : Type) := {
  MakeRandomTLFCryptKeyServerHalf : C → res TLFCryptKeyServerHalf * C;
  MaskTLFCryptKey :
    TLFCryptKeyServerHalf → TLFCryptKey → C → res TLFCryptKeyClientHalf * C;
  EncryptTLFCryptKeyClientHalf :
    TLFEphemeralPrivateKey → CryptPublicKey → TLFCryptKeyClientHalf →
    C → res EncryptedTLFCryptKeyClientHalf * C;
  GetTLFCryptKeyServerHalfID :
    keybase1_UID → keybase1_KID → TLFCryptKeyServerHalf →
    C → res TLFCryptKeyServerHalfID * C
}.

(** [serverKeyMap]. *)
Abbreviation serverKeyMap :=
  (gmap string (gmap string TLFCryptKeyServerHalf)) (only parsing).

Section provisioning.
Context {C : Type} `{!Crypto C}.

(** The state of a provisioning call: the store and the state of the
    crypto collaborator. *)
Abbreviation world := (store * C)%type.

Definition call_crypto {A} (f : C → res A * C) : M world (res A) :=
  λ '(h, c), let '(r, c') := f c in Returns (r, (h, c')).

(** A step on the store alone. *)
Definition on_store {A} (m : M store A) : M world A :=
  λ '(h, c), match m h with
             | Returns (a, h') => Returns (a, (h', c))
             | Panics => Panics
             end.

(** One iteration of the loop of [fillInDeviceInfo] (lines 65-103): the
    result is the server map after the iteration, or the error the
    function returns with. *)
Definition fillInDeviceInfo_iter (uckb : UserCryptKeyBundle)
    (uid : keybase1_UID) (tlfCryptKey : TLFCryptKey)
    (ePrivKey : TLFEphemeralPrivateKey) (ePubIndex : Z)
    (k : CryptPublicKey)
    (serverMap : gmap string TLFCryptKeyServerHalf)
    : M world (res (gmap string TLFCryptKeyServerHalf)) :=
  h <- on_store get_store ;
  match read_uckb h uckb !! KID k with
  | Some _ => ret (Ok serverMap)
  | None =>
      serverHalf <-? call_crypto MakeRandomTLFCryptKeyServerHalf ;
      clientHalf <-? call_crypto (MaskTLFCryptKey serverHalf tlfCryptKey) ;
      encryptedClientHalf <-?
        call_crypto (EncryptTLFCryptKeyClientHalf ePrivKey k clientHalf) ;
      serverHalfID <-?
        call_crypto (GetTLFCryptKeyServerHalfID uid (KID k) serverHalf) ;
      u <- on_store (uckb_assign uckb (KID k)
             (mkTLFCryptKeyInfo encryptedClientHalf serverHalfID ePubIndex)) ;
      ret (Ok (<[KID k := serverHalf]> serverMap))
  end.

Fixpoint fillInDeviceInfo_loop (uckb : UserCryptKeyBundle)
    (uid : keybase1_UID) (tlfCryptKey : TLFCryptKey)
    (ePrivKey : TLFEphemeralPrivateKey) (ePubIndex : Z)
    (publicKeys : list CryptPublicKey)
    (serverMap : gmap string TLFCryptKeyServerHalf)
    : M world (res (gmap string TLFCryptKeyServerHalf)) :=
  match publicKeys with
  | [] => ret (Ok serverMap)
  | k :: rest =>
      serverMap' <-? fillInDeviceInfo_iter uckb uid tlfCryptKey ePrivKey
                       ePubIndex k serverMap ;
      fillInDeviceInfo_loop uckb uid tlfCryptKey ePrivKey ePubIndex rest
        serverMap'
  end.

(** [fillInDeviceInfo] returns the pair [(serverMap, err)]: the map made
    at line 58 and nil, or nil and the error. *)
Definition fillInDeviceInfo (uckb : UserCryptKeyBundle)
    (uid : keybase1_UID) (tlfCryptKey : TLFCryptKey)
    (ePrivKey : TLFEphemeralPrivateKey) (ePubIndex : Z)
    (publicKeys : list CryptPublicKey)
    : M world (option (gmap string TLFCryptKeyServerHalf) * option error) :=
  r <- fillInDeviceInfo_loop uckb uid tlfCryptKey ePrivKey ePubIndex
         publicKeys ∅ ;
  ret (match r with
       | Ok serverMap => (Some serverMap, None)
       | Err e => (None, Some e)
       end).

(** One iteration of the loop of [fillInDevicesAndServerMap] (lines
    261-274).  [newServerKeys] is a map local to [fillInDevices]; it is
    passed on by value. *)
Definition fillInDevicesAndServerMap_iter (newIndex : Z)
    (cryptBundles : TLFKeyMap) (ePubKey : TLFEphemeralPublicKey)
    (ePrivKey : TLFEphemeralPrivateKey) (tlfCryptKey : TLFCryptKey)
    (u : keybase1_UID) (keys : list CryptPublicKey)
    (newServerKeys : serverKeyMap) : M world (res serverKeyMap) :=
  h <- on_store get_store ;
  u0 <- match read_tkm h cryptBundles !! u with
        | Some _ => ret tt
        | None =>
            fresh_bundle <- on_store (alloc_uckb ∅) ;
            on_store (tkm_assign cryptBundles u fresh_bundle)
        end ;
  h' <- on_store get_store ;
  r <- fillInDeviceInfo (tkm_index h' cryptBundles u) u tlfCryptKey ePrivKey
         newIndex keys ;
  match r.2 with
  | Some err => ret (Err err)
  | None =>
      let serverMap := default ∅ r.1 in
      if decide (0 < size serverMap)%nat
      then ret (Ok (<[u := serverMap]> newServerKeys))
      else ret (Ok newServerKeys)
  end.

(** [cryptKeys] is a Go map; the list holds its entries in the order in
    which the [range] loop visits them, an order Go leaves open. *)
Fixpoint fillInDevicesAndServerMap (newIndex : Z)
    (cryptKeys : list (keybase1_UID * list CryptPublicKey))
    (cryptBundles : TLFKeyMap) (ePubKey : TLFEphemeralPublicKey)
    (ePrivKey : TLFEphemeralPrivateKey) (tlfCryptKey : TLFCryptKey)
    (newServerKeys : serverKeyMap) : M world (res serverKeyMap) :=
  match cryptKeys with
  | [] => ret (Ok newServerKeys)
  | (u, keys) :: rest =>
      newServerKeys' <-? fillInDevicesAndServerMap_iter newIndex cryptBundles
                           ePubKey ePrivKey tlfCryptKey u keys newServerKeys ;
      fillInDevicesAndServerMap newIndex rest cryptBundles ePubKey ePrivKey
        tlfCryptKey newServerKeys'
  end.

(** [fillInDevices] returns [(newServerKeys, nil)] or [(nil, err)]. *)
Definition fillInDevices (tkb : TLFKeyBundle)
    (wKeys rKeys : list (keybase1_UID * list CryptPublicKey))
    (ePubKey : TLFEphemeralPublicKey) (ePrivKey : TLFEphemeralPrivateKey)
    (tlfCryptKey : TLFCryptKey)
    : M world (option serverKeyMap * option error) :=
  w <- on_store (load_wkb (TLFWriterKeyBundle_ptr tkb)) ;
  u <- on_store (store_TLFEphemeralPublicKeys (TLFWriterKeyBundle_ptr tkb)
                   (TLFEphemeralPublicKeys_of w ++ [ePubKey])) ;
  w' <- on_store (load_wkb (TLFWriterKeyBundle_ptr tkb)) ;
  let newIndex := Z.of_nat (length (TLFEphemeralPublicKeys_of w')) - 1 in
  r1 <- fillInDevicesAndServerMap newIndex wKeys (WKeys w') ePubKey ePrivKey
          tlfCryptKey ∅ ;
  match r1 with
  | Err err => ret (None, Some err)
  | Ok newServerKeys =>
      r <- on_store (load_rkb (TLFReaderKeyBundle_ptr tkb)) ;
      r2 <- fillInDevicesAndServerMap newIndex rKeys (RKeys r) ePubKey
              ePrivKey tlfCryptKey newServerKeys ;
      match r2 with
      | Err err => ret (None, Some err)
      | Ok newServerKeys' => ret (Some newServerKeys', None)
      end
  end.

End provisioning.

(** ** What a bundle holds *)

(** The record, if any, that the writer side (respectively the reader
    side) of [tkb] holds for a device of a user. *)
Definition writer_record (h : store) (tkb : TLFKeyBundle)
    (user : keybase1_UID) (kid : keybase1_KID) : option TLFCryptKeyInfo :=
  match deref_wkb h (TLFWriterKeyBundle_ptr tkb) with
  | Returns w => read_uckb h (tkm_index h (WKeys w) user) !! kid
  | Panics => None
  end.

Definition reader_record (h : store) (tkb : TLFKeyBundle)
    (user : keybase1_UID) (kid : keybase1_KID) : option TLFCryptKeyInfo :=
  match deref_rkb h (TLFReaderKeyBundle_ptr tkb) with
  | Returns r => read_uckb h (tkm_index h (RKeys r) user) !! kid
  | Panics => None
  end.

(** Whether the writer side (respectively the reader side) has a
    per-user bundle for the user at all. *)
Definition has_writer_bundle (h : store) (tkb : TLFKeyBundle)
    (user : keybase1_UID) : Prop :=
  ∃ w, deref_wkb h (TLFWriterKeyBundle_ptr tkb) = Returns w
       ∧ is_Some (read_tkm h (WKeys w) !! user).

Definition has_reader_bundle (h : store) (tkb : TLFKeyBundle)
    (user : keybase1_UID) : Prop :=
  ∃ r, deref_rkb h (TLFReaderKeyBundle_ptr tkb) = Returns r
       ∧ is_Some (read_tkm h (RKeys r) !! user).

(** The writer bundle's [TLFEphemeralPublicKeys]. *)
Definition ephemeral_keys (h : store) (tkb : TLFKeyBundle)
    : TLFEphemeralPublicKeys :=
  match deref_wkb h (TLFWriterKeyBundle_ptr tkb) with
  | Returns w => TLFEphemeralPublicKeys_of w
  | Panics => []
  end.

Definition valid_index (keys : TLFEphemeralPublicKeys) (i : Z) : Prop :=
  0 ≤ i < Z.of_nat (length keys).

(** Every stored [EPubKeyIndex], writer or reader side, is an index into
    the writer bundle's [TLFEphemeralPublicKeys]. *)
Definition indices_valid (h : store) (tkb : TLFKeyBundle) : Prop :=
  ∀ user kid info,
    writer_record h tkb user kid = Some info
    ∨ reader_record h tkb user kid = Some info →
    valid_index (ephemeral_keys h tkb) (EPubKeyIndex info).

(** ** A scripted crypto collaborator

    Used to run the code on concrete inputs.  Every call spends one unit of
    a budget and fails once the budget is used up; the server halves are
    numbered in the order in which they are made. *)
Definition spend {A} (a : A) (c : nat * nat) : res A * (nat * nat) :=
  match c.1 with
  | O => (Err (CryptoError "out of budget"), c)
  | S b => (Ok a, (b, S c.2))
  end.

#[local] Instance ScriptedCrypto : Crypto (nat * nat) := {|
  MakeRandomTLFCryptKeyServerHalf c :=
    spend (mkServerHalf [default x00 (Byte.of_nat c.2)]) c;
  MaskTLFCryptKey s k c :=
    spend (mkClientHalf (server_half_bytes s ++ crypt_key_bytes k)) c;
  EncryptTLFCryptKeyClientHalf e p half c :=
    spend (mkEncryptedClientHalf (epriv_bytes e ++ client_half_bytes half)) c;
  GetTLFCryptKeyServerHalfID u k s c :=
    spend (mkServerHalfID (mkHMAC (server_half_bytes s))) c
|}.

Definition dev (kid : keybase1_KID) : CryptPublicKey := mkCryptPublicKey kid.

(** The state, the bundle and the result of [NewTLFKeyBundle] followed by
    one [fillInDevices] call with the scripted collaborator. *)
Definition provisioned
    (wKeys rKeys : list (keybase1_UID * list CryptPublicKey)) (budget : nat)
    : outcome ((TLFKeyBundle * (option serverKeyMap * option error))
               * (store * (nat * nat))) :=
  match NewTLFKeyBundle (mkTLFPublicKey []) empty_store with
  | Returns (tkb, h) =>
      match fillInDevices tkb wKeys rKeys (mkEPubKey [x01]) (mkEPrivKey [x02])
              (mkTLFCryptKey [x03]) (h, (budget, O)) with
      | Returns (r, w) => Returns ((tkb, r), w)
      | Panics => Panics
      end
  | Panics => Panics
  end.

(** ** What provisioning does to the store *)

(** The four crypto steps of lines 71-95 for one device, as they act on
    the collaborator's state: the server half and the record of the device,
    or the error of the first step that fails. *)
Definition make_record {C} `{!Crypto C} (uid : keybase1_UID)
    (tlfCryptKey : TLFCryptKey) (ePrivKey : TLFEphemeralPrivateKey)
    (ePubIndex : Z) (k : CryptPublicKey) (c : C)
    : res (TLFCryptKeyServerHalf * TLFCryptKeyInfo) * C :=
  match MakeRandomTLFCryptKeyServerHalf c with
  | (Err e, c1) => (Err e, c1)
  | (Ok serverHalf, c1) =>
      match MaskTLFCryptKey serverHalf tlfCryptKey c1 with
      | (Err e, c2) => (Err e, c2)
      | (Ok clientHalf, c2) =>
          match EncryptTLFCryptKeyClientHalf ePrivKey k clientHalf c2 with
          | (Err e, c3) => (Err e, c3)
          | (Ok encryptedClientHalf, c3) =>
              match GetTLFCryptKeyServerHalfID uid (KID k) serverHalf c3 with
              | (Err e, c4) => (Err e, c4)
              | (Ok serverHalfID, c4) =>
                  (Ok (serverHalf,
                       mkTLFCryptKeyInfo encryptedClientHalf serverHalfID
                         ePubIndex), c4)
              end
          end
      end
  end.

(** [h'] extends [h] by provisioning with index [idx]: the bundle structs
    are those of [h]; the maps of [h] are still there and hold what they
    held; an entry that a key map has gained refers to a per-user bundle
    that [h] did not have; a record that a per-user bundle has gained
    carries [idx]. *)
Record extends (idx : Z) (h h' : store) : Prop := mkExtends {
  ext_wkbs : wkbs h' = wkbs h;
  ext_rkbs : rkbs h' = rkbs h;
  ext_tkms_dom : dom (tkms h') = dom (tkms h);
  ext_uckbs_dom : dom (uckbs h) ⊆ dom (uckbs h');
  ext_tkm_kept : ∀ lk mk,
    tkms h !! lk = Some mk → ∃ mk', tkms h' !! lk = Some mk' ∧ mk ⊆ mk';
  ext_tkm_new : ∀ lk mk' u r,
    tkms h' !! lk = Some mk' → mk' !! u = Some r →
    ∃ mk, tkms h !! lk = Some mk
          ∧ (mk !! u = Some r
             ∨ (mk !! u = None ∧ ∃ l, r = Some l ∧ l ∉ dom (uckbs h)));
  ext_rec_kept : ∀ l m,
    uckbs h !! l = Some m → ∃ m', uckbs h' !! l = Some m' ∧ m ⊆ m';
  ext_rec_new : ∀ l m' kid info,
    uckbs h' !! l = Some m' → m' !! kid = Some info →
    (∃ m, uckbs h !! l = Some m ∧ m !! kid = Some info)
    ∨ ((∀ m, uckbs h !! l = Some m → m !! kid = None)
       ∧ EPubKeyIndex info = idx)
}.

(** The store after lines 262-264: the user has a per-user bundle in
    [cryptBundles], a new and empty one if there was none. *)
Definition ensure_bundle (h : store) (cryptBundles : TLFKeyMap)
    (u : keybase1_UID) : outcome store :=
  match read_tkm h cryptBundles !! u with
  | Some _ => Returns h
  | None =>
      match cryptBundles with
      | Some lk =>
          match tkms h !! lk with
          | Some mk =>
              Returns
                (set_tkms <[lk := <[u := Some (fresh (dom (uckbs h)))]> mk]>
                   (set_uckbs <[fresh (dom (uckbs h)) := ∅]> h))
          | None => Panics
          end
      | None => Panics
      end
  end.

(** The store after lines 287-288: the writer bundle at [l], which was
    [w], holds one more ephemeral public key. *)
Definition with_ephemeral_key (h : store) (l : positive)
    (w : TLFWriterKeyBundle) (ePubKey : TLFEphemeralPublicKey) : store :=
  set_wkbs
    <[l := mkTLFWriterKeyBundle (WKeys w) (TLFPublicKey_of w)
             (TLFEphemeralPublicKeys_of w ++ [ePubKey])]> h.

(** The record of a device of a user as a key map has it: [tkm[u][kid]]. *)
Definition key_map_record (h : store) (tkm : TLFKeyMap)
    (user : keybase1_UID) (kid : keybase1_KID) : option TLFCryptKeyInfo :=
  read_uckb h (tkm_index h tkm user) !! kid.

(** The per-user bundles of a key map are live maps and no two users
    share one. *)
Definition key_map_separated (h : store) (tkm : TLFKeyMap) : Prop :=
  ∀ u l, read_tkm h tkm !! u = Some (Some l) →
    l ∈ dom (uckbs h)
    ∧ ∀ u2, read_tkm h tkm !! u2 = Some (Some l) → u2 = u.

(** A bundle without sharing, as [NewTLFKeyBundle] makes it and
    [fillInDevices] keeps it: the writer and the reader key map are two
    maps, and no per-user bundle occurs twice in them. *)
Definition separated (h : store) (tkb : TLFKeyBundle) : Prop :=
  ∃ w r,
    deref_wkb h (TLFWriterKeyBundle_ptr tkb) = Returns w
    ∧ deref_rkb h (TLFReaderKeyBundle_ptr tkb) = Returns r
    ∧ WKeys w ≠ RKeys r
    ∧ key_map_separated h (WKeys w)
    ∧ key_map_separated h (RKeys r)
    ∧ ∀ u1 u2 l, read_tkm h (WKeys w) !! u1 = Some (Some l) →
                 read_tkm h (RKeys r) !! u2 ≠ Some (Some l).

(** A device got its writer (respectively reader) record between [h] and
    [h']. *)
Definition new_writer_device (h h' : store) (tkb : TLFKeyBundle)
    (user : keybase1_UID) (kid : keybase1_KID) : Prop :=
  writer_record h tkb user kid = None
  ∧ is_Some (writer_record h' tkb user kid).

Definition new_reader_device (h h' : store) (tkb : TLFKeyBundle)
    (user : keybase1_UID) (kid : keybase1_KID) : Prop :=
  reader_record h tkb user kid = None
  ∧ is_Some (reader_record h' tkb user kid).

(** [serverHalf] is the server half that the record [info] of device
    [kid] of user [uid] was made with. *)
Definition made_with {C} `{!Crypto C} (uid : keybase1_UID)
    (tlfCryptKey : TLFCryptKey) (ePrivKey : TLFEphemeralPrivateKey)
    (ePubIndex : Z) (kid : keybase1_KID)
    (serverHalf : TLFCryptKeyServerHalf) (info : TLFCryptKeyInfo) : Prop :=
  ∃ k (c1 c2 : C),
    KID k = kid
    ∧ make_record uid tlfCryptKey ePrivKey ePubIndex k c1
      = (Ok (serverHalf, info), c2).

(** ** What a bundle is worth *)

(** The contents of a key map, of a bundle: the maps that the references
    name instead of the references. *)
Definition key_map_value (h : store) (tkm : TLFKeyMap)
    : gmap string (gmap string TLFCryptKeyInfo) :=
  read_uckb h <$> read_tkm h tkm.

Record TLFKeyBundle_value := mkTLFKeyBundle_value {
  value_WKeys : gmap string (gmap string TLFCryptKeyInfo);
  value_TLFPublicKey : TLFPublicKey;
  value_TLFEphemeralPublicKeys : TLFEphemeralPublicKeys;
  value_RKeys : gmap string (gmap string TLFCryptKeyInfo)
}.

Definition bundle_value (h : store) (tkb : TLFKeyBundle)
    : outcome TLFKeyBundle_value :=
  match deref_wkb h (TLFWriterKeyBundle_ptr tkb),
        deref_rkb h (TLFReaderKeyBundle_ptr tkb) with
  | Returns w, Returns r =>
      Returns (mkTLFKeyBundle_value (key_map_value h (WKeys w))
                 (TLFPublicKey_of w) (TLFEphemeralPublicKeys_of w)
                 (key_map_value h (RKeys r)))
  | _, _ => Panics
  end.

(** A reference is nil or names a live object, as every reference of a
    Go program does. *)
Definition ref_live {V} (objects : gmap positive V) (r : option positive)
    : Prop :=
  match r with
  | Some l => l ∈ dom objects
  | None => True
  end.

Definition key_map_closed (h : store) (tkm : TLFKeyMap) : Prop :=
  ref_live (tkms h) tkm
  ∧ map_Forall (λ _ uckb, ref_live (uckbs h) uckb) (read_tkm h tkm).

(** The two pointers of the bundle are not nil and every reference that
    can be reached from them is nil or live. *)
Definition closed (h : store) (tkb : TLFKeyBundle) : Prop :=
  ∃ w r,
    deref_wkb h (TLFWriterKeyBundle_ptr tkb) = Returns w
    ∧ deref_rkb h (TLFReaderKeyBundle_ptr tkb) = Returns r
    ∧ key_map_closed h (WKeys w) ∧ key_map_closed h (RKeys r).

(** [h'] has every object of [h], unchanged; it may have more. *)
Definition grows (h h' : store) : Prop :=
  (∀ l, l ∈ dom (uckbs h) → uckbs h' !! l = uckbs h !! l)
  ∧ (∀ l, l ∈ dom (tkms h) → tkms h' !! l = tkms h !! l)
  ∧ (∀ l, l ∈ dom (wkbs h) → wkbs h' !! l = wkbs h !! l)
  ∧ (∀ l, l ∈ dom (rkbs h) → rkbs h' !! l = rkbs h !! l).

(** The objects that a bundle is made of are not objects of [h]. *)
Definition key_map_outside (h h' : store) (tkm : TLFKeyMap) : Prop :=
  (∃ lk, tkm = Some lk ∧ (lk ∉ dom (tkms h)))
  ∧ ∀ u b, read_tkm h' tkm !! u = Some b →
           ∃ l, b = Some l ∧ (l ∉ dom (uckbs h)) ∧ l ∈ dom (uckbs h').

Definition bundle_outside (h h' : store) (tkb : TLFKeyBundle) : Prop :=
  ∃ lw lr w r,
    TLFWriterKeyBundle_ptr tkb = Some lw ∧ (lw ∉ dom (wkbs h))
    ∧ TLFReaderKeyBundle_ptr tkb = Some lr ∧ (lr ∉ dom (rkbs h))
    ∧ wkbs h' !! lw = Some w ∧ rkbs h' !! lr = Some r
    ∧ key_map_outside h h' (WKeys w) ∧ key_map_outside h h' (RKeys r).

(** One mutation of a bundle through its own references: an assignment
    to an entry of one of its per-user bundles or of one of its two key
    maps, or an assignment to its ephemeral-key list. *)
Inductive mutation (h : store) (tkb : TLFKeyBundle) : store → Prop :=
  | mutate_writer_bundle w u l kid info t h' :
      deref_wkb h (TLFWriterKeyBundle_ptr tkb) = Returns w →
      read_tkm h (WKeys w) !! u = Some (Some l) →
      uckb_assign (Some l) kid info h = Returns (t, h') →
      mutation h tkb h'
  | mutate_reader_bundle r u l kid info t h' :
      deref_rkb h (TLFReaderKeyBundle_ptr tkb) = Returns r →
      read_tkm h (RKeys r) !! u = Some (Some l) →
      uckb_assign (Some l) kid info h = Returns (t, h') →
      mutation h tkb h'
  | mutate_writer_key_map w u uckb t h' :
      deref_wkb h (TLFWriterKeyBundle_ptr tkb) = Returns w →
      tkm_assign (WKeys w) u uckb h = Returns (t, h') →
      mutation h tkb h'
  | mutate_reader_key_map r u uckb t h' :
      deref_rkb h (TLFReaderKeyBundle_ptr tkb) = Returns r →
      tkm_assign (RKeys r) u uckb h = Returns (t, h') →
      mutation h tkb h'
  | mutate_ephemeral_keys keys t h' :
      store_TLFEphemeralPublicKeys (TLFWriterKeyBundle_ptr tkb) keys h
      = Returns (t, h') →
      mutation h tkb h'.

(** ** Concrete bundles *)

(** The state that [NewTLFKeyBundle] and one [fillInDevices] call leave
    when user [u] is listed as a writer without devices and as a reader
    with device [d]: an empty writer bundle and a reader bundle with a
    record for [d]. *)
Definition record_d : TLFCryptKeyInfo :=
  mkTLFCryptKeyInfo (mkEncryptedClientHalf [x02; x00; x03])
    (mkServerHalfID (mkHMAC [x00])) 0.

Definition writer_without_devices : store :=
  mkStore
    {[ 1%positive := ∅; 2%positive := {[ "d" := record_d ]} ]}
    {[ 1%positive := {[ "u" := Some 1%positive ]};
       2%positive := {[ "u" := Some 2%positive ]} ]}
    {[ 1%positive :=
         mkTLFWriterKeyBundle (Some 1%positive) (mkTLFPublicKey [])
           [mkEPubKey [x01]] ]}
    {[ 1%positive := mkTLFReaderKeyBundle (Some 2%positive) ]}.

Definition bundle_1 : TLFKeyBundle :=
  mkTLFKeyBundle (Some 1%positive) (Some 1%positive).

(** A store with one per-user bundle, which holds a record for [d]. *)
Definition one_bundle : store :=
  mkStore {[ 1%positive := {[ "d" := record_d ]} ]} ∅ ∅ ∅.

(** The store that [NewTLFKeyBundle] makes from the empty store; the
    bundle is [bundle_1]. *)
Definition new_bundle_store : store :=
  mkStore ∅ {[ 1%positive := ∅; 2%positive := ∅ ]}
    {[ 1%positive :=
         mkTLFWriterKeyBundle (Some 1%positive) (mkTLFPublicKey []) [] ]}
    {[ 1%positive := mkTLFReaderKeyBundle (Some 2%positive) ]}.

(** The store and the bundle that a run of [provisioned] leaves. *)
Definition store_of {A C} (o : outcome ((TLFKeyBundle * A) * (store * C)))
    : store :=
  match o with
  | Returns (_, (h, _)) => h
  | Panics => empty_store
  end.

Definition bundle_of {A C} (o : outcome ((TLFKeyBundle * A) * (store * C)))
    : TLFKeyBundle :=
  match o with
  | Returns ((tkb, _), _) => tkb
  | Panics => mkTLFKeyBundle None None
  end.

(** Writer [u1] with device [d1] and reader [u2] with device [d2],
    provisioned in one call. *)
Definition writer_and_reader :=
  provisioned [("u1", [dev "d1"])] [("u2", [dev "d2"])] 100.

(** Validity of the stored indices as a check that runs: every record of
    every per-user bundle of a key map has an index into [keys]. *)
Definition key_map_indices_valid (h : store) (keys : TLFEphemeralPublicKeys)
    (tkm : TLFKeyMap) : Prop :=
  map_Forall (λ _ uckb,
    map_Forall (λ _ info, 0 ≤ EPubKeyIndex info < Z.of_nat (length keys))
      (read_uckb h uckb)) (read_tkm h tkm).

#[local] Instance key_map_indices_valid_dec h keys tkm :
  Decision (key_map_indices_valid h keys tkm).
Proof. unfold key_map_indices_valid. apply _. Defined.

Definition bundle_indices_valid (h : store) (tkb : TLFKeyBundle) : Prop :=
  match deref_wkb h (TLFWriterKeyBundle_ptr tkb),
        deref_rkb h (TLFReaderKeyBundle_ptr tkb) with
  | Returns w, Returns r =>
      key_map_indices_valid h (TLFEphemeralPublicKeys_of w) (WKeys w)
      ∧ key_map_indices_valid h (TLFEphemeralPublicKeys_of w) (RKeys r)
  | _, _ => False
  end.

#[local] Instance bundle_indices_valid_dec h tkb :
  Decision (bundle_indices_valid h tkb).
Proof.
  unfold bundle_indices_valid.
  destruct (deref_wkb h (TLFWriterKeyBundle_ptr tkb)),
    (deref_rkb h (TLFReaderKeyBundle_ptr tkb)); apply _.
Defined.

(** Absence of sharing as a check that runs. *)
Definition key_map_separated_check (h : store) (tkm : TLFKeyMap) : Prop :=
  map_Forall (λ u b,
    match b with
    | Some l =>
        l ∈ dom (uckbs h)
        ∧ map_Forall (λ u2 b2, b2 = Some l → u2 = u) (read_tkm h tkm)
    | None => True
    end) (read_tkm h tkm).

#[local] Instance key_map_separated_check_dec h tkm :
  Decision (key_map_separated_check h tkm).
Proof.
  unfold key_map_separated_check.
  apply map_Forall_dec. intros u [l|]; apply _.
Defined.

Definition key_maps_disjoint_check (h : store) (tkm1 tkm2 : TLFKeyMap)
    : Prop :=
  map_Forall (λ _ b1,
    match b1 with
    | Some l => map_Forall (λ _ b2, b2 ≠ Some l) (read_tkm h tkm2)
    | None => True
    end) (read_tkm h tkm1).

#[local] Instance key_maps_disjoint_check_dec h tkm1 tkm2 :
  Decision (key_maps_disjoint_check h tkm1 tkm2).
Proof.
  unfold key_maps_disjoint_check.
  apply map_Forall_dec. intros u [l|]; apply _.
Defined.

Definition separated_check (h : store) (tkb : TLFKeyBundle) : Prop :=
  match deref_wkb h (TLFWriterKeyBundle_ptr tkb),
        deref_rkb h (TLFReaderKeyBundle_ptr tkb) with
  | Returns w, Returns r =>
      WKeys w ≠ RKeys r
      ∧ key_map_separated_check h (WKeys w)
      ∧ key_map_separated_check h (RKeys r)
      ∧ key_maps_disjoint_check h (WKeys w) (RKeys r)
  | _, _ => False
  end.

#[local] Instance separated_check_dec h tkb : Decision (separated_check h tkb).
Proof.
  unfold separated_check.
  destruct (deref_wkb h (TLFWriterKeyBundle_ptr tkb)),
    (deref_rkb h (TLFReaderKeyBundle_ptr tkb)); apply _.
Defined.

(** Closedness as a check that runs. *)
#[local] Instance ref_live_dec {V} (objects : gmap positive V) r :
  Decision (ref_live objects r).
Proof. destruct r; simpl; apply _. Defined.

#[local] Instance key_map_closed_dec h tkm : Decision (key_map_closed h tkm).
Proof. unfold key_map_closed. apply _. Defined.

Definition closed_check (h : store) (tkb : TLFKeyBundle) : Prop :=
  match deref_wkb h (TLFWriterKeyBundle_ptr tkb),
        deref_rkb h (TLFReaderKeyBundle_ptr tkb) with
  | Returns w, Returns r =>
      key_map_closed h (WKeys w) ∧ key_map_closed h (RKeys r)
  | _, _ => False
  end.

#[local] Instance closed_check_dec h tkb : Decision (closed_check h tkb).
Proof.
  unfold closed_check.
  destruct (deref_wkb h (TLFWriterKeyBundle_ptr tkb)),
    (deref_rkb h (TLFReaderKeyBundle_ptr tkb)); apply _.
Defined.

(** ** Runs with the scripted collaborator *)

(** The result of a call and the state that it leaves. *)
Definition result_of {A S} (o : outcome (A * S)) : option A :=
  match o with
  | Returns (a, _) => Some a
  | Panics => None
  end.

Definition final_store {A} (o : outcome (A * (store * (nat * nat)))) : store :=
  match o with
  | Returns (_, (h, _)) => h
  | Panics => empty_store
  end.

Definition final_crypto {A} (o : outcome (A * (store * (nat * nat))))
    : nat * nat :=
  match o with
  | Returns (_, (_, c)) => c
  | Panics => (O, O)
  end.

(** Whether a call has returned a map and no error, and the map. *)
Definition succeeded {X S} (o : outcome ((option X * option error) * S))
    : bool :=
  match o with
  | Returns ((Some _, None), _) => true
  | _ => false
  end.

Definition returned_map {K} `{Countable K} {V S}
    (o : outcome ((option (gmap K V) * option error) * S)) : gmap K V :=
  match o with
  | Returns ((Some m, _), _) => m
  | _ => ∅
  end.

(** Writer [u1] with device [d1] and reader [u2] with device [d2] on a
    new bundle, with a budget of six crypto calls: the call fails for
    [d2]. *)
Definition reader_fails :=
  fillInDevices bundle_1 [("u1", [dev "d1"])] [("u2", [dev "d2"])]
    (mkEPubKey [x01]) (mkEPrivKey [x02]) (mkTLFCryptKey [x03])
    (new_bundle_store, (6%nat, 0%nat)).

(** ** Bundles without nil *)

(** A key map that is a live map, all of whose entries are live per-user
    bundles: neither the map nor an entry is nil. *)
Definition key_map_live (h : store) (tkm : TLFKeyMap) : Prop :=
  (∃ lk, tkm = Some lk ∧ lk ∈ dom (tkms h))
  ∧ ∀ u b, read_tkm h tkm !! u = Some b →
           ∃ l, b = Some l ∧ l ∈ dom (uckbs h).

(** A bundle in which no pointer and no map is nil, as [NewTLFKeyBundle]
    makes it and [fillInDevices] keeps it. *)
Definition live (h : store) (tkb : TLFKeyBundle) : Prop :=
  ∃ w r,
    deref_wkb h (TLFWriterKeyBundle_ptr tkb) = Returns w
    ∧ deref_rkb h (TLFReaderKeyBundle_ptr tkb) = Returns r
    ∧ key_map_live h (WKeys w) ∧ key_map_live h (RKeys r).

(** ** What a generation is worth *)

(** The contents of the writer bundle, of the reader bundle, behind a
    pointer of a generation list. *)
Definition writer_bundle_value (h : store) (p : ref)
    : outcome (gmap string (gmap string TLFCryptKeyInfo) * TLFPublicKey
               * TLFEphemeralPublicKeys) :=
  match deref_wkb h p with
  | Returns w =>
      Returns (key_map_value h (WKeys w), TLFPublicKey_of w,
               TLFEphemeralPublicKeys_of w)
  | Panics => Panics
  end.

Definition reader_bundle_value (h : store) (p : ref)
    : outcome (gmap string (gmap string TLFCryptKeyInfo)) :=
  match deref_rkb h p with
  | Returns r => Returns (key_map_value h (RKeys r))
  | Panics => Panics
  end.

(** The pointer is not nil and every reference that can be reached from
    it is nil or live. *)
Definition writer_bundle_closed (h : store) (p : ref) : Prop :=
  ∃ w, deref_wkb h p = Returns w ∧ key_map_closed h (WKeys w).

Definition reader_bundle_closed (h : store) (p : ref) : Prop :=
  ∃ r, deref_rkb h p = Returns r ∧ key_map_closed h (RKeys r).

(** * Properties *)

(** ** Generation histories *)

Lemma slice_index_last {A} (l : list A) (x : A) :
  slice_index (l ++ [x]) (Z.of_nat (length (l ++ [x])) - 1) = Returns x.
Proof.
  unfold slice_index. rewrite length_app. simpl.
  destruct (decide _) as [_|Hneg]; [|lia].
  replace (Z.to_nat (Z.of_nat (length l + 1) - 1)) with (length l) by lia.
  by rewrite lookup_app_r, Nat.sub_diag.
Qed.

(** C6: the generation number is the length of the history; on the empty
    history [IsWriter] and [IsReader] are false for every input; on a
    history that is not empty they give the answer of the bundle at index
    [GetKeyGeneration() - 1], the bundle appended last. *)
Theorem generations_latest_bundle (h : store) (user : keybase1_UID)
    (deviceKID : keybase1_KID) :
  (∀ tkg, TLFWriterKeyGenerations_GetKeyGeneration tkg = Z.of_nat (length tkg))
  ∧ (∀ tkg, TLFReaderKeyGenerations_GetKeyGeneration tkg = Z.of_nat (length tkg))
  ∧ TLFWriterKeyGenerations_IsWriter h [] user deviceKID = Returns false
  ∧ TLFReaderKeyGenerations_IsReader h [] user deviceKID = Returns false
  ∧ (∀ tkg p,
       (tkg ++ [p]) !!
         Z.to_nat (TLFWriterKeyGenerations_GetKeyGeneration (tkg ++ [p]) - 1)
       = Some p
       ∧ TLFWriterKeyGenerations_IsWriter h (tkg ++ [p]) user deviceKID
         = match deref_wkb h p with
           | Returns b => Returns (TLFWriterKeyBundle_IsWriter h b user deviceKID)
           | Panics => Panics
           end)
  ∧ (∀ tkg p,
       (tkg ++ [p]) !!
         Z.to_nat (TLFReaderKeyGenerations_GetKeyGeneration (tkg ++ [p]) - 1)
       = Some p
       ∧ TLFReaderKeyGenerations_IsReader h (tkg ++ [p]) user deviceKID
         = match deref_rkb h p with
           | Returns b => Returns (TLFReaderKeyBundle_IsReader h b user deviceKID)
           | Panics => Panics
           end).
Proof.
  split_and!; try done.
  - intros tkg p. split.
    + unfold TLFWriterKeyGenerations_GetKeyGeneration. rewrite length_app. simpl.
      replace (Z.to_nat (Z.of_nat (length tkg + 1) - 1)) with (length tkg) by lia.
      by rewrite lookup_app_r, Nat.sub_diag.
    + unfold TLFWriterKeyGenerations_IsWriter,
        TLFWriterKeyGenerations_GetKeyGeneration.
      rewrite slice_index_last.
      destruct (decide _) as [Hlt|_]; [|done].
      rewrite length_app in Hlt. simpl in Hlt. lia.
  - intros tkg p. split.
    + unfold TLFReaderKeyGenerations_GetKeyGeneration. rewrite length_app. simpl.
      replace (Z.to_nat (Z.of_nat (length tkg + 1) - 1)) with (length tkg) by lia.
      by rewrite lookup_app_r, Nat.sub_diag.
    + unfold TLFReaderKeyGenerations_IsReader,
        TLFReaderKeyGenerations_GetKeyGeneration.
      rewrite slice_index_last.
      destruct (decide _) as [Hlt|_]; [|done].
      rewrite length_app in Hlt. simpl in Hlt. lia.
Qed.

(** ** Lookup accessors *)

Lemma GetTLFCryptKeyInfo_no_error h tkb user k o oerr :
  GetTLFCryptKeyInfo h tkb user k = Returns (o, oerr) → oerr = None.
Proof.
  unfold GetTLFCryptKeyInfo. intros Hget.
  destruct (deref_wkb _ _); [|done].
  destruct (read_tkm _ _ !! _); [by simplify_eq|].
  destruct (deref_rkb _ _); [|done].
  by destruct (read_tkm _ _ !! _); simplify_eq.
Qed.

Lemma GetTLFCryptKeyInfo_found h tkb user k info oerr :
  GetTLFCryptKeyInfo h tkb user k = Returns (Some info, oerr) →
  writer_record h tkb user (KID k) = Some info
  ∨ reader_record h tkb user (KID k) = Some info.
Proof.
  unfold GetTLFCryptKeyInfo, writer_record, reader_record, tkm_index.
  intros Hget.
  destruct (deref_wkb _ _) as [w|]; [|done].
  destruct (read_tkm h (WKeys w) !! user) as [u|]; [left; by simplify_eq|].
  destruct (deref_rkb _ _) as [r|]; [|done].
  destruct (read_tkm h (RKeys r) !! user) as [u|]; [right; by simplify_eq|done].
Qed.

Example provisioned_writer_without_devices :
  ∃ sh c,
    provisioned [("u", [])] [("u", [dev "d"])] 100
    = Returns ((bundle_1, (Some {[ "u" := {[ "d" := sh ]} ]}, None)),
               (writer_without_devices, c)).
Proof. do 2 eexists. vm_compute. reflexivity. Qed.

(** C2, as stated, fails: user [u] has a reader record for device [d] and
    an empty writer bundle; [GetTLFCryptKeyInfo] stops at the writer bundle
    and reports that there is no record. *)
Lemma GetTLFCryptKeyInfo_misses_reader_record :
  reader_record writer_without_devices bundle_1 "u" "d" = Some record_d
  ∧ GetTLFCryptKeyInfo writer_without_devices bundle_1 "u" (dev "d")
    = Returns (None, None).
Proof. split; vm_compute; reflexivity. Qed.

(** C2, amended: [GetTLFCryptKeyInfo] looks the user up in the writer
    key map first; when the user has a writer bundle the answer is that
    bundle's, and the reader key map is not consulted; otherwise the
    answer is that of the user's reader bundle; a user in neither map is
    not found.  So a writer record is always found, a reader record is
    found when the user has no writer bundle, and no case reports an
    error. *)
Theorem GetTLFCryptKeyInfo_writer_bundle_first (h : store)
    (tkb : TLFKeyBundle) (user : keybase1_UID) (k : CryptPublicKey)
    (w : TLFWriterKeyBundle) (r : TLFReaderKeyBundle) :
  deref_wkb h (TLFWriterKeyBundle_ptr tkb) = Returns w →
  deref_rkb h (TLFReaderKeyBundle_ptr tkb) = Returns r →
  GetTLFCryptKeyInfo h tkb user k
  = Returns (match read_tkm h (WKeys w) !! user with
             | Some _ => writer_record h tkb user (KID k)
             | None => reader_record h tkb user (KID k)
             end, None)
  ∧ (∀ info, writer_record h tkb user (KID k) = Some info →
       GetTLFCryptKeyInfo h tkb user k = Returns (Some info, None))
  ∧ (∀ info, ¬ has_writer_bundle h tkb user →
       reader_record h tkb user (KID k) = Some info →
       GetTLFCryptKeyInfo h tkb user k = Returns (Some info, None))
  ∧ (¬ has_writer_bundle h tkb user → ¬ has_reader_bundle h tkb user →
       GetTLFCryptKeyInfo h tkb user k = Returns (None, None)).
Proof.
  intros Hw Hr.
  assert (GetTLFCryptKeyInfo h tkb user k
          = Returns (match read_tkm h (WKeys w) !! user with
                     | Some _ => writer_record h tkb user (KID k)
                     | None => reader_record h tkb user (KID k)
                     end, None)) as Hget.
  { unfold GetTLFCryptKeyInfo, writer_record, reader_record, tkm_index.
    rewrite Hw, Hr.
    destruct (read_tkm h (WKeys w) !! user) as [u|]; [done|].
    by destruct (read_tkm h (RKeys r) !! user) as [u|]. }
  split_and!; [done|..].
  - intros info Hrec. rewrite Hget.
    destruct (read_tkm h (WKeys w) !! user) as [u|] eqn:Hu; [by rewrite Hrec|].
    unfold writer_record, tkm_index in Hrec. by rewrite Hw, Hu in Hrec.
  - intros info Hnw Hrec. rewrite Hget.
    destruct (read_tkm h (WKeys w) !! user) as [u|] eqn:Hu; [|by rewrite Hrec].
    destruct Hnw. exists w. by rewrite Hu.
  - intros Hnw Hnr. rewrite Hget.
    destruct (read_tkm h (WKeys w) !! user) as [u|] eqn:Hu.
    { destruct Hnw. exists w. by rewrite Hu. }
    unfold reader_record, tkm_index. rewrite Hr.
    destruct (read_tkm h (RKeys r) !! user) as [u|] eqn:Hu'; [|done].
    destruct Hnr. exists r. by rewrite Hu'.
Qed.

Lemma GetTLFCryptKeyInfo_writer_bundle_first_witness :
  let w := mkTLFWriterKeyBundle (Some 1%positive) (mkTLFPublicKey [])
             [mkEPubKey [x01]] in
  let r := mkTLFReaderKeyBundle (Some 2%positive) in
  deref_wkb writer_without_devices (TLFWriterKeyBundle_ptr bundle_1) = Returns w
  ∧ deref_rkb writer_without_devices (TLFReaderKeyBundle_ptr bundle_1) = Returns r
  ∧ GetTLFCryptKeyInfo writer_without_devices bundle_1 "u" (dev "d")
    = Returns (None, None).
Proof.
  intros w r.
  assert (deref_wkb writer_without_devices (TLFWriterKeyBundle_ptr bundle_1)
          = Returns w) as Hw by (vm_compute; reflexivity).
  assert (deref_rkb writer_without_devices (TLFReaderKeyBundle_ptr bundle_1)
          = Returns r) as Hr by (vm_compute; reflexivity).
  split_and!; [exact Hw|exact Hr|].
  destruct (GetTLFCryptKeyInfo_writer_bundle_first writer_without_devices
              bundle_1 "u" (dev "d") w r Hw Hr) as [Hget _].
  rewrite Hget. vm_compute. reflexivity.
Defined.

Lemma slice_index_Returns {A} (l : list A) (i : Z) (x : A) :
  slice_index l i = Returns x ↔ 0 ≤ i ∧ l !! Z.to_nat i = Some x.
Proof.
  unfold slice_index. destruct (decide (0 ≤ i)); [|naive_solver].
  destruct (l !! Z.to_nat i); naive_solver.
Qed.

Lemma slice_index_valid (keys : TLFEphemeralPublicKeys) (i : Z) :
  valid_index keys i → ∃ e, slice_index keys i = Returns e.
Proof.
  intros [Hlo Hhi].
  destruct (lookup_lt_is_Some_2 keys (Z.to_nat i)) as [e He]; [lia|].
  exists e. by apply slice_index_Returns.
Qed.

Lemma GetTLFCryptKeyInfo_Returns_ephemeral_keys h tkb user k x :
  GetTLFCryptKeyInfo h tkb user k = Returns x →
  ∃ w, deref_wkb h (TLFWriterKeyBundle_ptr tkb) = Returns w
       ∧ ephemeral_keys h tkb = TLFEphemeralPublicKeys_of w.
Proof.
  unfold GetTLFCryptKeyInfo, ephemeral_keys.
  destruct (deref_wkb _ _) as [w|]; [eauto|done].
Qed.

(** C8: [GetTLFEphemeralPublicKey] fails, and then with
    [TLFEphemeralPublicKeyNotFoundError] for that user and device key,
    exactly when [GetTLFCryptKeyInfo] finds no record; when a record is
    found it indexes the writer bundle's [TLFEphemeralPublicKeys] with the
    record's [EPubKeyIndex]. *)
Theorem GetTLFEphemeralPublicKey_not_found_iff (h : store)
    (tkb : TLFKeyBundle) (user : keybase1_UID) (k : CryptPublicKey) :
  (∀ e, GetTLFEphemeralPublicKey h tkb user k = Returns (Err e)
        ↔ e = TLFEphemeralPublicKeyNotFoundError user (KID k)
          ∧ GetTLFCryptKeyInfo h tkb user k = Returns (None, None))
  ∧ (∀ info oerr,
       GetTLFCryptKeyInfo h tkb user k = Returns (Some info, oerr) →
       GetTLFEphemeralPublicKey h tkb user k
       = match slice_index (ephemeral_keys h tkb) (EPubKeyIndex info) with
         | Returns e => Returns (Ok e)
         | Panics => Panics
         end).
Proof.
  split.
  - intros e. unfold GetTLFEphemeralPublicKey.
    destruct (GetTLFCryptKeyInfo h tkb user k) as [[o oerr]|] eqn:Hget;
      [|naive_solver].
    pose proof (GetTLFCryptKeyInfo_no_error _ _ _ _ _ _ Hget) as ->.
    destruct o as [info|]; [|naive_solver].
    destruct (deref_wkb _ _); [|naive_solver].
    destruct (slice_index _ _); naive_solver.
  - intros info oerr Hget. unfold GetTLFEphemeralPublicKey. rewrite Hget.
    pose proof (GetTLFCryptKeyInfo_no_error _ _ _ _ _ _ Hget) as ->.
    destruct (GetTLFCryptKeyInfo_Returns_ephemeral_keys _ _ _ _ _ Hget)
      as (w & Hw & ->).
    by rewrite Hw.
Qed.

Lemma GetTLFEphemeralPublicKey_not_found_iff_witness :
  GetTLFCryptKeyInfo writer_without_devices bundle_1 "u" (dev "d")
  = Returns (None, None)
  ∧ GetTLFEphemeralPublicKey writer_without_devices bundle_1 "u" (dev "d")
    = Returns (Err (TLFEphemeralPublicKeyNotFoundError "u" "d")).
Proof.
  assert (GetTLFCryptKeyInfo writer_without_devices bundle_1 "u" (dev "d")
          = Returns (None, None)) as Hget by (vm_compute; reflexivity).
  split; [exact Hget|].
  apply (proj1 (GetTLFEphemeralPublicKey_not_found_iff
                  writer_without_devices bundle_1 "u" (dev "d"))).
  split; [reflexivity|exact Hget].
Defined.

Lemma bundle_indices_valid_sound h tkb :
  bundle_indices_valid h tkb → indices_valid h tkb.
Proof.
  unfold bundle_indices_valid, indices_valid, writer_record, reader_record,
    ephemeral_keys, key_map_indices_valid, valid_index, tkm_index.
  destruct (deref_wkb _ _) as [w|]; [|done].
  destruct (deref_rkb _ _) as [r|]; [|done].
  intros [Hw Hr] user kid info [Hrec|Hrec].
  - destruct (read_tkm h (WKeys w) !! user) as [u|] eqn:Hu; [|done].
    exact (Hw _ _ Hu _ _ Hrec).
  - destruct (read_tkm h (RKeys r) !! user) as [u|] eqn:Hu; [|done].
    exact (Hr _ _ Hu _ _ Hrec).
Qed.

(** C9: when every stored index is valid, the index that
    [GetTLFEphemeralPublicKey] uses for a record it found is in range: the
    call returns the key at that index, and it panics only where
    [GetTLFCryptKeyInfo] does. *)
Theorem GetTLFEphemeralPublicKey_index_in_range (h : store)
    (tkb : TLFKeyBundle) (user : keybase1_UID) (k : CryptPublicKey) :
  indices_valid h tkb →
  (∀ info oerr,
     GetTLFCryptKeyInfo h tkb user k = Returns (Some info, oerr) →
     valid_index (ephemeral_keys h tkb) (EPubKeyIndex info)
     ∧ ∃ e, ephemeral_keys h tkb !! Z.to_nat (EPubKeyIndex info) = Some e
            ∧ GetTLFEphemeralPublicKey h tkb user k = Returns (Ok e))
  ∧ (GetTLFCryptKeyInfo h tkb user k ≠ Panics →
     GetTLFEphemeralPublicKey h tkb user k ≠ Panics).
Proof.
  intros Hvalid.
  assert (∀ info oerr,
     GetTLFCryptKeyInfo h tkb user k = Returns (Some info, oerr) →
     valid_index (ephemeral_keys h tkb) (EPubKeyIndex info)
     ∧ ∃ e, ephemeral_keys h tkb !! Z.to_nat (EPubKeyIndex info) = Some e
            ∧ GetTLFEphemeralPublicKey h tkb user k = Returns (Ok e)) as Hfound.
  { intros info oerr Hget.
    assert (valid_index (ephemeral_keys h tkb) (EPubKeyIndex info)) as Hidx.
    { apply (Hvalid user (KID k)). by eapply GetTLFCryptKeyInfo_found. }
    split; [done|].
    destruct (slice_index_valid _ _ Hidx) as [e He].
    exists e. split; [by apply slice_index_Returns in He as [_ ?]|].
    unfold GetTLFEphemeralPublicKey. rewrite Hget.
    pose proof (GetTLFCryptKeyInfo_no_error _ _ _ _ _ _ Hget) as ->.
    destruct (GetTLFCryptKeyInfo_Returns_ephemeral_keys _ _ _ _ _ Hget)
      as (w & Hw & Heq).
    by rewrite Hw, <- Heq, He. }
  split; [done|].
  intros Hget.
  destruct (GetTLFCryptKeyInfo h tkb user k) as [[[info|] oerr]|] eqn:Hinfo;
    [| |done].
  - destruct (Hfound _ _ eq_refl) as (_ & e & _ & ->). done.
  - unfold GetTLFEphemeralPublicKey. rewrite Hinfo. by destruct oerr.
Qed.

Lemma GetTLFEphemeralPublicKey_index_in_range_witness :
  indices_valid (store_of writer_and_reader) (bundle_of writer_and_reader)
  ∧ GetTLFEphemeralPublicKey (store_of writer_and_reader)
      (bundle_of writer_and_reader) "u2" (dev "d2")
    = Returns (Ok (mkEPubKey [x01])).
Proof.
  assert (indices_valid (store_of writer_and_reader)
            (bundle_of writer_and_reader)) as Hvalid.
  { apply bundle_indices_valid_sound.
    apply (bool_decide_unpack _). vm_compute. reflexivity. }
  split; [exact Hvalid|].
  destruct (GetTLFEphemeralPublicKey_index_in_range _ _ "u2" (dev "d2") Hvalid)
    as [Hfound _].
  destruct (Hfound
              (mkTLFCryptKeyInfo (mkEncryptedClientHalf [x02; x04; x03])
                 (mkServerHalfID (mkHMAC [x04])) 0) None)
    as (_ & e & He & ->); [vm_compute; reflexivity|].
  vm_compute in He. by simplify_eq.
Defined.

(** ** Provisioning *)

Lemma bind_res_Returns {S A B} (m : M S (res A)) (k : A → M S (res B)) s r s2 :
  bind_res m k s = Returns (r, s2)
  ↔ (∃ e, m s = Returns (Err e, s2) ∧ r = Err e)
    ∨ (∃ a s1, m s = Returns (Ok a, s1) ∧ k a s1 = Returns (r, s2)).
Proof.
  unfold bind_res, bind, ret. destruct (m s) as [[[a|e] s1]|]; naive_solver.
Qed.

Lemma uckb_assign_Returns uckb kid info h u h' :
  uckb_assign uckb kid info h = Returns (u, h')
  ↔ ∃ l m, uckb = Some l ∧ uckbs h !! l = Some m
           ∧ h' = set_uckbs <[l := <[kid := info]> m]> h.
Proof.
  unfold uckb_assign. destruct uckb as [l|]; [|naive_solver].
  destruct (uckbs h !! l) as [m|] eqn:Hl; [|naive_solver].
  destruct u. naive_solver.
Qed.

Lemma tkm_assign_Returns tkm user uckb h u h' :
  tkm_assign tkm user uckb h = Returns (u, h')
  ↔ ∃ l m, tkm = Some l ∧ tkms h !! l = Some m
           ∧ h' = set_tkms <[l := <[user := uckb]> m]> h.
Proof.
  unfold tkm_assign. destruct tkm as [l|]; [|naive_solver].
  destruct (tkms h !! l) as [m|] eqn:Hl; [|naive_solver].
  destruct u. naive_solver.
Qed.

Lemma extends_refl idx h : extends idx h h.
Proof. split; try done; eauto 10. Qed.

Lemma extends_trans idx h1 h2 h3 :
  extends idx h1 h2 → extends idx h2 h3 → extends idx h1 h3.
Proof.
  intros H12 H23. split.
  - by rewrite (ext_wkbs _ _ _ H23), (ext_wkbs _ _ _ H12).
  - by rewrite (ext_rkbs _ _ _ H23), (ext_rkbs _ _ _ H12).
  - by rewrite (ext_tkms_dom _ _ _ H23), (ext_tkms_dom _ _ _ H12).
  - etrans; [apply (ext_uckbs_dom _ _ _ H12)|apply (ext_uckbs_dom _ _ _ H23)].
  - intros lk mk Hmk.
    destruct (ext_tkm_kept _ _ _ H12 _ _ Hmk) as (mk2 & Hmk2 & Hsub).
    destruct (ext_tkm_kept _ _ _ H23 _ _ Hmk2) as (mk3 & Hmk3 & Hsub').
    exists mk3. split; [done|by etrans].
  - intros lk mk3 u r Hmk3 Hu.
    destruct (ext_tkm_new _ _ _ H23 _ _ _ _ Hmk3 Hu) as (mk2 & Hmk2 & Hcase).
    destruct Hcase as [Hold|(Hnone & l & -> & Hfresh)].
    + exact (ext_tkm_new _ _ _ H12 _ _ _ _ Hmk2 Hold).
    + assert (is_Some (tkms h1 !! lk)) as [mk1 Hmk1].
      { apply elem_of_dom. rewrite <- (ext_tkms_dom _ _ _ H12).
        by apply elem_of_dom. }
      exists mk1. split; [done|]. right. split.
      * destruct (ext_tkm_kept _ _ _ H12 _ _ Hmk1) as (mk2' & Hmk2' & Hsub).
        simplify_eq. destruct (mk1 !! u) as [r|] eqn:Hr; [|done].
        by rewrite (lookup_weaken _ _ _ _ Hr Hsub) in Hnone.
      * exists l. split; [done|]. intros Hin. apply Hfresh.
        by apply (ext_uckbs_dom _ _ _ H12).
  - intros l m Hm.
    destruct (ext_rec_kept _ _ _ H12 _ _ Hm) as (m2 & Hm2 & Hsub).
    destruct (ext_rec_kept _ _ _ H23 _ _ Hm2) as (m3 & Hm3 & Hsub').
    exists m3. split; [done|by etrans].
  - intros l m3 kid info Hm3 Hkid.
    destruct (ext_rec_new _ _ _ H23 _ _ _ _ Hm3 Hkid)
      as [(m2 & Hm2 & Hold)|[Hnone Hidx]].
    + exact (ext_rec_new _ _ _ H12 _ _ _ _ Hm2 Hold).
    + right. split; [|done]. intros m1 Hm1.
      destruct (ext_rec_kept _ _ _ H12 _ _ Hm1) as (m2 & Hm2 & Hsub).
      specialize (Hnone _ Hm2).
      destruct (m1 !! kid) as [info'|] eqn:Hinfo; [|done].
      by rewrite (lookup_weaken _ _ _ _ Hinfo Hsub) in Hnone.
Qed.

(** Writing the record of a device that has none. *)
Lemma extends_uckb_assign idx l m kid info h :
  uckbs h !! l = Some m → m !! kid = None → EPubKeyIndex info = idx →
  extends idx h (set_uckbs <[l := <[kid := info]> m]> h).
Proof.
  intros Hm Hkid Hidx. split; simpl; try done.
  - rewrite dom_insert_L. set_solver.
  - eauto.
  - eauto 10.
  - intros l' m' Hm'. destruct (decide (l = l')) as [<-|Hne].
    + rewrite lookup_insert_eq. simplify_eq. eexists. split; [done|].
      by apply insert_subseteq.
    + rewrite lookup_insert_ne by done. eauto.
  - intros l' m' kid' info' Hm' Hkid'. destruct (decide (l = l')) as [<-|Hne].
    + rewrite lookup_insert_eq in Hm'. simplify_eq.
      destruct (decide (kid = kid')) as [<-|Hne'].
      * rewrite lookup_insert_eq in Hkid'. simplify_eq.
        right. split; [|done]. intros m' ?. by simplify_eq.
      * rewrite lookup_insert_ne in Hkid' by done. left. eauto.
    + rewrite lookup_insert_ne in Hm' by done. left. eauto.
Qed.

(** Giving a user that has no per-user bundle a new, empty one. *)
Lemma extends_new_bundle idx lk mk user h :
  tkms h !! lk = Some mk → mk !! user = None →
  extends idx h
    (set_tkms <[lk := <[user := Some (fresh (dom (uckbs h)))]> mk]>
       (set_uckbs <[fresh (dom (uckbs h)) := ∅]> h)).
Proof.
  intros Hmk Huser.
  pose proof (is_fresh (dom (uckbs h))) as Hfresh.
  split; simpl; try done.
  - rewrite dom_insert_L. apply elem_of_dom_2 in Hmk. set_solver.
  - rewrite dom_insert_L. set_solver.
  - intros lk' mk' Hmk'. destruct (decide (lk = lk')) as [<-|Hne].
    + rewrite lookup_insert_eq. simplify_eq. eexists. split; [done|].
      by apply insert_subseteq.
    + rewrite lookup_insert_ne by done. eauto.
  - intros lk' mk' u r Hmk' Hu. destruct (decide (lk = lk')) as [<-|Hne].
    + rewrite lookup_insert_eq in Hmk'. simplify_eq. exists mk. split; [done|].
      destruct (decide (user = u)) as [<-|Hne'].
      * rewrite lookup_insert_eq in Hu. simplify_eq. right. eauto.
      * rewrite lookup_insert_ne in Hu by done. by left.
    + rewrite lookup_insert_ne in Hmk' by done. eauto.
  - intros l m Hm. exists m. split; [|done].
    rewrite lookup_insert_ne; [done|]. intros <-.
    apply Hfresh. by apply elem_of_dom_2 in Hm.
  - intros l m' kid info Hm' Hkid.
    destruct (decide (fresh (dom (uckbs h)) = l)) as [<-|Hne].
    + rewrite lookup_insert_eq in Hm'. by simplify_eq.
    + rewrite lookup_insert_ne in Hm' by done. left. eauto.
Qed.

Lemma extends_read_uckb idx h h' (r : UserCryptKeyBundle) :
  extends idx h h' → read_uckb h r ⊆ read_uckb h' r.
Proof.
  intros Hext. destruct r as [l|]; simpl; [|done].
  destruct (uckbs h !! l) as [m|] eqn:Hm; simpl.
  - destruct (ext_rec_kept _ _ _ Hext _ _ Hm) as (m' & -> & Hsub). done.
  - apply map_empty_subseteq.
Qed.

Lemma extends_read_tkm idx h h' (r : TLFKeyMap) :
  extends idx h h' → read_tkm h r ⊆ read_tkm h' r.
Proof.
  intros Hext. destruct r as [l|]; simpl; [|done].
  destruct (tkms h !! l) as [m|] eqn:Hm; simpl.
  - destruct (ext_tkm_kept _ _ _ Hext _ _ Hm) as (m' & -> & Hsub). done.
  - apply map_empty_subseteq.
Qed.

Lemma read_uckb_assign l m kid info h (r : UserCryptKeyBundle) :
  uckbs h !! l = Some m →
  read_uckb (set_uckbs <[l := <[kid := info]> m]> h) r
  = if decide (r = Some l) then <[kid := info]> (read_uckb h r)
    else read_uckb h r.
Proof.
  intros Hm. destruct r as [l'|]; simpl; [|done].
  case_decide as Heq.
  - simplify_eq. by rewrite lookup_insert_eq, Hm.
  - rewrite lookup_insert_ne; [done|congruence].
Qed.

Section provisioning_facts.
Context {C : Type} `{!Crypto C}.

Implicit Types (h : store) (c : C) (uckb : UserCryptKeyBundle)
  (uid : keybase1_UID) (k : CryptPublicKey)
  (serverMap : gmap string TLFCryptKeyServerHalf).

(** One iteration, by cases. *)
Lemma fillInDeviceInfo_iter_eq uckb uid tlfCryptKey ePrivKey ePubIndex k
    serverMap h c :
  fillInDeviceInfo_iter uckb uid tlfCryptKey ePrivKey ePubIndex k serverMap
    (h, c)
  = match read_uckb h uckb !! KID k with
    | Some _ => Returns (Ok serverMap, (h, c))
    | None =>
        match make_record uid tlfCryptKey ePrivKey ePubIndex k c with
        | (Err e, c') => Returns (Err e, (h, c'))
        | (Ok (serverHalf, info), c') =>
            match uckb_assign uckb (KID k) info h with
            | Returns (_, h') =>
                Returns (Ok (<[KID k := serverHalf]> serverMap), (h', c'))
            | Panics => Panics
            end
        end
    end.
Proof.
  unfold fillInDeviceInfo_iter, make_record, bind_res, bind, on_store,
    get_store, call_crypto, ret. simpl.
  destruct (read_uckb h uckb !! KID k); [done|].
  destruct (MakeRandomTLFCryptKeyServerHalf c) as [[serverHalf|e] c1]; [|done].
  simpl.
  destruct (MaskTLFCryptKey serverHalf tlfCryptKey c1)
    as [[clientHalf|e] c2]; [|done].
  simpl.
  destruct (EncryptTLFCryptKeyClientHalf ePrivKey k clientHalf c2)
    as [[encryptedClientHalf|e] c3]; [|done].
  simpl.
  destruct (GetTLFCryptKeyServerHalfID uid (KID k) serverHalf c3)
    as [[serverHalfID|e] c4]; [|done].
  simpl.
  by destruct (uckb_assign uckb (KID k) _ h) as [[[] h']|].
Qed.

Lemma make_record_index uid tlfCryptKey ePrivKey ePubIndex k c serverHalf
    info c' :
  make_record uid tlfCryptKey ePrivKey ePubIndex k c
  = (Ok (serverHalf, info), c') →
  EPubKeyIndex info = ePubIndex.
Proof.
  unfold make_record.
  destruct (MakeRandomTLFCryptKeyServerHalf c) as [[sh|e] c1]; [|done].
  destruct (MaskTLFCryptKey sh tlfCryptKey c1) as [[ch|e] c2]; [|done].
  destruct (EncryptTLFCryptKeyClientHalf ePrivKey k ch c2) as [[ech|e] c3];
    [|done].
  destruct (GetTLFCryptKeyServerHalfID uid (KID k) sh c3) as [[id|e] c4];
    [|done].
  by intros [= <- <- <-].
Qed.

(** The crypto steps for a device fail when random generation fails, or
    masking, or encryption, or the computation of the server-half ID, the
    steps before having succeeded; the error is that of the failed step. *)
Lemma make_record_Err uid tlfCryptKey ePrivKey ePubIndex k c e c' :
  make_record uid tlfCryptKey ePrivKey ePubIndex k c = (Err e, c')
  ↔ MakeRandomTLFCryptKeyServerHalf c = (Err e, c')
    ∨ ∃ serverHalf c1,
        MakeRandomTLFCryptKeyServerHalf c = (Ok serverHalf, c1)
        ∧ (MaskTLFCryptKey serverHalf tlfCryptKey c1 = (Err e, c')
           ∨ ∃ clientHalf c2,
               MaskTLFCryptKey serverHalf tlfCryptKey c1 = (Ok clientHalf, c2)
               ∧ (EncryptTLFCryptKeyClientHalf ePrivKey k clientHalf c2
                  = (Err e, c')
                  ∨ ∃ encryptedClientHalf c3,
                      EncryptTLFCryptKeyClientHalf ePrivKey k clientHalf c2
                      = (Ok encryptedClientHalf, c3)
                      ∧ GetTLFCryptKeyServerHalfID uid (KID k) serverHalf c3
                        = (Err e, c'))).
Proof.
  unfold make_record.
  destruct (MakeRandomTLFCryptKeyServerHalf c) as [[sh|e1] c1] eqn:H1.
  2: { split; [intros [= -> ->]; by left|].
       by intros [[= -> ->]|(? & ? & [=] & _)]. }
  destruct (MaskTLFCryptKey sh tlfCryptKey c1) as [[ch|e2] c2] eqn:H2.
  2: { split.
       - intros [= -> ->]. right. eexists _, _. split; [done|]. by left.
       - intros [[=]|(? & ? & [= <- <-] & [Hm|(? & ? & Hm & _)])];
           rewrite H2 in Hm; by simplify_eq. }
  destruct (EncryptTLFCryptKeyClientHalf ePrivKey k ch c2) as [[ech|e3] c3] eqn:H3.
  2: { split.
       - intros [= -> ->]. right. eexists _, _. split; [done|]. right.
         eexists _, _. split; [done|]. by left.
       - intros [[=]|(? & ? & [= <- <-]
                      & [Hm|(? & ? & Hm & [He|(? & ? & He & _)])])];
           rewrite H2 in Hm; simplify_eq; rewrite H3 in He; by simplify_eq. }
  destruct (GetTLFCryptKeyServerHalfID uid (KID k) sh c3) as [[id|e4] c4] eqn:H4.
  - split; [done|].
    intros [[=]|(? & ? & [= <- <-]
                 & [Hm|(? & ? & Hm & [He|(? & ? & He & Hid)])])];
      rewrite H2 in Hm; simplify_eq; rewrite H3 in He; simplify_eq;
      rewrite H4 in Hid; by simplify_eq.
  - split.
    + intros [= -> ->]. right. eexists _, _. split; [done|]. right.
      eexists _, _. split; [done|]. right. eexists _, _. by split.
    + intros [[=]|(? & ? & [= <- <-]
                   & [Hm|(? & ? & Hm & [He|(? & ? & He & Hid)])])];
        rewrite H2 in Hm; simplify_eq; rewrite H3 in He; simplify_eq;
        rewrite H4 in Hid; by simplify_eq.
Qed.

(** One iteration either skips a device that has a record, or stops at
    the error of a crypto step with the store untouched, or writes the new
    record and enters the server half in the server map. *)
Lemma fillInDeviceInfo_iter_Returns uckb uid tlfCryptKey ePrivKey ePubIndex k
    serverMap h c r h' c' :
  fillInDeviceInfo_iter uckb uid tlfCryptKey ePrivKey ePubIndex k serverMap
    (h, c) = Returns (r, (h', c')) →
  (is_Some (read_uckb h uckb !! KID k) ∧ r = Ok serverMap ∧ h' = h ∧ c' = c)
  ∨ (read_uckb h uckb !! KID k = None
     ∧ ∃ e, make_record uid tlfCryptKey ePrivKey ePubIndex k c = (Err e, c')
            ∧ r = Err e ∧ h' = h)
  ∨ (read_uckb h uckb !! KID k = None
     ∧ ∃ serverHalf info l m,
         make_record uid tlfCryptKey ePrivKey ePubIndex k c
         = (Ok (serverHalf, info), c')
         ∧ uckb = Some l ∧ uckbs h !! l = Some m
         ∧ h' = set_uckbs <[l := <[KID k := info]> m]> h
         ∧ r = Ok (<[KID k := serverHalf]> serverMap)).
Proof.
  rewrite fillInDeviceInfo_iter_eq.
  destruct (read_uckb h uckb !! KID k) as [info|] eqn:Hrec.
  { intros [= <- <- <-]. left. eauto. }
  destruct (make_record _ _ _ _ _ _) as [[[serverHalf info]|e] c1] eqn:Hmake.
  - destruct (uckb_assign uckb (KID k) info h) as [[u h1]|] eqn:Hassign; [|done].
    intros [= <- <- <-]. right. right. split; [done|].
    apply uckb_assign_Returns in Hassign as (l & m & -> & Hm & ->).
    eauto 10.
  - intros [= <- <- <-]. right. left. eauto.
Qed.

Lemma fillInDeviceInfo_iter_extends uckb uid tlfCryptKey ePrivKey ePubIndex k
    serverMap h c r h' c' :
  fillInDeviceInfo_iter uckb uid tlfCryptKey ePrivKey ePubIndex k serverMap
    (h, c) = Returns (r, (h', c')) →
  extends ePubIndex h h' ∧ tkms h' = tkms h
  ∧ dom (uckbs h') = dom (uckbs h)
  ∧ (∀ l, uckb ≠ Some l → uckbs h' !! l = uckbs h !! l).
Proof.
  intros Hiter.
  apply fillInDeviceInfo_iter_Returns in Hiter
    as [(_ & _ & -> & _)|[(_ & e & _ & _ & ->)|
        (Hnone & sh & info & l & m & Hmake & -> & Hm & -> & _)]];
    [split_and!; [apply extends_refl|done..]
    |split_and!; [apply extends_refl|done..]|].
  simpl in Hnone. rewrite Hm in Hnone. simpl in Hnone.
  split_and!; simpl.
  - apply extends_uckb_assign; [done..|]. by eapply make_record_index.
  - done.
  - rewrite dom_insert_L. apply elem_of_dom_2 in Hm. set_solver.
  - intros l' Hne. rewrite lookup_insert_ne; [done|congruence].
Qed.

(** The loop only adds records with the given index to the bundle it is
    called on; nothing else in the store changes. *)
Lemma fillInDeviceInfo_loop_extends uckb uid tlfCryptKey ePrivKey ePubIndex
    publicKeys serverMap h c r h' c' :
  fillInDeviceInfo_loop uckb uid tlfCryptKey ePrivKey ePubIndex publicKeys
    serverMap (h, c) = Returns (r, (h', c')) →
  extends ePubIndex h h' ∧ tkms h' = tkms h
  ∧ dom (uckbs h') = dom (uckbs h)
  ∧ (∀ l, uckb ≠ Some l → uckbs h' !! l = uckbs h !! l).
Proof.
  revert serverMap h c.
  induction publicKeys as [|k rest IH]; intros serverMap h c; simpl.
  { intros [= <- <- <-]. split_and!; [apply extends_refl|done..]. }
  intros Hloop.
  apply bind_res_Returns in Hloop
    as [(e & Hiter & ->)|(sm1 & [h1 c1] & Hiter & Hrest)].
  - by apply fillInDeviceInfo_iter_extends in Hiter.
  - apply fillInDeviceInfo_iter_extends in Hiter as (Hext1 & Ht1 & Hd1 & Hf1).
    apply IH in Hrest as (Hext2 & Ht2 & Hd2 & Hf2).
    split_and!.
    + by eapply extends_trans.
    + congruence.
    + congruence.
    + intros l Hne. rewrite Hf2, Hf1; done.
Qed.

Lemma fillInDeviceInfo_loop_app uckb uid tlfCryptKey ePrivKey ePubIndex
    pre post serverMap (w : store * C) :
  fillInDeviceInfo_loop uckb uid tlfCryptKey ePrivKey ePubIndex (pre ++ post)
    serverMap w
  = bind_res
      (fillInDeviceInfo_loop uckb uid tlfCryptKey ePrivKey ePubIndex pre
         serverMap)
      (fillInDeviceInfo_loop uckb uid tlfCryptKey ePrivKey ePubIndex post) w.
Proof.
  revert serverMap w. induction pre as [|k pre IH]; intros serverMap w; simpl.
  { done. }
  unfold bind_res, bind in *.
  destruct (fillInDeviceInfo_iter _ _ _ _ _ _ _ _) as [[[sm1|e] w1]|]; [|done..].
  apply IH.
Qed.

(** A loop over devices that all have a record does nothing at all. *)
Lemma fillInDeviceInfo_loop_present uckb uid tlfCryptKey ePrivKey ePubIndex
    publicKeys serverMap h c :
  (∀ k, k ∈ publicKeys → is_Some (read_uckb h uckb !! KID k)) →
  fillInDeviceInfo_loop uckb uid tlfCryptKey ePrivKey ePubIndex publicKeys
    serverMap (h, c) = Returns (Ok serverMap, (h, c)).
Proof.
  induction publicKeys as [|k rest IH]; intros Hall; simpl; [done|].
  unfold bind_res, bind. rewrite fillInDeviceInfo_iter_eq.
  destruct (Hall k) as [info ->]; [apply list_elem_of_here|].
  apply IH. intros k' Hk'. apply Hall. by apply list_elem_of_further.
Qed.

(** The loop returns whenever the bundle is a live map. *)
Lemma fillInDeviceInfo_loop_total uckb uid tlfCryptKey ePrivKey ePubIndex
    publicKeys serverMap h c l :
  uckb = Some l → l ∈ dom (uckbs h) →
  ∃ r h' c',
    fillInDeviceInfo_loop uckb uid tlfCryptKey ePrivKey ePubIndex publicKeys
      serverMap (h, c) = Returns (r, (h', c')).
Proof.
  intros -> . revert serverMap h c.
  induction publicKeys as [|k rest IH]; intros serverMap h c Hlive; simpl.
  { by eexists _, _, _. }
  unfold bind_res, bind.
  destruct (fillInDeviceInfo_iter (Some l) uid tlfCryptKey ePrivKey ePubIndex
              k serverMap (h, c)) as [[r1 [h1 c1]]|] eqn:Hiter.
  - destruct r1 as [sm1|e]; [|by eexists _, _, _].
    apply IH.
    apply fillInDeviceInfo_iter_extends in Hiter as (_ & _ & Hdom & _).
    by rewrite Hdom.
  - rewrite fillInDeviceInfo_iter_eq in Hiter.
    destruct (read_uckb h (Some l) !! KID k); [done|].
    destruct (make_record _ _ _ _ _ _) as [[[sh info]|e] c1]; [|done].
    apply elem_of_dom in Hlive as [m Hm]. simpl in Hiter. by rewrite Hm in Hiter.
Qed.

(** The server map of a loop that succeeds: the entries of the devices
    that had a record and of the devices that still have none are those of
    the map the loop started with; every device that got its record in the
    loop has the server half its record was made with; every listed device
    has a record. *)
Lemma fillInDeviceInfo_loop_server_map uckb uid tlfCryptKey ePrivKey ePubIndex
    publicKeys serverMap h c serverMap' h' c' :
  fillInDeviceInfo_loop uckb uid tlfCryptKey ePrivKey ePubIndex publicKeys
    serverMap (h, c) = Returns (Ok serverMap', (h', c')) →
  (∀ kid, is_Some (read_uckb h uckb !! kid) →
          serverMap' !! kid = serverMap !! kid)
  ∧ (∀ kid, read_uckb h' uckb !! kid = None →
            serverMap' !! kid = serverMap !! kid)
  ∧ (∀ kid info, read_uckb h uckb !! kid = None →
       read_uckb h' uckb !! kid = Some info →
       ∃ serverHalf k c1 c2,
         serverMap' !! kid = Some serverHalf
         ∧ k ∈ publicKeys ∧ KID k = kid
         ∧ make_record uid tlfCryptKey ePrivKey ePubIndex k c1
           = (Ok (serverHalf, info), c2))
  ∧ (∀ k, k ∈ publicKeys → is_Some (read_uckb h' uckb !! KID k)).
Proof.
  revert serverMap h c.
  induction publicKeys as [|k rest IH]; intros serverMap h c; simpl.
  { intros [= <- <- <-]. split_and!; [done|done| |].
    - intros kid info Hnone Hsome. by rewrite Hnone in Hsome.
    - by intros k ?%elem_of_nil. }
  intros Hloop.
  apply bind_res_Returns in Hloop
    as [(e & _ & ?)|(sm1 & [h1 c1] & Hiter & Hrest)]; [done|].
  pose proof (fillInDeviceInfo_loop_extends _ _ _ _ _ _ _ _ _ _ _ _ Hrest)
    as (Hext & _).
  pose proof (extends_read_uckb _ _ _ uckb Hext) as Hsub.
  apply IH in Hrest as (IHa & IHb & IHc & IHd).
  apply fillInDeviceInfo_iter_Returns in Hiter
    as [(Hsome & [= <-] & -> & ->)|[(_ & e & _ & ? & _)|
        (Hnone & sh & info & l & m & Hmake & -> & Hm & -> & [= ->])]];
    [|done|].
  - split_and!; [done|done| |].
    + intros kid info Hnone Hrec.
      destruct (IHc _ _ Hnone Hrec) as (sh & k' & c1 & c2 & ? & ? & ? & ?).
      exists sh, k', c1, c2. split_and!; [done| |done..].
      by apply list_elem_of_further.
    + intros k' [->|Hin]%elem_of_cons; [|by apply IHd].
      destruct Hsome as [info Hinfo].
      exists info. by apply (lookup_weaken _ _ _ _ Hinfo).
  - assert (∀ r : UserCryptKeyBundle,
              read_uckb (set_uckbs <[l := <[KID k := info]> m]> h) r
              = if decide (r = Some l) then <[KID k := info]> (read_uckb h r)
                else read_uckb h r) as Hread
      by (intros r; by apply read_uckb_assign).
    rewrite Hread in IHa, IHc, Hsub. rewrite decide_True in IHa, IHc, Hsub by done.
    assert (read_uckb h' (Some l) !! KID k = Some info) as Hkept.
    { apply (lookup_weaken _ _ _ _ (lookup_insert_eq _ _ _) Hsub). }
    split_and!.
    + intros kid Hkid. rewrite IHa.
      * rewrite lookup_insert_ne; [done|]. intros <-.
        rewrite Hnone in Hkid. by destruct Hkid.
      * destruct Hkid as [info' Hinfo']. exists info'.
        rewrite lookup_insert_ne; [done|]. intros <-. congruence.
    + intros kid Hkid. rewrite IHb by done.
      rewrite lookup_insert_ne; [done|]. intros <-. congruence.
    + intros kid info' Hnone' Hrec. destruct (decide (KID k = kid)) as [<-|Hne].
      * exists sh, k, c, c1.
        simplify_eq. split_and!; [|apply list_elem_of_here|done..].
        rewrite IHa; [by rewrite lookup_insert_eq|].
        rewrite lookup_insert_eq. eauto.
      * destruct (IHc kid info') as (sh' & k' & c2 & c3 & ? & ? & ? & ?);
          [by rewrite lookup_insert_ne|done|].
        exists sh', k', c2, c3. split_and!; [done| |done..].
        by apply list_elem_of_further.
    + intros k' [->|Hin]%elem_of_cons; [eauto|by apply IHd].
Qed.

(** A loop that fails has run through a prefix of the devices without
    error; the next device had no record, and one of its crypto steps
    failed.  The loop returns in the store that the prefix left. *)
Lemma fillInDeviceInfo_loop_Err uckb uid tlfCryptKey ePrivKey ePubIndex
    publicKeys serverMap h c e h' c' :
  fillInDeviceInfo_loop uckb uid tlfCryptKey ePrivKey ePubIndex publicKeys
    serverMap (h, c) = Returns (Err e, (h', c')) →
  ∃ pre k post serverMap1 c1,
    publicKeys = pre ++ k :: post
    ∧ fillInDeviceInfo_loop uckb uid tlfCryptKey ePrivKey ePubIndex pre
        serverMap (h, c) = Returns (Ok serverMap1, (h', c1))
    ∧ read_uckb h' uckb !! KID k = None
    ∧ make_record uid tlfCryptKey ePrivKey ePubIndex k c1 = (Err e, c').
Proof.
  revert serverMap h c.
  induction publicKeys as [|k rest IH]; intros serverMap h c; simpl; [done|].
  intros Hloop.
  apply bind_res_Returns in Hloop
    as [(e' & Hiter & [= <-])|(sm1 & [h1 c1] & Hiter & Hrest)].
  - apply fillInDeviceInfo_iter_Returns in Hiter
      as [(_ & ? & _)|[(Hnone & e' & Hmake & [= <-] & ->)|
          (_ & ? & ? & ? & ? & _ & _ & _ & _ & ?)]]; [done| |done].
    exists [], k, rest, serverMap, c. by split_and!.
  - apply IH in Hrest as (pre & k' & post & sm2 & c2 & -> & Hpre & Hnone & Hmake).
    exists (k :: pre), k', post, sm2, c2. split_and!; [done| |done..].
    simpl. apply bind_res_Returns. right. eauto.
Qed.

(** The devices that have a record can be struck from the list: the loop
    does not look at them beyond finding their record. *)
Lemma fillInDeviceInfo_loop_skip uckb uid tlfCryptKey ePrivKey ePubIndex
    publicKeys serverMap h c (present : gset string) :
  (∀ kid, kid ∈ present → is_Some (read_uckb h uckb !! kid)) →
  fillInDeviceInfo_loop uckb uid tlfCryptKey ePrivKey ePubIndex
    (filter (λ k, KID k ∉ present) publicKeys) serverMap (h, c)
  = fillInDeviceInfo_loop uckb uid tlfCryptKey ePrivKey ePubIndex publicKeys
      serverMap (h, c).
Proof.
  revert serverMap h c.
  induction publicKeys as [|k rest IH]; intros serverMap h c Hpresent; [done|].
  rewrite filter_cons. destruct (decide (KID k ∉ present)) as [Hk|Hk]; simpl.
  - unfold bind_res, bind.
    destruct (fillInDeviceInfo_iter _ _ _ _ _ _ _ _) as [[[sm1|e] [h1 c1]]|]
      eqn:Hiter; [|done..].
    apply IH. intros kid Hkid.
    apply fillInDeviceInfo_iter_extends in Hiter as (Hext & _).
    destruct (Hpresent _ Hkid) as [info Hinfo]. exists info.
    by apply (lookup_weaken _ _ _ _ Hinfo), extends_read_uckb with ePubIndex.
  - apply dec_stable in Hk. rewrite IH by done.
    unfold bind_res, bind. rewrite fillInDeviceInfo_iter_eq.
    by destruct (Hpresent _ Hk) as [info ->].
Qed.

Lemma fillInDeviceInfo_Returns uckb uid tlfCryptKey ePrivKey ePubIndex
    publicKeys (w w' : store * C) osm oerr :
  fillInDeviceInfo uckb uid tlfCryptKey ePrivKey ePubIndex publicKeys w
  = Returns ((osm, oerr), w')
  ↔ (∃ serverMap,
       fillInDeviceInfo_loop uckb uid tlfCryptKey ePrivKey ePubIndex
         publicKeys ∅ w = Returns (Ok serverMap, w')
       ∧ osm = Some serverMap ∧ oerr = None)
    ∨ (∃ e,
         fillInDeviceInfo_loop uckb uid tlfCryptKey ePrivKey ePubIndex
           publicKeys ∅ w = Returns (Err e, w')
         ∧ osm = None ∧ oerr = Some e).
Proof.
  unfold fillInDeviceInfo, bind, ret.
  destruct (fillInDeviceInfo_loop _ _ _ _ _ _ _ _) as [[[sm|e] w1]|];
    naive_solver.
Qed.

(** C7: a device that has a record when [fillInDeviceInfo] is called is
    skipped: its record is the same afterwards, the server map has no
    entry for it, and the call does what it does on the list without the
    devices that have a record.  When every listed device has a record the
    call changes nothing, calls no crypto step and returns the empty map;
    so does any call that lists devices of an earlier successful call
    again. *)
Theorem fillInDeviceInfo_skips_present uckb uid tlfCryptKey ePrivKey
    ePubIndex publicKeys h c l m :
  uckb = Some l → uckbs h !! l = Some m →
  ∃ osm oerr h' c',
    fillInDeviceInfo uckb uid tlfCryptKey ePrivKey ePubIndex publicKeys (h, c)
    = Returns ((osm, oerr), (h', c'))
    ∧ (∀ kid info, read_uckb h uckb !! kid = Some info →
         read_uckb h' uckb !! kid = Some info
         ∧ ∀ serverMap, osm = Some serverMap → serverMap !! kid = None)
    ∧ fillInDeviceInfo uckb uid tlfCryptKey ePrivKey ePubIndex
        (filter (λ k, KID k ∉ dom (read_uckb h uckb)) publicKeys) (h, c)
      = Returns ((osm, oerr), (h', c'))
    ∧ ((∀ k, k ∈ publicKeys → is_Some (read_uckb h uckb !! KID k)) →
       osm = Some ∅ ∧ oerr = None ∧ h' = h ∧ c' = c)
    ∧ (oerr = None →
       ∀ uid2 tlfCryptKey2 ePrivKey2 ePubIndex2 publicKeys2,
         publicKeys2 ⊆ publicKeys →
         fillInDeviceInfo uckb uid2 tlfCryptKey2 ePrivKey2 ePubIndex2
           publicKeys2 (h', c')
         = Returns ((Some ∅, None), (h', c'))).
Proof.
  intros -> Hm.
  destruct (fillInDeviceInfo_loop_total (Some l) uid tlfCryptKey ePrivKey
              ePubIndex publicKeys ∅ h c l) as (r & h' & c' & Hloop);
    [done|by apply elem_of_dom_2 in Hm|].
  pose proof (fillInDeviceInfo_loop_extends _ _ _ _ _ _ _ _ _ _ _ _ Hloop)
    as (Hext & _).
  pose proof (extends_read_uckb _ _ _ (Some l) Hext) as Hsub.
  exists (match r with Ok sm => Some sm | Err _ => None end),
         (match r with Ok _ => None | Err e => Some e end), h', c'.
  split_and!.
  - apply fillInDeviceInfo_Returns. destruct r; eauto.
  - intros kid info Hrec. split; [by apply (lookup_weaken _ _ _ _ Hrec)|].
    intros serverMap Hosm. destruct r as [sm|e]; [|done]. simplify_eq.
    apply fillInDeviceInfo_loop_server_map in Hloop as (Ha & _).
    rewrite Ha; [done|]. by rewrite Hrec.
  - apply fillInDeviceInfo_Returns.
    rewrite fillInDeviceInfo_loop_skip
      by (intros kid Hkid; by apply elem_of_dom).
    destruct r; eauto.
  - intros Hall.
    rewrite fillInDeviceInfo_loop_present in Hloop by done. by simplify_eq.
  - intros Hok uid2 tlfCryptKey2 ePrivKey2 ePubIndex2 publicKeys2 Hincl.
    destruct r as [sm|e]; [|done].
    apply fillInDeviceInfo_loop_server_map in Hloop as (_ & _ & _ & Hd).
    apply fillInDeviceInfo_Returns. left. exists ∅. split; [|done].
    apply fillInDeviceInfo_loop_present. intros k Hk. apply Hd. by apply Hincl.
Qed.

End provisioning_facts.

Lemma fillInDeviceInfo_skips_present_witness :
  uckbs one_bundle !! 1%positive = Some {[ "d" := record_d ]}
  ∧ ∃ serverHalf h' c',
      fillInDeviceInfo (Some 1%positive) "u" (mkTLFCryptKey [x03])
        (mkEPrivKey [x02]) 5 [dev "d"; dev "e"] (one_bundle, (100%nat, 0%nat))
      = Returns ((Some {[ "e" := serverHalf ]}, None), (h', c'))
      ∧ read_uckb h' (Some 1%positive) !! "d" = Some record_d.
Proof.
  assert (uckbs one_bundle !! 1%positive = Some {[ "d" := record_d ]}) as Hm
    by (vm_compute; reflexivity).
  split; [exact Hm|].
  destruct (fillInDeviceInfo_skips_present (Some 1%positive) "u"
              (mkTLFCryptKey [x03]) (mkEPrivKey [x02]) 5 [dev "d"; dev "e"]
              one_bundle (100%nat, 0%nat) 1%positive _ eq_refl Hm)
    as (osm & oerr & h' & c' & Hcall & Hkept & _).
  destruct (Hkept "d" record_d) as [Hrec _]; [vm_compute; reflexivity|].
  vm_compute in Hcall. simplify_eq.
  eexists _, _, _. split; [vm_compute; reflexivity|exact Hrec].
Defined.


Section provisioning_failures.
Context {C : Type} `{!Crypto C}.

Implicit Types (h : store) (c : C) (uckb : UserCryptKeyBundle)
  (uid : keybase1_UID) (k : CryptPublicKey).

(** When the devices of [pre] are provisioned without error and a crypto
    step fails for the next device, the call returns that error in the
    store that [pre] left, whatever devices follow. *)
Lemma fillInDeviceInfo_fails_at uckb uid tlfCryptKey ePrivKey ePubIndex
    pre k post h c serverMap1 h1 c1 e c2 :
  fillInDeviceInfo uckb uid tlfCryptKey ePrivKey ePubIndex pre (h, c)
  = Returns ((Some serverMap1, None), (h1, c1)) →
  read_uckb h1 uckb !! KID k = None →
  make_record uid tlfCryptKey ePrivKey ePubIndex k c1 = (Err e, c2) →
  fillInDeviceInfo uckb uid tlfCryptKey ePrivKey ePubIndex (pre ++ k :: post)
    (h, c)
  = Returns ((None, Some e), (h1, c2)).
Proof.
  intros Hpre Hnone Hmake.
  apply fillInDeviceInfo_Returns in Hpre
    as [(sm & Hloop & [= <-] & _)|(? & _ & ? & _)]; [|done].
  apply fillInDeviceInfo_Returns. right. exists e. split; [|done].
  rewrite fillInDeviceInfo_loop_app. apply bind_res_Returns. right.
  exists serverMap1, (h1, c1). split; [done|]. simpl.
  apply bind_res_Returns. left. exists e. split; [|done].
  by rewrite fillInDeviceInfo_iter_eq, Hnone, Hmake.
Qed.

Lemma fillInDeviceInfo_failure_inv uckb uid tlfCryptKey ePrivKey ePubIndex
    publicKeys h c osm e h' c' :
  fillInDeviceInfo uckb uid tlfCryptKey ePrivKey ePubIndex publicKeys (h, c)
  = Returns ((osm, Some e), (h', c')) →
  osm = None
  ∧ ∃ pre k post serverMap1 c1,
      publicKeys = pre ++ k :: post
      ∧ fillInDeviceInfo uckb uid tlfCryptKey ePrivKey ePubIndex pre (h, c)
        = Returns ((Some serverMap1, None), (h', c1))
      ∧ read_uckb h' uckb !! KID k = None
      ∧ make_record uid tlfCryptKey ePrivKey ePubIndex k c1 = (Err e, c').
Proof.
  intros Hcall.
  apply fillInDeviceInfo_Returns in Hcall
    as [(? & _ & _ & ?)|(e' & Hloop & -> & [= <-])]; [done|].
  split; [done|].
  apply fillInDeviceInfo_loop_Err in Hloop
    as (pre & k & post & sm1 & c1 & -> & Hpre & Hnone & Hmake).
  exists pre, k, post, sm1, c1. split_and!; [done| |done..].
  apply fillInDeviceInfo_Returns. left. eauto.
Qed.

(** The server map of a successful call holds exactly the devices that
    got their record in the call, each with the server half that its
    record was made with. *)
Lemma fillInDeviceInfo_server_map uckb uid tlfCryptKey ePrivKey ePubIndex
    publicKeys h c serverMap h' c' :
  fillInDeviceInfo uckb uid tlfCryptKey ePrivKey ePubIndex publicKeys (h, c)
  = Returns ((Some serverMap, None), (h', c')) →
  (∀ kid, is_Some (serverMap !! kid)
          ↔ read_uckb h uckb !! kid = None
            ∧ is_Some (read_uckb h' uckb !! kid))
  ∧ (∀ kid serverHalf, serverMap !! kid = Some serverHalf →
       ∃ info k c1 c2,
         read_uckb h' uckb !! kid = Some info
         ∧ k ∈ publicKeys ∧ KID k = kid
         ∧ make_record uid tlfCryptKey ePrivKey ePubIndex k c1
           = (Ok (serverHalf, info), c2))
  ∧ (∀ k, k ∈ publicKeys → is_Some (read_uckb h' uckb !! KID k)).
Proof.
  intros Hcall.
  apply fillInDeviceInfo_Returns in Hcall
    as [(sm & Hloop & [= <-] & _)|(? & _ & ? & _)]; [|done].
  apply fillInDeviceInfo_loop_server_map in Hloop as (Ha & Hb & Hc & Hd).
  assert (∀ kid, is_Some (serverMap !! kid) →
            read_uckb h uckb !! kid = None
            ∧ is_Some (read_uckb h' uckb !! kid)) as Hnew.
  { intros kid Hsome. split.
    - destruct (read_uckb h uckb !! kid) as [info|] eqn:Hrec; [|done].
      rewrite Ha, lookup_empty in Hsome by (by rewrite Hrec).
      by destruct Hsome.
    - destruct (read_uckb h' uckb !! kid) as [info|] eqn:Hrec; [done|].
      rewrite Hb, lookup_empty in Hsome by done. by destruct Hsome. }
  split_and!.
  - intros kid. split; [apply Hnew|].
    intros [Hnone [info Hrec]].
    destruct (Hc _ _ Hnone Hrec) as (sh & _ & _ & _ & -> & _). done.
  - intros kid sh Hsh.
    destruct (Hnew kid) as [Hnone [info Hrec]]; [by rewrite Hsh|].
    destruct (Hc _ _ Hnone Hrec) as (sh' & k & c1 & c2 & Hsh' & ? & ? & ?).
    simplify_eq. exists info, k, c1, c2. done.
  - done.
Qed.

(** C5: when [fillInDeviceInfo] fails the server map it returns is nil.
    The devices before the one that failed were provisioned as in a
    successful call on them alone; the server map of that call, which
    holds the server half of each record that the failed call has left in
    the bundle, is not returned. *)
Theorem fillInDeviceInfo_failure_returns_nil uckb uid tlfCryptKey ePrivKey
    ePubIndex publicKeys h c osm e h' c' :
  fillInDeviceInfo uckb uid tlfCryptKey ePrivKey ePubIndex publicKeys (h, c)
  = Returns ((osm, Some e), (h', c')) →
  osm = None
  ∧ ∃ pre k post serverMap1 c1,
      publicKeys = pre ++ k :: post
      ∧ fillInDeviceInfo uckb uid tlfCryptKey ePrivKey ePubIndex pre (h, c)
        = Returns ((Some serverMap1, None), (h', c1))
      ∧ make_record uid tlfCryptKey ePrivKey ePubIndex k c1 = (Err e, c')
      ∧ (∀ kid, is_Some (serverMap1 !! kid)
                ↔ read_uckb h uckb !! kid = None
                  ∧ is_Some (read_uckb h' uckb !! kid))
      ∧ (∀ kid serverHalf, serverMap1 !! kid = Some serverHalf →
           ∃ info k1 c2 c3,
             read_uckb h' uckb !! kid = Some info
             ∧ k1 ∈ pre ∧ KID k1 = kid
             ∧ make_record uid tlfCryptKey ePrivKey ePubIndex k1 c2
               = (Ok (serverHalf, info), c3)).
Proof.
  intros Hcall.
  apply fillInDeviceInfo_failure_inv in Hcall
    as (-> & pre & k & post & sm1 & c1 & -> & Hpre & Hnone & Hmake).
  split; [done|]. exists pre, k, post, sm1, c1.
  destruct (fillInDeviceInfo_server_map _ _ _ _ _ _ _ _ _ _ _ Hpre)
    as (Hdom & Hminted & _).
  by split_and!.
Qed.

End provisioning_failures.

(** With a budget of five crypto calls, device [e] gets its record and
    the first crypto step for device [f] fails. *)
Lemma fillInDeviceInfo_failure_returns_nil_witness :
  ∃ h' c',
    fillInDeviceInfo (Some 1%positive) "u" (mkTLFCryptKey [x03])
      (mkEPrivKey [x02]) 5 [dev "e"; dev "f"] (one_bundle, (5%nat, 0%nat))
    = Returns ((None, Some (CryptoError "out of budget")), (h', c'))
    ∧ is_Some (read_uckb h' (Some 1%positive) !! "e")
    ∧ ∃ pre k post serverMap1 c1,
        [dev "e"; dev "f"] = pre ++ k :: post
        ∧ fillInDeviceInfo (Some 1%positive) "u" (mkTLFCryptKey [x03])
            (mkEPrivKey [x02]) 5 pre (one_bundle, (5%nat, 0%nat))
          = Returns ((Some serverMap1, None), (h', c1)).
Proof.
  eexists _, _.
  assert (fillInDeviceInfo (Some 1%positive) "u" (mkTLFCryptKey [x03])
            (mkEPrivKey [x02]) 5 [dev "e"; dev "f"] (one_bundle, (5%nat, 0%nat))
          = Returns ((None, Some (CryptoError "out of budget")), (_, _)))
    as Hcall by (vm_compute; reflexivity).
  split; [exact Hcall|]. split; [vm_compute; eauto|].
  destruct (fillInDeviceInfo_failure_returns_nil _ _ _ _ _ _ _ _ _ _ _ _ Hcall)
    as (_ & pre & k & post & sm1 & c1 & Hkeys & Hpre & _).
  by exists pre, k, post, sm1, c1.
Defined.

Section orchestration_facts.
Context {C : Type} `{!Crypto C}.

Implicit Types (h : store) (c : C) (cryptBundles : TLFKeyMap)
  (u : keybase1_UID) (newServerKeys : serverKeyMap).

Lemma fillInDevicesAndServerMap_iter_eq newIndex cryptBundles ePubKey ePrivKey
    tlfCryptKey u keys newServerKeys h c :
  fillInDevicesAndServerMap_iter newIndex cryptBundles ePubKey ePrivKey
    tlfCryptKey u keys newServerKeys (h, c)
  = match ensure_bundle h cryptBundles u with
    | Returns h1 =>
        match fillInDeviceInfo (tkm_index h1 cryptBundles u) u tlfCryptKey
                ePrivKey newIndex keys (h1, c) with
        | Returns ((_, Some err), w) => Returns (Err err, w)
        | Returns ((osm, None), w) =>
            Returns (Ok (if decide (0 < size (default ∅ osm))%nat
                         then <[u := default ∅ osm]> newServerKeys
                         else newServerKeys), w)
        | Panics => Panics
        end
    | Panics => Panics
    end.
Proof.
  unfold fillInDevicesAndServerMap_iter, ensure_bundle.
  unfold bind at 1. simpl.
  destruct (read_tkm h cryptBundles !! u) as [b|] eqn:Hb.
  - unfold bind, ret. simpl.
    destruct (fillInDeviceInfo _ _ _ _ _ _ _) as [[[osm [e|]] w]|]; [done| |done].
    simpl. by case_decide.
  - unfold bind at 1 2. simpl.
    destruct cryptBundles as [lk|]; simpl; [|done].
    destruct (tkms h !! lk) as [mk|]; simpl; [|done].
    unfold bind, ret. simpl.
    destruct (fillInDeviceInfo _ _ _ _ _ _ _) as [[[osm [e|]] w]|]; [done| |done].
    simpl. by case_decide.
Qed.

Lemma ensure_bundle_extends idx h cryptBundles u h1 :
  ensure_bundle h cryptBundles u = Returns h1 →
  extends idx h h1 ∧ is_Some (read_tkm h1 cryptBundles !! u).
Proof.
  unfold ensure_bundle.
  destruct (read_tkm h cryptBundles !! u) as [b|] eqn:Hb.
  { intros [= <-]. split; [apply extends_refl|by rewrite Hb]. }
  destruct cryptBundles as [lk|]; [|done]. simpl in Hb.
  destruct (tkms h !! lk) as [mk|] eqn:Hmk; [|done]. simpl in Hb.
  intros [= <-]. split; [by apply extends_new_bundle|].
  simpl. rewrite lookup_insert_eq. simpl. by rewrite lookup_insert_eq.
Qed.

Lemma fillInDeviceInfo_extends uckb uid tlfCryptKey ePrivKey ePubIndex
    publicKeys h c r h' c' :
  fillInDeviceInfo uckb uid tlfCryptKey ePrivKey ePubIndex publicKeys (h, c)
  = Returns (r, (h', c')) →
  extends ePubIndex h h'.
Proof.
  destruct r as [osm oerr]. intros Hcall.
  apply fillInDeviceInfo_Returns in Hcall
    as [(sm & Hloop & _)|(e & Hloop & _)];
    by apply fillInDeviceInfo_loop_extends in Hloop as [? _].
Qed.

Lemma fillInDevicesAndServerMap_iter_extends newIndex cryptBundles ePubKey
    ePrivKey tlfCryptKey u keys newServerKeys h c r h' c' :
  fillInDevicesAndServerMap_iter newIndex cryptBundles ePubKey ePrivKey
    tlfCryptKey u keys newServerKeys (h, c) = Returns (r, (h', c')) →
  extends newIndex h h'.
Proof.
  rewrite fillInDevicesAndServerMap_iter_eq.
  destruct (ensure_bundle h cryptBundles u) as [h1|] eqn:Hensure; [|done].
  apply (ensure_bundle_extends newIndex) in Hensure as [Hext1 _].
  destruct (fillInDeviceInfo _ _ _ _ _ _ _) as [[[osm oerr] [h2 c2]]|] eqn:Hcall;
    [|done].
  apply fillInDeviceInfo_extends in Hcall.
  destruct oerr; intros [= <- <- <-]; by eapply extends_trans.
Qed.

Lemma fillInDevicesAndServerMap_extends newIndex cryptKeys cryptBundles
    ePubKey ePrivKey tlfCryptKey newServerKeys h c r h' c' :
  fillInDevicesAndServerMap newIndex cryptKeys cryptBundles ePubKey ePrivKey
    tlfCryptKey newServerKeys (h, c) = Returns (r, (h', c')) →
  extends newIndex h h'.
Proof.
  revert newServerKeys h c.
  induction cryptKeys as [|[u keys] rest IH]; intros newServerKeys h c; simpl.
  { intros [= <- <- <-]. apply extends_refl. }
  intros Hcall.
  apply bind_res_Returns in Hcall
    as [(e & Hiter & ->)|(nsk1 & [h1 c1] & Hiter & Hrest)].
  - by apply fillInDevicesAndServerMap_iter_extends in Hiter.
  - apply fillInDevicesAndServerMap_iter_extends in Hiter.
    apply IH in Hrest. by eapply extends_trans.
Qed.

(** A pass that fails returns in the state in which a call of
    [fillInDeviceInfo] has failed with that error. *)
Lemma fillInDevicesAndServerMap_Err newIndex cryptKeys cryptBundles ePubKey
    ePrivKey tlfCryptKey newServerKeys h c e h' c' :
  fillInDevicesAndServerMap newIndex cryptKeys cryptBundles ePubKey ePrivKey
    tlfCryptKey newServerKeys (h, c) = Returns (Err e, (h', c')) →
  ∃ uckb u keys h1 c1,
    (u, keys) ∈ cryptKeys
    ∧ fillInDeviceInfo uckb u tlfCryptKey ePrivKey newIndex keys (h1, c1)
      = Returns ((None, Some e), (h', c')).
Proof.
  revert newServerKeys h c.
  induction cryptKeys as [|[u keys] rest IH]; intros newServerKeys h c; simpl;
    [done|].
  intros Hcall.
  apply bind_res_Returns in Hcall
    as [(e' & Hiter & [= <-])|(nsk1 & [h1 c1] & Hiter & Hrest)].
  - rewrite fillInDevicesAndServerMap_iter_eq in Hiter.
    destruct (ensure_bundle h cryptBundles u) as [h1|]; [|done].
    destruct (fillInDeviceInfo _ _ _ _ _ _ _) as [[[osm oerr] w]|] eqn:Hinfo;
      [|done].
    destruct oerr as [e'|]; [|done]. simplify_eq.
    destruct (fillInDeviceInfo_failure_inv _ _ _ _ _ _ _ _ _ _ _ _ Hinfo)
      as [-> _].
    eexists _, u, keys, h1, c. split; [apply list_elem_of_here|done].
  - apply IH in Hrest as (uckb & u' & keys' & h2 & c2 & Hin & Hinfo).
    exists uckb, u', keys', h2, c2. split; [by apply list_elem_of_further|done].
Qed.

Lemma fillInDevices_eq tkb wKeys rKeys ePubKey ePrivKey tlfCryptKey h c :
  fillInDevices tkb wKeys rKeys ePubKey ePrivKey tlfCryptKey (h, c)
  = match TLFWriterKeyBundle_ptr tkb with
    | Some l =>
        match wkbs h !! l with
        | Some w =>
            let newIndex :=
              Z.of_nat (length (TLFEphemeralPublicKeys_of w ++ [ePubKey])) - 1 in
            match fillInDevicesAndServerMap newIndex wKeys (WKeys w) ePubKey
                    ePrivKey tlfCryptKey ∅
                    (with_ephemeral_key h l w ePubKey, c) with
            | Returns (Ok newServerKeys, (h1, c1)) =>
                match deref_rkb h1 (TLFReaderKeyBundle_ptr tkb) with
                | Returns r =>
                    match fillInDevicesAndServerMap newIndex rKeys (RKeys r)
                            ePubKey ePrivKey tlfCryptKey newServerKeys
                            (h1, c1) with
                    | Returns (Ok newServerKeys', w2) =>
                        Returns ((Some newServerKeys', None), w2)
                    | Returns (Err err, w2) => Returns ((None, Some err), w2)
                    | Panics => Panics
                    end
                | Panics => Panics
                end
            | Returns (Err err, w1) => Returns ((None, Some err), w1)
            | Panics => Panics
            end
        | None => Panics
        end
    | None => Panics
    end.
Proof.
  unfold fillInDevices, with_ephemeral_key.
  unfold bind at 1. unfold load_wkb. simpl.
  destruct (TLFWriterKeyBundle_ptr tkb) as [l|]; simpl; [|done].
  destruct (wkbs h !! l) as [w|] eqn:Hw; simpl; [|done].
  unfold bind at 1. simpl. rewrite Hw.
  unfold bind at 1. simpl. rewrite lookup_insert_eq.
  unfold bind at 1. simpl.
  destruct (fillInDevicesAndServerMap _ _ _ _ _ _ _ _)
    as [[[nsk|e] [h1 c1]]|]; [|done..].
  unfold bind at 1. unfold load_rkb. simpl.
  destruct (deref_rkb h1 _) as [r|]; [|done].
  unfold bind, ret.
  by destruct (fillInDevicesAndServerMap _ _ _ _ _ _ _ _)
    as [[[nsk'|e] w2]|].
Qed.

(** Whatever [fillInDevices] returns, it has appended the ephemeral
    public key to the writer bundle and, from there on, only extended the
    store with records that carry the index of that key. *)
Lemma fillInDevices_extends tkb wKeys rKeys ePubKey ePrivKey tlfCryptKey
    h c r h' c' :
  fillInDevices tkb wKeys rKeys ePubKey ePrivKey tlfCryptKey (h, c)
  = Returns (r, (h', c')) →
  ∃ l w,
    TLFWriterKeyBundle_ptr tkb = Some l ∧ wkbs h !! l = Some w
    ∧ extends (Z.of_nat (length (TLFEphemeralPublicKeys_of w ++ [ePubKey])) - 1)
        (with_ephemeral_key h l w ePubKey) h'.
Proof.
  rewrite fillInDevices_eq.
  destruct (TLFWriterKeyBundle_ptr tkb) as [l|]; [|done].
  destruct (wkbs h !! l) as [w|] eqn:Hw; [|done]. simpl.
  destruct (fillInDevicesAndServerMap _ _ _ _ _ _ _ _)
    as [[[nsk|e] [h1 c1]]|] eqn:Hpass1; [| |done].
  - apply fillInDevicesAndServerMap_extends in Hpass1.
    destruct (deref_rkb h1 _) as [rb|]; [|done].
    destruct (fillInDevicesAndServerMap _ _ _ _ _ _ _ (h1, c1))
      as [[r2 [h2 c2]]|] eqn:Hpass2; [|done].
    apply fillInDevicesAndServerMap_extends in Hpass2.
    intros Hret. exists l, w. split_and!; [done..|].
    destruct r2; simplify_eq; by eapply extends_trans.
  - apply fillInDevicesAndServerMap_extends in Hpass1.
    intros [= <- <- <-]. by exists l, w.
Qed.

End orchestration_facts.

(** ** Records seen through a key map *)

Lemma extends_record_kept idx h h' (tkm : TLFKeyMap) user kid info :
  extends idx h h' →
  read_uckb h (tkm_index h tkm user) !! kid = Some info →
  read_uckb h' (tkm_index h' tkm user) !! kid = Some info.
Proof.
  intros Hext Hrec. unfold tkm_index in *.
  destruct (read_tkm h tkm !! user) as [b|] eqn:Hb; [|done].
  rewrite (lookup_weaken _ _ _ _ Hb (extends_read_tkm _ _ _ tkm Hext)).
  simpl in *. by apply (lookup_weaken _ _ _ _ Hrec), extends_read_uckb with idx.
Qed.

Lemma extends_record_new idx h h' (tkm : TLFKeyMap) user kid info :
  extends idx h h' →
  read_uckb h' (tkm_index h' tkm user) !! kid = Some info →
  read_uckb h (tkm_index h tkm user) !! kid = Some info
  ∨ (read_uckb h (tkm_index h tkm user) !! kid = None
     ∧ EPubKeyIndex info = idx).
Proof.
  intros Hext Hrec. unfold tkm_index in *.
  destruct (read_tkm h' tkm !! user) as [[l'|]|] eqn:Hb'; [|done..].
  simpl in Hrec.
  destruct (uckbs h' !! l') as [m'|] eqn:Hm'; [|done]. simpl in Hrec.
  destruct tkm as [lk|]; [|done]. simpl in Hb'.
  destruct (tkms h' !! lk) as [mk'|] eqn:Hmk'; [|done]. simpl in Hb'.
  destruct (ext_tkm_new _ _ _ Hext _ _ _ _ Hmk' Hb')
    as (mk & Hmk & [Hold|(Hnone & l & [= <-] & Hfresh)]);
    simpl; rewrite Hmk; simpl.
  - rewrite Hold. simpl.
    destruct (ext_rec_new _ _ _ Hext _ _ _ _ Hm' Hrec)
      as [(m & -> & Hkid)|[Hnone Hidx]]; [by left|].
    right. split; [|done].
    destruct (uckbs h !! l') as [m|]; simpl; [by apply Hnone|done].
  - rewrite Hnone. simpl. right. split; [done|].
    destruct (ext_rec_new _ _ _ Hext _ _ _ _ Hm' Hrec)
      as [(m & Hm & _)|[_ Hidx]]; [|done].
    destruct Hfresh. by apply elem_of_dom_2 in Hm.
Qed.

(** What a call of [fillInDevices] that returns, with or without error,
    has done to the bundle: one more ephemeral public key; every record
    still there; every new record with the index of the new key. *)
Lemma fillInDevices_records {C} `{!Crypto C} tkb wKeys rKeys ePubKey ePrivKey
    tlfCryptKey h (c : C) r h' c' :
  fillInDevices tkb wKeys rKeys ePubKey ePrivKey tlfCryptKey (h, c)
  = Returns (r, (h', c')) →
  let idx := Z.of_nat (length (ephemeral_keys h' tkb)) - 1 in
  ephemeral_keys h' tkb = ephemeral_keys h tkb ++ [ePubKey]
  ∧ (∀ l m, uckbs h !! l = Some m → ∃ m', uckbs h' !! l = Some m' ∧ m ⊆ m')
  ∧ (∀ user kid info, writer_record h tkb user kid = Some info →
       writer_record h' tkb user kid = Some info)
  ∧ (∀ user kid info, reader_record h tkb user kid = Some info →
       reader_record h' tkb user kid = Some info)
  ∧ (∀ user kid info, writer_record h' tkb user kid = Some info →
       writer_record h tkb user kid = Some info
       ∨ (writer_record h tkb user kid = None ∧ EPubKeyIndex info = idx))
  ∧ (∀ user kid info, reader_record h' tkb user kid = Some info →
       reader_record h tkb user kid = Some info
       ∨ (reader_record h tkb user kid = None ∧ EPubKeyIndex info = idx)).
Proof.
  intros Hcall.
  apply fillInDevices_extends in Hcall as (l & w & Hl & Hw & Hext).
  assert (ephemeral_keys h tkb = TLFEphemeralPublicKeys_of w) as Hkeys.
  { unfold ephemeral_keys, deref_wkb. by rewrite Hl, Hw. }
  assert (deref_wkb h' (TLFWriterKeyBundle_ptr tkb)
          = Returns (mkTLFWriterKeyBundle (WKeys w) (TLFPublicKey_of w)
                       (TLFEphemeralPublicKeys_of w ++ [ePubKey]))) as Hw'.
  { unfold deref_wkb. rewrite Hl, (ext_wkbs _ _ _ Hext). simpl.
    by rewrite lookup_insert_eq. }
  assert (ephemeral_keys h' tkb = TLFEphemeralPublicKeys_of w ++ [ePubKey])
    as Hkeys'.
  { unfold ephemeral_keys. by rewrite Hw'. }
  simpl. rewrite Hkeys', Hkeys. split_and!.
  - done.
  - exact (ext_rec_kept _ _ _ Hext).
  - intros user kid info. unfold writer_record at 2. rewrite Hw'. simpl.
    unfold writer_record, deref_wkb. rewrite Hl, Hw.
    exact (extends_record_kept _ _ _ _ _ _ _ Hext).
  - intros user kid info. unfold reader_record, deref_rkb.
    rewrite (ext_rkbs _ _ _ Hext). simpl.
    destruct (TLFReaderKeyBundle_ptr tkb) as [lr|]; [|done].
    destruct (rkbs h !! lr) as [rb|]; [|done].
    exact (extends_record_kept _ _ _ _ _ _ _ Hext).
  - intros user kid info. unfold writer_record at 1. rewrite Hw'. simpl.
    intros Hrec. unfold writer_record, deref_wkb. rewrite Hl, Hw.
    exact (extends_record_new _ _ _ _ _ _ _ Hext Hrec).
  - intros user kid info. unfold reader_record, deref_rkb.
    rewrite (ext_rkbs _ _ _ Hext). simpl.
    destruct (TLFReaderKeyBundle_ptr tkb) as [lr|]; [|done].
    destruct (rkbs h !! lr) as [rb|]; [|done].
    intros Hrec. exact (extends_record_new _ _ _ _ _ _ _ Hext Hrec).
Qed.

(** C1: when every stored index of the bundle is valid, it is so after
    [fillInDevices]; the call appends the ephemeral public key, and every
    record that the bundle has gained, writer or reader side, carries the
    index of that key, the new length minus one. *)
Theorem fillInDevices_preserves_indices_valid {C} `{!Crypto C}
    (tkb : TLFKeyBundle)
    (wKeys rKeys : list (keybase1_UID * list CryptPublicKey))
    (ePubKey : TLFEphemeralPublicKey) (ePrivKey : TLFEphemeralPrivateKey)
    (tlfCryptKey : TLFCryptKey) (h : store) (c : C)
    (r : option serverKeyMap * option error) (h' : store) (c' : C) :
  indices_valid h tkb →
  fillInDevices tkb wKeys rKeys ePubKey ePrivKey tlfCryptKey (h, c)
  = Returns (r, (h', c')) →
  ephemeral_keys h' tkb = ephemeral_keys h tkb ++ [ePubKey]
  ∧ indices_valid h' tkb
  ∧ ∀ user kid info,
      (writer_record h tkb user kid = None
       ∧ writer_record h' tkb user kid = Some info)
      ∨ (reader_record h tkb user kid = None
         ∧ reader_record h' tkb user kid = Some info) →
      EPubKeyIndex info = Z.of_nat (length (ephemeral_keys h' tkb)) - 1.
Proof.
  intros Hvalid Hcall.
  destruct (fillInDevices_records _ _ _ _ _ _ _ _ _ _ _ Hcall)
    as (Hkeys & _ & _ & _ & Hwriter & Hreader).
  split_and!; [done| |].
  - intros user kid info Hrec. unfold valid_index.
    assert (writer_record h tkb user kid = Some info
            ∨ reader_record h tkb user kid = Some info
            ∨ EPubKeyIndex info = Z.of_nat (length (ephemeral_keys h' tkb)) - 1)
      as [Hold|[Hold|Hidx]].
    { destruct Hrec as [Hrec|Hrec];
        [apply Hwriter in Hrec|apply Hreader in Hrec]; naive_solver. }
    + specialize (Hvalid _ _ _ (or_introl Hold)).
      unfold valid_index in Hvalid. rewrite Hkeys, length_app. lia.
    + specialize (Hvalid _ _ _ (or_intror Hold)).
      unfold valid_index in Hvalid. rewrite Hkeys, length_app. lia.
    + rewrite Hidx, Hkeys, length_app. simpl. lia.
  - intros user kid info [[Hnone Hrec]|[Hnone Hrec]];
      [apply Hwriter in Hrec|apply Hreader in Hrec]; naive_solver.
Qed.

Example NewTLFKeyBundle_empty_store :
  NewTLFKeyBundle (mkTLFPublicKey []) empty_store
  = Returns (bundle_1, new_bundle_store).
Proof. vm_compute. reflexivity. Qed.

(** A second call on the bundle of [writer_and_reader], for a new writer. *)
Lemma fillInDevices_preserves_indices_valid_witness :
  indices_valid (store_of writer_and_reader) (bundle_of writer_and_reader)
  ∧ ∃ r h' c',
      fillInDevices (bundle_of writer_and_reader) [("u3", [dev "d3"])] []
        (mkEPubKey [x05]) (mkEPrivKey [x06]) (mkTLFCryptKey [x03])
        (store_of writer_and_reader, (100%nat, 8%nat))
      = Returns (r, (h', c'))
      ∧ indices_valid h' (bundle_of writer_and_reader)
      ∧ ephemeral_keys h' (bundle_of writer_and_reader)
        = [mkEPubKey [x01]; mkEPubKey [x05]].
Proof.
  assert (indices_valid (store_of writer_and_reader)
            (bundle_of writer_and_reader)) as Hvalid.
  { apply bundle_indices_valid_sound.
    apply (bool_decide_unpack _). vm_compute. reflexivity. }
  split; [exact Hvalid|].
  eexists _, _, _.
  assert (fillInDevices (bundle_of writer_and_reader) [("u3", [dev "d3"])] []
            (mkEPubKey [x05]) (mkEPrivKey [x06]) (mkTLFCryptKey [x03])
            (store_of writer_and_reader, (100%nat, 8%nat))
          = Returns (_, (_, _))) as Hcall by (vm_compute; reflexivity).
  split; [exact Hcall|].
  destruct (fillInDevices_preserves_indices_valid _ _ _ _ _ _ _ _ _ _ _
              Hvalid Hcall) as (Hkeys & Hvalid' & _).
  split; [exact Hvalid'|]. rewrite Hkeys. vm_compute. reflexivity.
Defined.

(** ** The server key map *)

Section server_key_map.
Context {C : Type} `{!Crypto C}.

Implicit Types (h : store) (c : C) (cryptBundles : TLFKeyMap)
  (u : keybase1_UID) (newServerKeys : serverKeyMap).

Lemma ensure_bundle_separated h cryptBundles u h1 :
  key_map_separated h cryptBundles →
  ensure_bundle h cryptBundles u = Returns h1 →
  key_map_separated h1 cryptBundles
  ∧ is_Some (read_tkm h1 cryptBundles !! u)
  ∧ (∀ u2, u2 ≠ u →
       read_tkm h1 cryptBundles !! u2 = read_tkm h cryptBundles !! u2)
  ∧ (∀ u2 kid, key_map_record h1 cryptBundles u2 kid
               = key_map_record h cryptBundles u2 kid)
  ∧ (∀ tkm2, tkm2 ≠ cryptBundles → read_tkm h1 tkm2 = read_tkm h tkm2)
  ∧ (∀ l, l ∈ dom (uckbs h) → uckbs h1 !! l = uckbs h !! l).
Proof.
  intros Hsep. unfold ensure_bundle.
  destruct (read_tkm h cryptBundles !! u) as [b|] eqn:Hb.
  { intros [= <-]. split_and!; try done; by rewrite Hb. }
  destruct cryptBundles as [lk|]; [|done]. simpl in Hb.
  destruct (tkms h !! lk) as [mk|] eqn:Hmk; [|done]. simpl in Hb.
  intros [= <-].
  pose proof (is_fresh (dom (uckbs h))) as Hfresh.
  set (lf := fresh (dom (uckbs h))) in *.
  assert (∀ u2, read_tkm
                  (set_tkms <[lk := <[u := Some lf]> mk]>
                     (set_uckbs <[lf := ∅]> h)) (Some lk) !! u2
                = if decide (u = u2) then Some (Some lf) else mk !! u2) as Hread.
  { intros u2. simpl. rewrite lookup_insert_eq. simpl.
    case_decide as Heq; [subst; by rewrite lookup_insert_eq|].
    by rewrite lookup_insert_ne. }
  assert (∀ u2 l, mk !! u2 = Some (Some l) → l ≠ lf) as Hold.
  { intros u2 l Hu2 ->. apply Hfresh.
    apply (Hsep u2 lf). simpl. by rewrite Hmk. }
  split_and!.
  - intros u2 l. rewrite Hread. case_decide as Heq.
    + intros [= <-]. split.
      * simpl. rewrite dom_insert_L. set_solver.
      * intros u3. rewrite Hread. case_decide; [congruence|].
        intros Hu3. by destruct (Hold _ _ Hu3).
    + intros Hu2. split.
      * simpl. rewrite dom_insert_L.
        destruct (Hsep u2 l) as [Hlive _]; [simpl; by rewrite Hmk|]. set_solver.
      * intros u3. rewrite Hread. case_decide as Heq3.
        -- intros [= ->]. by destruct (Hold _ _ Hu2).
        -- intros Hu3. destruct (Hsep u2 l) as [_ Hinj]; [simpl; by rewrite Hmk|].
           apply Hinj. simpl. by rewrite Hmk.
  - rewrite Hread. by rewrite decide_True.
  - intros u2 Hne. rewrite Hread. rewrite decide_False by done.
    simpl. by rewrite Hmk.
  - intros u2 kid. unfold key_map_record, tkm_index. rewrite Hread.
    case_decide as Heq.
    + subst u2. simpl. rewrite Hmk. simpl. rewrite Hb. simpl.
      by rewrite lookup_insert_eq.
    + simpl. rewrite Hmk. simpl.
      destruct (mk !! u2) as [[l|]|] eqn:Hu2; simpl; [|done..].
      rewrite lookup_insert_ne; [done|]. intros <-. by destruct (Hold _ _ Hu2).
  - intros [lk2|] Hne; simpl; [|done].
    rewrite lookup_insert_ne; [done|congruence].
  - intros l Hl. simpl. rewrite lookup_insert_ne; [done|].
    intros <-. by apply Hfresh.
Qed.

Lemma fillInDeviceInfo_frame uckb uid tlfCryptKey ePrivKey ePubIndex
    publicKeys h c r h' c' :
  fillInDeviceInfo uckb uid tlfCryptKey ePrivKey ePubIndex publicKeys (h, c)
  = Returns (r, (h', c')) →
  tkms h' = tkms h ∧ dom (uckbs h') = dom (uckbs h)
  ∧ (∀ l, uckb ≠ Some l → uckbs h' !! l = uckbs h !! l).
Proof.
  destruct r as [osm oerr]. intros Hcall.
  apply fillInDeviceInfo_Returns in Hcall
    as [(sm & Hloop & _)|(e & Hloop & _)];
    by apply fillInDeviceInfo_loop_extends in Hloop as (_ & ? & ? & ?).
Qed.

Lemma read_tkm_ext h h' (tkm : TLFKeyMap) :
  tkms h' = tkms h → read_tkm h' tkm = read_tkm h tkm.
Proof. intros Heq. destruct tkm; simpl; by rewrite ?Heq. Qed.

Lemma extends_read_tkm_new idx h h' (tkm : TLFKeyMap) u l :
  extends idx h h' →
  read_tkm h' tkm !! u = Some (Some l) →
  read_tkm h tkm !! u = Some (Some l)
  ∨ (read_tkm h tkm !! u = None ∧ l ∉ dom (uckbs h)).
Proof.
  intros Hext Hu. destruct tkm as [lk|]; [|done]. simpl in *.
  destruct (tkms h' !! lk) as [mk'|] eqn:Hmk'; [|done]. simpl in Hu.
  destruct (ext_tkm_new _ _ _ Hext _ _ _ _ Hmk' Hu)
    as (mk & -> & [Hold|(Hnone & l' & [= <-] & Hfresh)]); simpl; eauto.
Qed.

(** One pass over a key map without sharing.  The per-user bundles of the
    other users and the other maps of the store are as they were; every
    listed user has a per-user bundle with a record for each listed device;
    the entry of a user in [newServerKeys] is replaced exactly when the
    user gained a record, and then by the server halves of the records that
    the user gained. *)
Lemma fillInDevicesAndServerMap_server_keys newIndex cryptKeys cryptBundles
    ePubKey ePrivKey tlfCryptKey newServerKeys h c newServerKeys' h' c' :
  NoDup cryptKeys.*1 →
  key_map_separated h cryptBundles →
  fillInDevicesAndServerMap newIndex cryptKeys cryptBundles ePubKey ePrivKey
    tlfCryptKey newServerKeys (h, c) = Returns (Ok newServerKeys', (h', c')) →
  key_map_separated h' cryptBundles
  ∧ (∀ tkm2, tkm2 ≠ cryptBundles → read_tkm h' tkm2 = read_tkm h tkm2)
  ∧ (∀ l, l ∈ dom (uckbs h) →
       (∀ u, read_tkm h cryptBundles !! u ≠ Some (Some l)) →
       uckbs h' !! l = uckbs h !! l)
  ∧ (∀ u keys, (u, keys) ∈ cryptKeys →
       is_Some (read_tkm h' cryptBundles !! u)
       ∧ ∀ k, k ∈ keys → is_Some (key_map_record h' cryptBundles u (KID k)))
  ∧ (∀ u, u ∉ cryptKeys.*1 →
       newServerKeys' !! u = newServerKeys !! u
       ∧ read_tkm h' cryptBundles !! u = read_tkm h cryptBundles !! u
       ∧ ∀ kid, key_map_record h' cryptBundles u kid
                = key_map_record h cryptBundles u kid)
  ∧ (∀ u,
       ((∀ kid, key_map_record h cryptBundles u kid = None →
                key_map_record h' cryptBundles u kid = None)
        ∧ newServerKeys' !! u = newServerKeys !! u)
       ∨ (u ∈ cryptKeys.*1
          ∧ ∃ serverMap,
              newServerKeys' !! u = Some serverMap ∧ serverMap ≠ ∅
              ∧ (∀ kid, is_Some (serverMap !! kid)
                        ↔ key_map_record h cryptBundles u kid = None
                          ∧ is_Some (key_map_record h' cryptBundles u kid))
              ∧ (∀ kid serverHalf, serverMap !! kid = Some serverHalf →
                   ∃ info,
                     key_map_record h' cryptBundles u kid = Some info
                     ∧ made_with u tlfCryptKey ePrivKey newIndex kid
                         serverHalf info))).
Proof.
  revert newServerKeys h c.
  induction cryptKeys as [|[u1 keys1] rest IH]; intros newServerKeys h c Hnodup
    Hsep; simpl.
  { intros [= <- <- <-]. split_and!; try done.
    - by intros u keys ?%elem_of_nil.
    - intros u. by left. }
  intros Hcall. simpl in Hnodup. apply NoDup_cons in Hnodup as [Hu1 Hnodup].
  apply bind_res_Returns in Hcall
    as [(e & _ & ?)|(nsk1 & [h2 c2] & Hiter & Hrest)]; [done|].
  rewrite fillInDevicesAndServerMap_iter_eq in Hiter.
  destruct (ensure_bundle h cryptBundles u1) as [h1|] eqn:Hensure; [|done].
  pose proof (ensure_bundle_extends newIndex _ _ _ _ Hensure) as [Hext1 _].
  destruct (ensure_bundle_separated _ _ _ _ Hsep Hensure)
    as (Hsep1 & Hsome1 & Hother1 & Hrec1 & Hframe1 & Hlive1).
  destruct (fillInDeviceInfo _ _ _ _ _ _ _) as [[[osm oerr] w]|] eqn:Hinfo;
    [|done].
  destruct oerr as [e|]; [done|]. simplify_eq.
  destruct (fillInDeviceInfo_frame _ _ _ _ _ _ _ _ _ _ _ Hinfo)
    as (Htkms2 & Hdom2 & Hframe2).
  pose proof (fillInDeviceInfo_extends _ _ _ _ _ _ _ _ _ _ _ Hinfo) as Hext2.
  assert (∃ sm, osm = Some sm) as [sm ->].
  { apply fillInDeviceInfo_Returns in Hinfo as [(sm & _ & -> & _)|(? & _ & _ & ?)];
      [eauto|done]. }
  destruct (fillInDeviceInfo_server_map _ _ _ _ _ _ _ _ _ _ _ Hinfo)
    as (Hsmdom & Hsmmade & Hsmall).
  simpl in Hrest.
  set (b1 := tkm_index h1 cryptBundles u1) in *.
  pose proof (fillInDevicesAndServerMap_extends _ _ _ _ _ _ _ _ _ _ _ _ Hrest)
    as Hext'.
  assert (∀ tkm2, read_tkm h2 tkm2 = read_tkm h1 tkm2) as Hread2
    by (intros; by apply read_tkm_ext).
  assert (key_map_separated h2 cryptBundles) as Hsep2.
  { intros u l. rewrite Hread2, Hdom2. intros Hu.
    destruct (Hsep1 _ _ Hu) as [Hlive Hinj]. split; [done|].
    apply Hinj. }
  assert (∀ u kid, u ≠ u1 →
            key_map_record h2 cryptBundles u kid
            = key_map_record h cryptBundles u kid) as Hrec2.
  { intros u kid Hne. rewrite <- Hrec1. unfold key_map_record, tkm_index.
    rewrite Hread2.
    destruct (read_tkm h1 cryptBundles !! u) as [[l|]|] eqn:Hu; simpl; [|done..].
    rewrite Hframe2; [done|]. unfold b1, tkm_index. intros Hb1.
    destruct (read_tkm h1 cryptBundles !! u1) as [b|] eqn:Hu1'; simpl in Hb1;
      [|done].
    subst b. destruct (Hsep1 _ _ Hu) as [_ Hinj]. by apply Hinj in Hu1'. }
  assert (∀ kid, key_map_record h2 cryptBundles u1 kid = read_uckb h2 b1 !! kid)
    as Hrec2u1.
  { intros kid. unfold key_map_record, b1, tkm_index. by rewrite Hread2. }
  assert (∀ kid, key_map_record h cryptBundles u1 kid = read_uckb h1 b1 !! kid)
    as Hrec0u1.
  { intros kid. by rewrite <- Hrec1. }
  destruct (IH _ _ _ Hnodup Hsep2 Hrest) as (Hsep' & HF1 & HF2 & HB & HN & HR).
  split_and!.
  - done.
  - intros tkm2 Hne. by rewrite HF1, Hread2, Hframe1.
  - intros l Hl Hunref.
    assert (∀ u, read_tkm h1 cryptBundles !! u ≠ Some (Some l)) as Hunref1.
    { intros u Hu.
      destruct (extends_read_tkm_new _ _ _ _ _ _ Hext1 Hu) as [Hold|[_ Hfresh]];
        [by apply (Hunref u)|done]. }
    rewrite HF2.
    + rewrite Hframe2; [by apply Hlive1|]. unfold b1, tkm_index. intros Hb1.
      destruct (read_tkm h1 cryptBundles !! u1) as [b|] eqn:Hu1'; simpl in Hb1;
        [|done].
      subst b. by apply (Hunref1 u1).
    + rewrite Hdom2. by apply (ext_uckbs_dom _ _ _ Hext1).
    + intros u. rewrite Hread2. apply Hunref1.
  - intros u keys [[= -> ->]|Hin]%elem_of_cons; [|by apply HB].
    split.
    + destruct Hsome1 as [b Hb]. exists b.
      apply (lookup_weaken _ _ _ _ Hb).
      etrans; [|by eapply extends_read_tkm]. by rewrite Hread2.
    + intros k Hk. destruct (Hsmall _ Hk) as [info Hinfo'].
      exists info. apply (extends_record_kept _ _ _ _ _ _ _ Hext').
      fold (key_map_record h2 cryptBundles u1 (KID k)). by rewrite Hrec2u1.
  - intros u Hu. apply not_elem_of_cons in Hu as [Hne Hu].
    destruct (HN _ Hu) as (Hnsk & Htkm & Hrec). split_and!.
    + rewrite Hnsk. case_decide; [by rewrite lookup_insert_ne|done].
    + by rewrite Htkm, Hread2, Hother1.
    + intros kid. by rewrite Hrec, Hrec2.
  - intros u. destruct (decide (u = u1)) as [->|Hne].
    + destruct (HN _ Hu1) as (Hnsk & _ & Hrec).
      case_decide as Hsize.
      * right. split; [apply list_elem_of_here|]. exists sm.
        split_and!.
        -- by rewrite Hnsk, lookup_insert_eq.
        -- intros ->. rewrite map_size_empty in Hsize. lia.
        -- intros kid. by rewrite Hrec, Hrec2u1, Hrec0u1.
        -- intros kid sh Hsh.
           destruct (Hsmmade _ _ Hsh) as (info & k & c3 & c4 & ? & ? & ? & ?).
           exists info. split; [by rewrite Hrec, Hrec2u1|].
           by exists k, c3, c4.
      * left. split; [|done].
        assert (sm = ∅) as -> by (apply map_size_empty_iff; lia).
        intros kid Hnone. rewrite Hrec, Hrec2u1.
        rewrite Hrec0u1 in Hnone.
        destruct (read_uckb h2 b1 !! kid) as [info|] eqn:Hkid; [|done].
        destruct (proj2 (Hsmdom kid)) as [? Hempty]; [eauto|].
        by rewrite lookup_empty in Hempty.
    + assert (nsk1_u : (if decide (0 < size (default ∅ (Some sm)))%nat
                        then <[u1 := default ∅ (Some sm)]> newServerKeys
                        else newServerKeys) !! u = newServerKeys !! u).
      { destruct (decide (0 < size (default ∅ (Some sm)))%nat);
          [by rewrite lookup_insert_ne|done]. }
      destruct (HR u) as [[Hnonew Hnsk]|(Hin & sm' & Hnsk & Hne' & Hdom' & Hmade')].
      * left. split; [|by rewrite Hnsk].
        intros kid. rewrite <- Hrec2 by done. apply Hnonew.
      * right. split; [by apply list_elem_of_further|]. exists sm'.
        split_and!; [done|done| |done].
        intros kid. by rewrite Hdom', Hrec2.
Qed.

(** A pass over one key map leaves the records of another key map alone
    when the two maps share nothing. *)
Lemma fillInDevicesAndServerMap_other_key_map newIndex cryptKeys cryptBundles
    ePubKey ePrivKey tlfCryptKey newServerKeys h c newServerKeys' h' c'
    (other : TLFKeyMap) :
  NoDup cryptKeys.*1 →
  key_map_separated h cryptBundles →
  key_map_separated h other →
  other ≠ cryptBundles →
  (∀ u1 u2 l, read_tkm h cryptBundles !! u1 = Some (Some l) →
              read_tkm h other !! u2 ≠ Some (Some l)) →
  fillInDevicesAndServerMap newIndex cryptKeys cryptBundles ePubKey ePrivKey
    tlfCryptKey newServerKeys (h, c) = Returns (Ok newServerKeys', (h', c')) →
  read_tkm h' other = read_tkm h other
  ∧ (∀ u kid, key_map_record h' other u kid = key_map_record h other u kid)
  ∧ key_map_separated h' other
  ∧ (∀ u1 u2 l, read_tkm h' cryptBundles !! u1 = Some (Some l) →
                read_tkm h' other !! u2 ≠ Some (Some l)).
Proof.
  intros Hnodup Hsep Hsepo Hne Hdisj Hcall.
  pose proof (fillInDevicesAndServerMap_extends _ _ _ _ _ _ _ _ _ _ _ _ Hcall)
    as Hext.
  destruct (fillInDevicesAndServerMap_server_keys _ _ _ _ _ _ _ _ _ _ _ _
              Hnodup Hsep Hcall) as (_ & HF1 & HF2 & _).
  assert (read_tkm h' other = read_tkm h other) as Hread by (by apply HF1).
  split_and!.
  - done.
  - intros u kid. unfold key_map_record, tkm_index. rewrite Hread.
    destruct (read_tkm h other !! u) as [[l|]|] eqn:Hu; simpl; [|done..].
    rewrite HF2; [done|by apply (Hsepo u l)|].
    intros u1 Hu1. by apply (Hdisj _ _ _ Hu1 Hu).
  - intros u l. rewrite Hread. intros Hu.
    destruct (Hsepo _ _ Hu) as [Hlive Hinj]. split; [|done].
    by apply (ext_uckbs_dom _ _ _ Hext).
  - intros u1 u2 l Hu1. rewrite Hread. intros Hu2.
    destruct (extends_read_tkm_new _ _ _ _ _ _ Hext Hu1) as [Hold|[_ Hfresh]].
    + by apply (Hdisj _ _ _ Hold Hu2).
    + by destruct (Hsepo _ _ Hu2).
Qed.

End server_key_map.

(** What the two passes of a successful [fillInDevices] call on a bundle
    without sharing do, in terms of the two key maps. *)
Lemma fillInDevices_passes {C} `{!Crypto C} tkb wKeys rKeys ePubKey ePrivKey
    tlfCryptKey h (c : C) newServerKeys h' c' :
  separated h tkb → NoDup wKeys.*1 → NoDup rKeys.*1 →
  fillInDevices tkb wKeys rKeys ePubKey ePrivKey tlfCryptKey (h, c)
  = Returns ((Some newServerKeys, None), (h', c')) →
  ∃ l w r h1 c1 serverKeys1,
    let newIndex := Z.of_nat (length (ephemeral_keys h' tkb)) - 1 in
    TLFWriterKeyBundle_ptr tkb = Some l
    ∧ (∀ u kid, writer_record h tkb u kid = key_map_record h (WKeys w) u kid)
    ∧ (∀ u kid, writer_record h' tkb u kid = key_map_record h1 (WKeys w) u kid)
    ∧ (∀ u kid, reader_record h tkb u kid = key_map_record h1 (RKeys r) u kid)
    ∧ (∀ u kid, reader_record h' tkb u kid = key_map_record h' (RKeys r) u kid)
    ∧ (∀ u, has_writer_bundle h' tkb u
            ↔ is_Some (read_tkm h1 (WKeys w) !! u))
    ∧ (∀ u, has_reader_bundle h' tkb u
            ↔ is_Some (read_tkm h' (RKeys r) !! u))
    ∧ key_map_separated h (WKeys w)
    ∧ key_map_separated h1 (RKeys r)
    ∧ fillInDevicesAndServerMap newIndex wKeys (WKeys w) ePubKey ePrivKey
        tlfCryptKey ∅ (with_ephemeral_key h l w ePubKey, c)
      = Returns (Ok serverKeys1, (h1, c1))
    ∧ fillInDevicesAndServerMap newIndex rKeys (RKeys r) ePubKey ePrivKey
        tlfCryptKey serverKeys1 (h1, c1)
      = Returns (Ok newServerKeys, (h', c')).
Proof.
  intros (w & r & Hw & Hr & Hne & HsepW & HsepR & Hdisj) Hndw Hndr Hcall.
  pose proof (fillInDevices_records _ _ _ _ _ _ _ _ _ _ _ Hcall)
    as (Hkeys & _).
  pose proof (fillInDevices_extends _ _ _ _ _ _ _ _ _ _ _ Hcall)
    as (l' & w' & Hl' & Hw' & Hext).
  rewrite fillInDevices_eq in Hcall.
  assert (TLFWriterKeyBundle_ptr tkb = Some l' ∧ w' = w) as [Hl ->].
  { unfold deref_wkb in Hw. rewrite Hl', Hw' in Hw. by simplify_eq. }
  rewrite Hl, Hw' in Hcall. simpl in Hcall.
  assert (Z.of_nat (length (ephemeral_keys h' tkb)) - 1
          = Z.of_nat (length (TLFEphemeralPublicKeys_of w ++ [ePubKey])) - 1)
    as Hidx.
  { rewrite Hkeys. unfold ephemeral_keys. by rewrite Hw. }
  set (h0 := with_ephemeral_key h l' w ePubKey) in *.
  destruct (fillInDevicesAndServerMap _ wKeys _ _ _ _ _ _)
    as [[[nsk1|e1] [h1 c1]]|] eqn:Hpass1; [|done..].
  destruct (deref_rkb h1 (TLFReaderKeyBundle_ptr tkb)) as [r1|] eqn:Hr1; [|done].
  destruct (fillInDevicesAndServerMap _ rKeys _ _ _ _ _ _)
    as [[[nsk2|e2] [h2 c2]]|] eqn:Hpass2; [|done..].
  injection Hcall as -> -> ->.
  pose proof (fillInDevicesAndServerMap_extends _ _ _ _ _ _ _ _ _ _ _ _ Hpass1)
    as Hext1.
  pose proof (fillInDevicesAndServerMap_extends _ _ _ _ _ _ _ _ _ _ _ _ Hpass2)
    as Hext2.
  assert (r1 = r) as ->.
  { unfold deref_rkb in Hr, Hr1. rewrite (ext_rkbs _ _ _ Hext1) in Hr1.
    simpl in Hr1. destruct (TLFReaderKeyBundle_ptr tkb); [|done].
    destruct (rkbs h !! _); by simplify_eq. }
  assert (key_map_separated h0 (WKeys w)) as HsepW0 by exact HsepW.
  assert (key_map_separated h0 (RKeys r)) as HsepR0 by exact HsepR.
  destruct (fillInDevicesAndServerMap_server_keys _ _ _ _ _ _ _ _ _ _ _ _
              Hndw HsepW0 Hpass1) as (HsepW1 & _).
  destruct (fillInDevicesAndServerMap_other_key_map _ _ _ _ _ _ _ _ _ _ _ _
              (RKeys r) Hndw HsepW0 HsepR0 (not_eq_sym Hne) Hdisj Hpass1)
    as (HreadR1 & HrecR1 & HsepR1 & Hdisj1).
  destruct (fillInDevicesAndServerMap_other_key_map _ _ _ _ _ _ _ _ _ _ _ _
              (WKeys w) Hndr HsepR1 HsepW1 Hne
              (λ u1 u2 l H1 H2, Hdisj1 u2 u1 l H2 H1) Hpass2)
    as (HreadW2 & HrecW2 & _ & _).
  assert (deref_wkb h' (TLFWriterKeyBundle_ptr tkb)
          = Returns (mkTLFWriterKeyBundle (WKeys w) (TLFPublicKey_of w)
                       (TLFEphemeralPublicKeys_of w ++ [ePubKey]))) as Hw2.
  { unfold deref_wkb. rewrite Hl, (ext_wkbs _ _ _ Hext). simpl.
    by rewrite lookup_insert_eq. }
  assert (deref_rkb h' (TLFReaderKeyBundle_ptr tkb) = Returns r) as Hr2.
  { unfold deref_rkb in *. by rewrite (ext_rkbs _ _ _ Hext2). }
  exists l', w, r, h1, c1, nsk1. simpl. rewrite Hidx.
  split_and!; try done.
  - intros u kid. unfold writer_record. by rewrite Hw.
  - intros u kid. unfold writer_record. rewrite Hw2. simpl. apply HrecW2.
  - intros u kid. unfold reader_record. rewrite Hr. by rewrite HrecR1.
  - intros u kid. unfold reader_record. by rewrite Hr2.
  - intros u. unfold has_writer_bundle. rewrite Hw2. rewrite <- HreadW2.
    split; [by intros (? & [= <-] & ?)|eauto].
  - intros u. unfold has_reader_bundle. rewrite Hr2.
    split; [by intros (? & [= <-] & ?)|eauto].
Qed.

(** C3, amended: a successful [fillInDevices] call on a bundle without
    sharing appends the ephemeral public key once, and every record it
    adds carries the index of that key; every listed user has a per-user
    bundle with a record for each listed device; the returned map has an
    entry for exactly the users that gained a record, each entry is not
    empty and holds server halves of records that the user gained in the
    call, and it holds all of them when the user is listed in one of the
    two target maps only. *)
Theorem fillInDevices_server_key_map {C} `{!Crypto C} (tkb : TLFKeyBundle)
    (wKeys rKeys : list (keybase1_UID * list CryptPublicKey))
    (ePubKey : TLFEphemeralPublicKey) (ePrivKey : TLFEphemeralPrivateKey)
    (tlfCryptKey : TLFCryptKey) (h : store) (c : C)
    (newServerKeys : serverKeyMap) (h' : store) (c' : C) :
  separated h tkb → NoDup wKeys.*1 → NoDup rKeys.*1 →
  fillInDevices tkb wKeys rKeys ePubKey ePrivKey tlfCryptKey (h, c)
  = Returns ((Some newServerKeys, None), (h', c')) →
  let newIndex := Z.of_nat (length (ephemeral_keys h' tkb)) - 1 in
  ephemeral_keys h' tkb = ephemeral_keys h tkb ++ [ePubKey]
  ∧ (∀ u kid info,
       (new_writer_device h h' tkb u kid
        ∧ writer_record h' tkb u kid = Some info)
       ∨ (new_reader_device h h' tkb u kid
          ∧ reader_record h' tkb u kid = Some info) →
       EPubKeyIndex info = newIndex)
  ∧ (∀ u keys, (u, keys) ∈ wKeys →
       has_writer_bundle h' tkb u
       ∧ ∀ k, k ∈ keys → is_Some (writer_record h' tkb u (KID k)))
  ∧ (∀ u keys, (u, keys) ∈ rKeys →
       has_reader_bundle h' tkb u
       ∧ ∀ k, k ∈ keys → is_Some (reader_record h' tkb u (KID k)))
  ∧ (∀ u, is_Some (newServerKeys !! u)
          ↔ ∃ kid, new_writer_device h h' tkb u kid
                   ∨ new_reader_device h h' tkb u kid)
  ∧ (∀ u serverMap, newServerKeys !! u = Some serverMap →
       serverMap ≠ ∅
       ∧ (∀ kid serverHalf, serverMap !! kid = Some serverHalf →
            (new_writer_device h h' tkb u kid
             ∧ ∃ info, writer_record h' tkb u kid = Some info
                       ∧ made_with u tlfCryptKey ePrivKey newIndex kid
                           serverHalf info)
            ∨ (new_reader_device h h' tkb u kid
               ∧ ∃ info, reader_record h' tkb u kid = Some info
                         ∧ made_with u tlfCryptKey ePrivKey newIndex kid
                             serverHalf info))
       ∧ (u ∉ wKeys.*1 ∨ u ∉ rKeys.*1 →
          ∀ kid, new_writer_device h h' tkb u kid
                 ∨ new_reader_device h h' tkb u kid →
                 is_Some (serverMap !! kid))).
Proof.
  intros Hsep Hndw Hndr Hcall.
  destruct (fillInDevices_records _ _ _ _ _ _ _ _ _ _ _ Hcall)
    as (Hkeys & _ & _ & _ & Hwnew & Hrnew).
  destruct (fillInDevices_passes _ _ _ _ _ _ _ _ _ _ _ Hsep Hndw Hndr Hcall)
    as (l & w & r & h1 & c1 & nsk1 & _ & Hwr & Hwr' & Hrr & Hrr' & Hhasw
        & Hhasr & HsepW & HsepR1 & Hpass1 & Hpass2).
  simpl in *.
  set (newIndex := Z.of_nat (length (ephemeral_keys h' tkb)) - 1) in *.
  set (h0 := with_ephemeral_key h l w ePubKey) in *.
  assert (key_map_separated h0 (WKeys w)) as HsepW0 by exact HsepW.
  destruct (fillInDevicesAndServerMap_server_keys _ _ _ _ _ _ _ _ _ _ _ _
              Hndw HsepW0 Hpass1) as (_ & _ & _ & HBw & HNw & HRw).
  destruct (fillInDevicesAndServerMap_server_keys _ _ _ _ _ _ _ _ _ _ _ _
              Hndr HsepR1 Hpass2) as (_ & _ & _ & HBr & HNr & HRr).
  assert (∀ u kid, key_map_record h0 (WKeys w) u kid
                   = key_map_record h (WKeys w) u kid) as Hh0 by done.
  assert (∀ u kid, new_writer_device h h' tkb u kid
            ↔ key_map_record h0 (WKeys w) u kid = None
              ∧ is_Some (key_map_record h1 (WKeys w) u kid)) as Hnw.
  { intros u kid. unfold new_writer_device. by rewrite Hwr, Hwr', Hh0. }
  assert (∀ u kid, new_reader_device h h' tkb u kid
            ↔ key_map_record h1 (RKeys r) u kid = None
              ∧ is_Some (key_map_record h' (RKeys r) u kid)) as Hnr.
  { intros u kid. unfold new_reader_device. by rewrite Hrr, Hrr'. }
  split_and!.
  - done.
  - intros u kid info [[[Hnone _] Hrec]|[[Hnone _] Hrec]].
    + destruct (Hwnew _ _ _ Hrec) as [Hold|[_ Hidx]]; [congruence|done].
    + destruct (Hrnew _ _ _ Hrec) as [Hold|[_ Hidx]]; [congruence|done].
  - intros u keys Hin. destruct (HBw _ _ Hin) as [Hbundle Hrecs].
    split; [by apply Hhasw|]. intros k Hk. rewrite Hwr'. by apply Hrecs.
  - intros u keys Hin. destruct (HBr _ _ Hin) as [Hbundle Hrecs].
    split; [by apply Hhasr|]. intros k Hk. rewrite Hrr'. by apply Hrecs.
  - intros u. split.
    + intros Hsome.
      destruct (HRr u) as [[_ Hsame]|(_ & sm & Hsm & Hne & Hdom & _)].
      * rewrite Hsame in Hsome.
        destruct (HRw u) as [[_ Hsame']|(_ & sm & Hsm & Hne & Hdom & _)].
        { rewrite Hsame', lookup_empty in Hsome. by destruct Hsome. }
        destruct (map_choose _ Hne) as (kid & sh & Hkid).
        exists kid. left. apply Hnw, Hdom. by rewrite Hkid.
      * destruct (map_choose _ Hne) as (kid & sh & Hkid).
        exists kid. right. apply Hnr, Hdom. by rewrite Hkid.
    + intros (kid & [Hnew|Hnew]).
      * apply Hnw in Hnew as [Hnone Hrec].
        destruct (HRr u) as [[_ Hsame]|(_ & sm & -> & _)]; [|done].
        rewrite Hsame.
        destruct (HRw u) as [[Hnonew _]|(_ & sm & -> & _)]; [|done].
        rewrite (Hnonew _ Hnone) in Hrec. by destruct Hrec.
      * apply Hnr in Hnew as [Hnone Hrec].
        destruct (HRr u) as [[Hnonew _]|(_ & sm & -> & _)]; [|done].
        rewrite (Hnonew _ Hnone) in Hrec. by destruct Hrec.
  - intros u serverMap Hu.
    destruct (HRr u) as [[Hnonew Hsame]|(Hin & sm & Hsm & Hne & Hdom & Hmade)].
    + rewrite Hsame in Hu.
      destruct (HRw u) as [[_ Hsame']|(_ & sm & Hsm & Hne & Hdom & Hmade)].
      { by rewrite Hsame', lookup_empty in Hu. }
      simplify_eq. split_and!; [done| |].
      * intros kid sh Hkid. left. split.
        -- apply Hnw, Hdom. by rewrite Hkid.
        -- destruct (Hmade _ _ Hkid) as (info & Hrec & Hmw).
           exists info. by rewrite Hwr'.
      * intros _ kid [Hnew|Hnew].
        -- by apply Hdom, Hnw.
        -- apply Hnr in Hnew as [Hnone Hrec].
           rewrite (Hnonew _ Hnone) in Hrec. by destruct Hrec.
    + simplify_eq. split_and!; [done| |].
      * intros kid sh Hkid. right. split.
        -- apply Hnr, Hdom. by rewrite Hkid.
        -- destruct (Hmade _ _ Hkid) as (info & Hrec & Hmw).
           exists info. by rewrite Hrr'.
      * intros [Hnotw|Hnotr] kid [Hnew|Hnew]; [|by apply Hdom, Hnr|done..].
        apply Hnw in Hnew as [Hnone Hrec].
        destruct (HNw _ Hnotw) as (_ & _ & Hsame).
        rewrite Hsame, Hnone in Hrec. by destruct Hrec.
Qed.

Lemma separated_check_sound h tkb : separated_check h tkb → separated h tkb.
Proof.
  unfold separated_check, separated.
  destruct (deref_wkb _ _) as [w|]; [|done].
  destruct (deref_rkb _ _) as [r|]; [|done].
  intros (Hne & Hw & Hr & Hdisj). exists w, r.
  assert (∀ tkm, key_map_separated_check h tkm → key_map_separated h tkm)
    as Hsound.
  { intros tkm Hcheck u l Hu. destruct (Hcheck _ _ Hu) as [Hlive Hinj].
    split; [done|]. intros u2 Hu2. by apply (Hinj _ _ Hu2). }
  split_and!; [done..|by apply Hsound|by apply Hsound|].
  intros u1 u2 l Hu1 Hu2. by apply (Hdisj _ _ Hu1 _ _ Hu2).
Qed.

(** C3, as stated, fails.  User [u] is listed as a writer with device
    [d1] and as a reader with device [d2], on a new bundle; both devices
    are new.  The entry of [u] in the returned map is the server map of the
    reader pass: it has replaced the server map of the writer pass, and
    the server half of [d1] is not returned. *)
Lemma fillInDevices_drops_writer_server_half :
  separated new_bundle_store bundle_1
  ∧ ∃ newServerKeys serverMap h' c',
      fillInDevices bundle_1 [("u", [dev "d1"])] [("u", [dev "d2"])]
        (mkEPubKey [x01]) (mkEPrivKey [x02]) (mkTLFCryptKey [x03])
        (new_bundle_store, (100%nat, 0%nat))
      = Returns ((Some newServerKeys, None), (h', c'))
      ∧ new_writer_device new_bundle_store h' bundle_1 "u" "d1"
      ∧ newServerKeys !! "u" = Some serverMap
      ∧ serverMap !! "d1" = None.
Proof.
  split.
  { apply separated_check_sound.
    apply (bool_decide_unpack _). vm_compute. reflexivity. }
  eexists _, _, _, _. split_and!; [vm_compute; reflexivity| |..].
  - split; vm_compute; eauto.
  - vm_compute. reflexivity.
  - vm_compute. reflexivity.
Qed.

(** A second call on the bundle of [writer_and_reader]: writer [u1] gets
    device [d3], and [u3] is a new writer with device [d4]. *)
Lemma fillInDevices_server_key_map_witness :
  separated (store_of writer_and_reader) (bundle_of writer_and_reader)
  ∧ NoDup [("u1", [dev "d1"; dev "d3"]); ("u3", [dev "d4"])].*1
  ∧ ∃ newServerKeys h' c',
      fillInDevices (bundle_of writer_and_reader)
        [("u1", [dev "d1"; dev "d3"]); ("u3", [dev "d4"])] [("u2", [dev "d2"])]
        (mkEPubKey [x05]) (mkEPrivKey [x06]) (mkTLFCryptKey [x03])
        (store_of writer_and_reader, (100%nat, 8%nat))
      = Returns ((Some newServerKeys, None), (h', c'))
      ∧ dom newServerKeys = {[ "u1"; "u3" ]}
      ∧ ∀ u, is_Some (newServerKeys !! u)
             ↔ ∃ kid, new_writer_device (store_of writer_and_reader) h'
                        (bundle_of writer_and_reader) u kid
                      ∨ new_reader_device (store_of writer_and_reader) h'
                          (bundle_of writer_and_reader) u kid.
Proof.
  assert (separated (store_of writer_and_reader) (bundle_of writer_and_reader))
    as Hsep.
  { apply separated_check_sound.
    apply (bool_decide_unpack _). vm_compute. reflexivity. }
  assert (NoDup [("u1", [dev "d1"; dev "d3"]); ("u3", [dev "d4"])].*1) as Hndw.
  { apply (bool_decide_unpack _). vm_compute. reflexivity. }
  assert (NoDup [("u2", [dev "d2"])].*1) as Hndr.
  { apply (bool_decide_unpack _). vm_compute. reflexivity. }
  split; [exact Hsep|]. split; [exact Hndw|].
  eexists _, _, _.
  assert (fillInDevices (bundle_of writer_and_reader)
            [("u1", [dev "d1"; dev "d3"]); ("u3", [dev "d4"])]
            [("u2", [dev "d2"])]
            (mkEPubKey [x05]) (mkEPrivKey [x06]) (mkTLFCryptKey [x03])
            (store_of writer_and_reader, (100%nat, 8%nat))
          = Returns ((Some _, None), (_, _))) as Hcall
    by (vm_compute; reflexivity).
  split; [exact Hcall|]. split; [vm_compute; reflexivity|].
  by destruct (fillInDevices_server_key_map _ _ _ _ _ _ _ _ _ _ _
                 Hsep Hndw Hndr Hcall) as (_ & _ & _ & _ & Hdom & _).
Defined.

(** ** Runs on concrete inputs *)

Lemma result_of_Returns {A} (o : outcome (A * (store * (nat * nat)))) (a : A) :
  result_of o = Some a → o = Returns (a, (final_store o, final_crypto o)).
Proof. destruct o as [[a' [h c]]|]; simpl; [|done]. by intros [= ->]. Qed.

Lemma succeeded_Returns {K} `{Countable K} {V}
    (o : outcome ((option (gmap K V) * option error) * (store * (nat * nat)))) :
  succeeded o = true →
  o = Returns ((Some (returned_map o), None), (final_store o, final_crypto o)).
Proof. by destruct o as [[[[m|] [e|]] [h c]]|]. Qed.

(** ** Failure of a call *)

Section failed_call.
Context {C : Type} `{!Crypto C}.

Implicit Types (h : store) (c : C) (cryptBundles : TLFKeyMap)
  (u : keybase1_UID) (newServerKeys : serverKeyMap).

(** A pass that succeeds leaves every listed user with a per-user bundle
    that has a record for each listed device. *)
Lemma fillInDevicesAndServerMap_iter_listed newIndex cryptBundles ePubKey
    ePrivKey tlfCryptKey u keys newServerKeys h c newServerKeys' h' c' :
  fillInDevicesAndServerMap_iter newIndex cryptBundles ePubKey ePrivKey
    tlfCryptKey u keys newServerKeys (h, c)
  = Returns (Ok newServerKeys', (h', c')) →
  is_Some (read_tkm h' cryptBundles !! u)
  ∧ ∀ k, k ∈ keys →
         is_Some (read_uckb h' (tkm_index h' cryptBundles u) !! KID k).
Proof.
  rewrite fillInDevicesAndServerMap_iter_eq.
  destruct (ensure_bundle h cryptBundles u) as [h0|] eqn:Hensure; [|done].
  destruct (fillInDeviceInfo _ _ _ _ _ _ _) as [[[osm [err|]] [h1 c1]]|]
    eqn:Hfill; [done| |done].
  intros [= _ -> ->].
  destruct (ensure_bundle_extends newIndex _ _ _ _ Hensure) as [_ Hsome].
  destruct (fillInDeviceInfo_frame _ _ _ _ _ _ _ _ _ _ _ Hfill)
    as (Htkms & _ & _).
  assert (read_tkm h' cryptBundles = read_tkm h0 cryptBundles) as Hread
    by by apply read_tkm_ext.
  unfold tkm_index. rewrite Hread. split; [done|].
  apply fillInDeviceInfo_Returns in Hfill
    as [(serverMap & Hloop & _)|(e & _ & _ & [=])].
  by apply fillInDeviceInfo_loop_server_map in Hloop as (_ & _ & _ & Hall).
Qed.

Lemma fillInDevicesAndServerMap_listed newIndex cryptKeys cryptBundles ePubKey
    ePrivKey tlfCryptKey newServerKeys h c newServerKeys' h' c' :
  fillInDevicesAndServerMap newIndex cryptKeys cryptBundles ePubKey ePrivKey
    tlfCryptKey newServerKeys (h, c) = Returns (Ok newServerKeys', (h', c')) →
  ∀ u keys, (u, keys) ∈ cryptKeys →
    is_Some (read_tkm h' cryptBundles !! u)
    ∧ ∀ k, k ∈ keys →
           is_Some (read_uckb h' (tkm_index h' cryptBundles u) !! KID k).
Proof.
  revert newServerKeys h c.
  induction cryptKeys as [|[u0 keys0] rest IH]; intros newServerKeys h c Hpass
    u keys Hin.
  { by apply elem_of_nil in Hin. }
  simpl in Hpass. apply bind_res_Returns in Hpass
    as [(e & _ & [=])|(nsk1 & [h1 c1] & Hiter & Hrest)].
  apply elem_of_cons in Hin as [[= -> ->]|Hin]; [|by eapply IH].
  apply fillInDevicesAndServerMap_iter_listed in Hiter as [Hsome Hall].
  apply fillInDevicesAndServerMap_extends in Hrest.
  split.
  - destruct Hsome as [b Hb]. exists b.
    eapply lookup_weaken; [done|]. by eapply extends_read_tkm.
  - intros k Hk. destruct (Hall k Hk) as [info Hinfo]. exists info.
    by eapply extends_record_kept.
Qed.

(** A pass that fails has run through the users before the one that
    failed without error; for that user it has made sure that there is a
    per-user bundle and called [fillInDeviceInfo], which failed.  The pass
    returns in the state and with the error of that call. *)
Lemma fillInDevicesAndServerMap_failure_inv newIndex cryptKeys cryptBundles
    ePubKey ePrivKey tlfCryptKey newServerKeys h c e h' c' :
  fillInDevicesAndServerMap newIndex cryptKeys cryptBundles ePubKey ePrivKey
    tlfCryptKey newServerKeys (h, c) = Returns (Err e, (h', c')) →
  ∃ finished u keys todo newServerKeys1 h1 c1 h2,
    cryptKeys = finished ++ (u, keys) :: todo
    ∧ fillInDevicesAndServerMap newIndex finished cryptBundles ePubKey ePrivKey
        tlfCryptKey newServerKeys (h, c)
      = Returns (Ok newServerKeys1, (h1, c1))
    ∧ ensure_bundle h1 cryptBundles u = Returns h2
    ∧ fillInDeviceInfo (tkm_index h2 cryptBundles u) u tlfCryptKey ePrivKey
        newIndex keys (h2, c1)
      = Returns ((None, Some e), (h', c')).
Proof.
  revert newServerKeys h c.
  induction cryptKeys as [|[u0 keys0] rest IH]; intros newServerKeys h c Hpass;
    [done|].
  simpl in Hpass. apply bind_res_Returns in Hpass
    as [(e0 & Hfail & [= <-])|(nsk1 & [h1 c1] & Hok & Hrest)].
  - exists [], u0, keys0, rest, newServerKeys, h, c.
    rewrite fillInDevicesAndServerMap_iter_eq in Hfail.
    destruct (ensure_bundle h cryptBundles u0) as [h2|]; [|done].
    exists h2. split; [done|]. split; [done|]. split; [done|].
    destruct (fillInDeviceInfo _ _ _ _ _ _ _) as [[[osm [err|]] w]|]
      eqn:Hfill; [|done..].
    injection Hfail as -> ->.
    by apply fillInDeviceInfo_failure_inv in Hfill as Hinv; destruct Hinv as [-> _].
  - destruct (IH _ _ _ Hrest)
      as (finished & u & keys & todo & nsk2 & h2 & c2 & h3 & -> & Hdone & Hensure
          & Hfill).
    exists ((u0, keys0) :: finished), u, keys, todo, nsk2, h2, c2, h3.
    split; [done|]. split; [|done].
    simpl. unfold bind_res, bind at 1. by rewrite Hok.
Qed.

Lemma writer_record_eq h tkb w user kid :
  deref_wkb h (TLFWriterKeyBundle_ptr tkb) = Returns w →
  writer_record h tkb user kid = key_map_record h (WKeys w) user kid.
Proof. intros Hw. unfold writer_record. by rewrite Hw. Qed.

Lemma reader_record_eq h tkb r user kid :
  deref_rkb h (TLFReaderKeyBundle_ptr tkb) = Returns r →
  reader_record h tkb user kid = key_map_record h (RKeys r) user kid.
Proof. intros Hr. unfold reader_record. by rewrite Hr. Qed.

(** The records of a key map after a pass that has failed: those of the
    users that the pass was done with and those of the devices before the
    one that failed are there. *)
Lemma fillInDevicesAndServerMap_failure_records newIndex cryptKeys
    cryptBundles ePubKey ePrivKey tlfCryptKey newServerKeys h c e h' c' :
  fillInDevicesAndServerMap newIndex cryptKeys cryptBundles ePubKey ePrivKey
    tlfCryptKey newServerKeys (h, c) = Returns (Err e, (h', c')) →
  ∃ finished u pre k post todo newServerKeys1 h1 c1 h2 serverMap1 c2,
    cryptKeys = finished ++ (u, pre ++ k :: post) :: todo
    ∧ fillInDevicesAndServerMap newIndex finished cryptBundles ePubKey ePrivKey
        tlfCryptKey newServerKeys (h, c)
      = Returns (Ok newServerKeys1, (h1, c1))
    ∧ ensure_bundle h1 cryptBundles u = Returns h2
    ∧ fillInDeviceInfo (tkm_index h2 cryptBundles u) u tlfCryptKey ePrivKey
        newIndex pre (h2, c1)
      = Returns ((Some serverMap1, None), (h', c2))
    ∧ make_record u tlfCryptKey ePrivKey newIndex k c2 = (Err e, c')
    ∧ fillInDeviceInfo (tkm_index h2 cryptBundles u) u tlfCryptKey ePrivKey
        newIndex (pre ++ k :: post) (h2, c1)
      = Returns ((None, Some e), (h', c'))
    ∧ extends newIndex h h1 ∧ extends newIndex h1 h'
    ∧ key_map_record h' cryptBundles u (KID k) = None
    ∧ (∀ u1 keys1 k1, (u1, keys1) ∈ finished → k1 ∈ keys1 →
         is_Some (key_map_record h' cryptBundles u1 (KID k1)))
    ∧ (∀ k1, k1 ∈ pre → is_Some (key_map_record h' cryptBundles u (KID k1))).
Proof.
  intros Hpass.
  apply fillInDevicesAndServerMap_failure_inv in Hpass
    as (finished & u & keys & todo & nsk1 & h1 & c1 & h2 & -> & Hdone & Hensure
        & Hfill).
  destruct (fillInDeviceInfo_failure_inv _ _ _ _ _ _ _ _ _ _ _ _ Hfill)
    as (_ & pre & k & post & serverMap1 & c2 & -> & Hpre & Hnone & Hmake).
  pose proof (fillInDevicesAndServerMap_extends _ _ _ _ _ _ _ _ _ _ _ _ Hdone)
    as Hext1.
  destruct (ensure_bundle_extends newIndex _ _ _ _ Hensure) as [Hext2 _].
  pose proof (fillInDeviceInfo_extends _ _ _ _ _ _ _ _ _ _ _ Hpre) as Hext3.
  pose proof (extends_trans _ _ _ _ Hext2 Hext3) as Hext23.
  destruct (fillInDeviceInfo_frame _ _ _ _ _ _ _ _ _ _ _ Hpre)
    as (Htkms & _ & _).
  assert (tkm_index h' cryptBundles u = tkm_index h2 cryptBundles u) as Hindex.
  { unfold tkm_index. by rewrite (read_tkm_ext _ _ _ Htkms). }
  exists finished, u, pre, k, post, todo, nsk1, h1, c1, h2, serverMap1, c2.
  split_and!; try done.
  - unfold key_map_record. by rewrite Hindex.
  - intros u1 keys1 k1 Hin Hk1.
    destruct (fillInDevicesAndServerMap_listed _ _ _ _ _ _ _ _ _ _ _ _ Hdone
                u1 keys1 Hin) as [_ Hall].
    destruct (Hall k1 Hk1) as [info Hinfo]. exists info.
    by eapply extends_record_kept.
  - intros k1 Hk1. unfold key_map_record. rewrite Hindex.
    by apply fillInDeviceInfo_server_map in Hpre as (_ & _ & Hall); apply Hall.
Qed.
End failed_call.

(** C4: when a crypto step fails for a device, [fillInDeviceInfo] returns
    that error at once: the devices before it have their records, the
    devices after it are not looked at.  When [fillInDevices] fails it
    returns in the very state in which the call of [fillInDeviceInfo]
    failed, and that state is the one that the provisioning done so far has
    reached: the ephemeral public key is appended; the pass has run
    without error through the users before the one that failed, and
    [fillInDeviceInfo] through the devices before the one that failed;
    the records of all these devices, the records of all listed writers
    when the reader pass has failed, and the records that the bundle had
    are in the bundle; the device that failed has no record. *)
Theorem provisioning_failure_keeps_state {C} `{!Crypto C} :
  (∀ uckb uid tlfCryptKey ePrivKey ePubIndex pre k post h (c : C) serverMap1
     h1 c1 e c2,
     fillInDeviceInfo uckb uid tlfCryptKey ePrivKey ePubIndex pre (h, c)
     = Returns ((Some serverMap1, None), (h1, c1)) →
     read_uckb h1 uckb !! KID k = None →
     MakeRandomTLFCryptKeyServerHalf c1 = (Err e, c2)
     ∨ (∃ serverHalf c3,
          MakeRandomTLFCryptKeyServerHalf c1 = (Ok serverHalf, c3)
          ∧ (MaskTLFCryptKey serverHalf tlfCryptKey c3 = (Err e, c2)
             ∨ ∃ clientHalf c4,
                 MaskTLFCryptKey serverHalf tlfCryptKey c3 = (Ok clientHalf, c4)
                 ∧ (EncryptTLFCryptKeyClientHalf ePrivKey k clientHalf c4
                    = (Err e, c2)
                    ∨ ∃ encryptedClientHalf c5,
                        EncryptTLFCryptKeyClientHalf ePrivKey k clientHalf c4
                        = (Ok encryptedClientHalf, c5)
                        ∧ GetTLFCryptKeyServerHalfID uid (KID k) serverHalf c5
                          = (Err e, c2)))) →
     fillInDeviceInfo uckb uid tlfCryptKey ePrivKey ePubIndex
       (pre ++ k :: post) (h, c)
     = Returns ((None, Some e), (h1, c2))
     ∧ read_uckb h uckb ⊆ read_uckb h1 uckb
     ∧ ∀ k1, k1 ∈ pre → is_Some (read_uckb h1 uckb !! KID k1))
  ∧ (∀ tkb wKeys rKeys ePubKey ePrivKey tlfCryptKey h (c : C) osm e h' c',
       fillInDevices tkb wKeys rKeys ePubKey ePrivKey tlfCryptKey (h, c)
       = Returns ((osm, Some e), (h', c')) →
       osm = None
       ∧ ephemeral_keys h' tkb = ephemeral_keys h tkb ++ [ePubKey]
       ∧ (∀ user kid info, writer_record h tkb user kid = Some info →
            writer_record h' tkb user kid = Some info)
       ∧ (∀ user kid info, reader_record h tkb user kid = Some info →
            reader_record h' tkb user kid = Some info)
       ∧ (∃ uckb u keys h1 c1,
            ((u, keys) ∈ wKeys ∨ (u, keys) ∈ rKeys)
            ∧ fillInDeviceInfo uckb u tlfCryptKey ePrivKey
                (Z.of_nat (length (ephemeral_keys h' tkb)) - 1) keys (h1, c1)
              = Returns ((None, Some e), (h', c')))
       ∧ ∃ l w,
           let newIndex := Z.of_nat (length (ephemeral_keys h' tkb)) - 1 in
           TLFWriterKeyBundle_ptr tkb = Some l ∧ wkbs h !! l = Some w
           ∧ ((∃ finished u pre k post todo newServerKeys1 h1 c1 h2
                 serverMap1 c2,
                 wKeys = finished ++ (u, pre ++ k :: post) :: todo
                 ∧ fillInDevicesAndServerMap newIndex finished (WKeys w)
                     ePubKey ePrivKey tlfCryptKey ∅
                     (with_ephemeral_key h l w ePubKey, c)
                   = Returns (Ok newServerKeys1, (h1, c1))
                 ∧ ensure_bundle h1 (WKeys w) u = Returns h2
                 ∧ fillInDeviceInfo (tkm_index h2 (WKeys w) u) u tlfCryptKey
                     ePrivKey newIndex pre (h2, c1)
                   = Returns ((Some serverMap1, None), (h', c2))
                 ∧ make_record u tlfCryptKey ePrivKey newIndex k c2
                   = (Err e, c')
                 ∧ fillInDeviceInfo (tkm_index h2 (WKeys w) u) u tlfCryptKey
                     ePrivKey newIndex (pre ++ k :: post) (h2, c1)
                   = Returns ((None, Some e), (h', c'))
                 ∧ writer_record h' tkb u (KID k) = None
                 ∧ (∀ user kid info,
                      writer_record h1 tkb user kid = Some info →
                      writer_record h' tkb user kid = Some info)
                 ∧ (∀ u1 keys1 k1, (u1, keys1) ∈ finished → k1 ∈ keys1 →
                      is_Some (writer_record h' tkb u1 (KID k1)))
                 ∧ (∀ k1, k1 ∈ pre →
                      is_Some (writer_record h' tkb u (KID k1))))
              ∨ (∃ r newServerKeys0 h0 c0 finished u pre k post todo
                   newServerKeys1 h1 c1 h2 serverMap1 c2,
                   deref_rkb h (TLFReaderKeyBundle_ptr tkb) = Returns r
                   ∧ fillInDevicesAndServerMap newIndex wKeys (WKeys w)
                       ePubKey ePrivKey tlfCryptKey ∅
                       (with_ephemeral_key h l w ePubKey, c)
                     = Returns (Ok newServerKeys0, (h0, c0))
                   ∧ rKeys = finished ++ (u, pre ++ k :: post) :: todo
                   ∧ fillInDevicesAndServerMap newIndex finished (RKeys r)
                       ePubKey ePrivKey tlfCryptKey newServerKeys0 (h0, c0)
                     = Returns (Ok newServerKeys1, (h1, c1))
                   ∧ ensure_bundle h1 (RKeys r) u = Returns h2
                   ∧ fillInDeviceInfo (tkm_index h2 (RKeys r) u) u tlfCryptKey
                       ePrivKey newIndex pre (h2, c1)
                     = Returns ((Some serverMap1, None), (h', c2))
                   ∧ make_record u tlfCryptKey ePrivKey newIndex k c2
                     = (Err e, c')
                   ∧ fillInDeviceInfo (tkm_index h2 (RKeys r) u) u tlfCryptKey
                       ePrivKey newIndex (pre ++ k :: post) (h2, c1)
                     = Returns ((None, Some e), (h', c'))
                   ∧ reader_record h' tkb u (KID k) = None
                   ∧ (∀ user kid info,
                        writer_record h0 tkb user kid = Some info →
                        writer_record h' tkb user kid = Some info)
                   ∧ (∀ user kid info,
                        reader_record h1 tkb user kid = Some info →
                        reader_record h' tkb user kid = Some info)
                   ∧ (∀ u1 keys1 k1, (u1, keys1) ∈ wKeys → k1 ∈ keys1 →
                        is_Some (writer_record h' tkb u1 (KID k1)))
                   ∧ (∀ u1 keys1 k1, (u1, keys1) ∈ finished → k1 ∈ keys1 →
                        is_Some (reader_record h' tkb u1 (KID k1)))
                   ∧ (∀ k1, k1 ∈ pre →
                        is_Some (reader_record h' tkb u (KID k1)))))).
Proof.
  split.
  - intros uckb uid tlfCryptKey ePrivKey ePubIndex pre k post h c serverMap1
      h1 c1 e c2 Hpre Hnone Hmake.
    apply (proj2 (make_record_Err uid tlfCryptKey ePrivKey ePubIndex k c1 e c2))
      in Hmake.
    split_and!.
    + by eapply fillInDeviceInfo_fails_at.
    + eapply extends_read_uckb. by eapply fillInDeviceInfo_extends.
    + by apply fillInDeviceInfo_server_map in Hpre as (_ & _ & ?).
  - intros tkb wKeys rKeys ePubKey ePrivKey tlfCryptKey h c osm e h' c' Hcall.
    destruct (fillInDevices_records _ _ _ _ _ _ _ _ _ _ _ Hcall)
      as (Hkeys & _ & Hwriter & Hreader & _).
    destruct (fillInDevices_extends _ _ _ _ _ _ _ _ _ _ _ Hcall)
      as (l & w & Hptr & Hw & Hext).
    assert (ephemeral_keys h tkb = TLFEphemeralPublicKeys_of w) as Hold.
    { unfold ephemeral_keys, deref_wkb. by rewrite Hptr, Hw. }
    rewrite Hkeys, Hold.
    set (newIndex :=
           Z.of_nat (length (TLFEphemeralPublicKeys_of w ++ [ePubKey])) - 1)
      in *.
    set (h00 := with_ephemeral_key h l w ePubKey) in *.
    assert (∀ hx, wkbs hx = wkbs h00 →
              deref_wkb hx (TLFWriterKeyBundle_ptr tkb)
              = Returns (mkTLFWriterKeyBundle (WKeys w) (TLFPublicKey_of w)
                           (TLFEphemeralPublicKeys_of w ++ [ePubKey])))
      as Hderefw.
    { intros hx Hx. unfold deref_wkb. rewrite Hptr, Hx. simpl.
      by rewrite lookup_insert_eq. }
    assert (∀ hx user kid, wkbs hx = wkbs h00 →
              writer_record hx tkb user kid
              = key_map_record hx (WKeys w) user kid) as Hwrec.
    { intros hx user kid Hx. by rewrite (writer_record_eq _ _ _ _ _ (Hderefw _ Hx)). }
    rewrite fillInDevices_eq, Hptr, Hw in Hcall. cbv zeta in Hcall.
    fold newIndex h00 in Hcall.
    destruct (fillInDevicesAndServerMap newIndex wKeys _ _ _ _ _ _)
      as [[[nsk0|e1] [h0 c0]]|] eqn:Hpass1; [| |done].
    + pose proof (fillInDevicesAndServerMap_extends _ _ _ _ _ _ _ _ _ _ _ _
                    Hpass1) as Hext0.
      destruct (deref_rkb h0 _) as [r|] eqn:Hr0; [|done].
      assert (deref_rkb h (TLFReaderKeyBundle_ptr tkb) = Returns r) as Hr.
      { unfold deref_rkb in *. by rewrite (ext_rkbs _ _ _ Hext0) in Hr0. }
      destruct (fillInDevicesAndServerMap newIndex rKeys _ _ _ _ _ (h0, c0))
        as [[[nsk'|e2] [h2 c2]]|] eqn:Hpass2; [done| |done].
      injection Hcall as <- <- <- <-.
      split; [done|]. split; [done|]. split; [done|]. split; [done|]. split.
      { apply fillInDevicesAndServerMap_Err in Hpass2
          as (uckb & u & keys & h3 & c3 & Hin & Hinfo).
        exists uckb, u, keys, h3, c3. split; [by right|done]. }
      exists l, w. cbv zeta. split; [done|]. split; [done|]. right.
      destruct (fillInDevicesAndServerMap_failure_records _ _ _ _ _ _ _ _ _ _
                  _ _ Hpass2)
        as (finished & u & pre & k & post & todo & nsk1 & h1 & c1 & h3
            & serverMap1 & c3 & -> & Hdone & Hensure & Hpre & Hmake & Hfail
            & Hext1 & Hext2 & Hnone & Hfinished & Hbefore).
      pose proof (extends_trans _ _ _ _ Hext1 Hext2) as Hext12.
      assert (∀ hx user kid, rkbs hx = rkbs h →
                reader_record hx tkb user kid
                = key_map_record hx (RKeys r) user kid) as Hrrec.
      { intros hx user kid Hx. apply reader_record_eq.
        unfold deref_rkb in *. by rewrite Hx. }
      assert (rkbs h0 = rkbs h) as Hrk0 by apply (ext_rkbs _ _ _ Hext0).
      assert (rkbs h1 = rkbs h) as Hrk1
        by by rewrite (ext_rkbs _ _ _ Hext1).
      assert (rkbs h2 = rkbs h) as Hrk2
        by by rewrite (ext_rkbs _ _ _ Hext2).
      assert (wkbs h0 = wkbs h00) as Hwk0 by apply (ext_wkbs _ _ _ Hext0).
      assert (wkbs h2 = wkbs h00) as Hwk2
        by by rewrite (ext_wkbs _ _ _ Hext12).
      exists r, nsk0, h0, c0, finished, u, pre, k, post, todo, nsk1, h1, c1, h3,
        serverMap1, c3.
      split_and!; try done.
      * by rewrite Hrrec.
      * intros user kid info. rewrite !Hwrec by done.
        by apply extends_record_kept with (idx := newIndex).
      * intros user kid info. rewrite !Hrrec by done.
        by apply extends_record_kept with (idx := newIndex).
      * intros u1 keys1 k1 Hin Hk1. rewrite Hwrec by done.
        destruct (fillInDevicesAndServerMap_listed _ _ _ _ _ _ _ _ _ _ _ _
                    Hpass1 u1 keys1 Hin) as [_ Hall].
        destruct (Hall k1 Hk1) as [info Hinfo]. exists info.
        by eapply extends_record_kept.
      * intros u1 keys1 k1 Hin Hk1. rewrite Hrrec by done.
        by eapply Hfinished.
      * intros k1 Hk1. rewrite Hrrec by done. by apply Hbefore.
    + injection Hcall as <- <- <- <-.
      split; [done|]. split; [done|]. split; [done|]. split; [done|]. split.
      { apply fillInDevicesAndServerMap_Err in Hpass1
          as (uckb & u & keys & h3 & c3 & Hin & Hinfo).
        exists uckb, u, keys, h3, c3. split; [by left|done]. }
      exists l, w. cbv zeta. split; [done|]. split; [done|]. left.
      destruct (fillInDevicesAndServerMap_failure_records _ _ _ _ _ _ _ _ _ _
                  _ _ Hpass1)
        as (finished & u & pre & k & post & todo & nsk1 & h1 & c1 & h3
            & serverMap1 & c3 & -> & Hdone & Hensure & Hpre & Hmake & Hfail
            & Hext1 & Hext2 & Hnone & Hfinished & Hbefore).
      assert (wkbs h1 = wkbs h00) as Hwk1 by apply (ext_wkbs _ _ _ Hext1).
      assert (wkbs h0 = wkbs h00) as Hwk0
        by by rewrite (ext_wkbs _ _ _ Hext2).
      exists finished, u, pre, k, post, todo, nsk1, h1, c1, h3, serverMap1, c3.
      split_and!; try done.
      * by rewrite Hwrec.
      * intros user kid info. rewrite !Hwrec by done.
        by apply extends_record_kept with (idx := newIndex).
      * intros u1 keys1 k1 Hin Hk1. rewrite Hwrec by done.
        by eapply Hfinished.
      * intros k1 Hk1. rewrite Hwrec by done. by apply Hbefore.
Qed.

(** With a budget of five crypto calls [fillInDeviceInfo] provisions
    device [e] and fails at the second crypto step for device [f].  In
    [reader_fails], [fillInDevices] provisions device [d1] of writer [u1]
    and fails for device [d2] of reader [u2]: the key is appended and the
    record of [d1] is in the bundle. *)
Lemma provisioning_failure_keeps_state_witness :
  (∃ h1 c2,
     fillInDeviceInfo (Some 1%positive) "u" (mkTLFCryptKey [x03])
       (mkEPrivKey [x02]) 5 ([dev "e"] ++ dev "f" :: [dev "g"])
       (one_bundle, (5%nat, 0%nat))
     = Returns ((None, Some (CryptoError "out of budget")), (h1, c2))
     ∧ is_Some (read_uckb h1 (Some 1%positive) !! "e"))
  ∧ ∃ h' c',
      fillInDevices bundle_1 [("u1", [dev "d1"])] [("u2", [dev "d2"])]
        (mkEPubKey [x01]) (mkEPrivKey [x02]) (mkTLFCryptKey [x03])
        (new_bundle_store, (6%nat, 0%nat))
      = Returns ((None, Some (CryptoError "out of budget")), (h', c'))
      ∧ ephemeral_keys h' bundle_1
        = ephemeral_keys new_bundle_store bundle_1 ++ [mkEPubKey [x01]]
      ∧ is_Some (writer_record h' bundle_1 "u1" "d1").
Proof.
  destruct (provisioning_failure_keeps_state (C := nat * nat)) as [HA HB].
  split.
  - edestruct (HA (Some 1%positive) "u" (mkTLFCryptKey [x03])
                 (mkEPrivKey [x02]) 5 [dev "e"] (dev "f") [dev "g"] one_bundle
                 (5%nat, 0%nat)) as (Hcall & _ & Hpre);
      [vm_compute; reflexivity|vm_compute; reflexivity|
       right; eexists _, _; split; [vm_compute; reflexivity|];
       left; vm_compute; reflexivity|].
    eexists _, _. split; [exact Hcall|].
    apply (Hpre (dev "e")), list_elem_of_here.
  - exists (final_store reader_fails), (final_crypto reader_fails).
    assert (reader_fails
            = Returns ((None, Some (CryptoError "out of budget")),
                       (final_store reader_fails, final_crypto reader_fails)))
      as Hcall.
    { apply result_of_Returns. vm_compute. reflexivity. }
    split; [exact Hcall|].
    destruct (HB _ _ _ _ _ _ _ _ _ _ _ _ Hcall)
      as (_ & Hkeys & _ & _ & _ & l & w & _ & _ & Hbranch).
    split; [exact Hkeys|].
    destruct Hbranch
      as [(finished & u & pre & k & post & todo & nsk1 & h1 & c1 & h2 & sm
           & c2 & Hlist & _ & _ & _ & _ & _ & Hnone & _)
         |(r & nsk0 & h0 & c0 & finished & u & pre & k & post & todo & nsk1
           & h1 & c1 & h2 & sm & c2 & _ & _ & _ & _ & _ & _ & _ & _ & _ & _
           & _ & Hwriters & _)].
    + exfalso.
      destruct finished as [|x finished]; simpl in Hlist.
      * injection Hlist as <- Hdevices _.
        destruct pre as [|p pre]; simpl in Hdevices.
        -- injection Hdevices as <- _. vm_compute in Hnone. discriminate.
        -- injection Hdevices as _ Hrest. destruct pre; discriminate.
      * injection Hlist as _ Hrest. destruct finished; discriminate.
    + apply (Hwriters "u1" [dev "d1"] (dev "d1")); apply list_elem_of_here.
Defined.

(** ** Deep copies *)

Lemma TLFCryptKeyInfo_DeepCopy_eq info : TLFCryptKeyInfo_DeepCopy info = info.
Proof. by destruct info. Qed.

Lemma for_each_uckb_assign (entries : list (string * TLFCryptKeyInfo))
    (l : positive) (acc : gmap string TLFCryptKeyInfo) (h : store) :
  uckbs h !! l = Some acc →
  for_each entries
    (λ kb, uckb_assign (Some l) kb.1 (TLFCryptKeyInfo_DeepCopy kb.2)) h
  = Returns (tt, set_uckbs
                   <[l := foldl (λ m kb, <[kb.1 := kb.2]> m) acc entries]> h).
Proof.
  revert acc h. induction entries as [|[k b] rest IH]; intros acc h Hl; simpl.
  { unfold ret. f_equal. f_equal. unfold set_uckbs.
    rewrite insert_id by done. by destruct h. }
  unfold bind. simpl. rewrite Hl, TLFCryptKeyInfo_DeepCopy_eq.
  rewrite (IH (<[k := b]> acc)) by (simpl; by rewrite lookup_insert_eq).
  do 2 f_equal. unfold set_uckbs. simpl. by rewrite insert_insert_eq.
Qed.

Lemma foldl_insert_map_to_list (m : gmap string TLFCryptKeyInfo) :
  foldl (λ acc kb, <[kb.1 := kb.2]> acc) ∅ (map_to_list m) = m.
Proof.
  assert (∀ (entries : list (string * TLFCryptKeyInfo))
            (acc : gmap string TLFCryptKeyInfo) k,
            NoDup entries.*1 →
            foldl (λ acc kb, <[kb.1 := kb.2]> acc) acc entries !! k
            = match list_to_map (M := gmap string TLFCryptKeyInfo) entries !! k
              with
              | Some v => Some v
              | None => acc !! k
              end) as Hfold.
  { intros entries. induction entries as [|[k1 v1] rest IH]; intros acc k Hnd;
      simpl; [done|].
    apply NoDup_cons in Hnd as [Hk1 Hnd]. rewrite IH by done.
    destruct (decide (k1 = k)) as [<-|Hne].
    - rewrite lookup_insert_eq.
      by rewrite (not_elem_of_list_to_map_1 _ _ Hk1), lookup_insert_eq.
    - by rewrite !lookup_insert_ne. }
  apply map_eq. intros k. rewrite Hfold by apply NoDup_fst_map_to_list.
  rewrite list_to_map_to_list, lookup_empty. by destruct (m !! k).
Qed.

(** The copy of a per-user bundle is a new map with the same entries. *)
Lemma UserCryptKeyBundle_DeepCopy_eq (uckb : UserCryptKeyBundle) (h : store) :
  UserCryptKeyBundle_DeepCopy uckb h
  = Returns (Some (fresh (dom (uckbs h))),
             set_uckbs <[fresh (dom (uckbs h)) := read_uckb h uckb]> h).
Proof.
  unfold UserCryptKeyBundle_DeepCopy, bind, alloc_uckb, get_store, ret.
  set (l := fresh (dom (uckbs h))).
  assert (read_uckb (set_uckbs <[l := ∅]> h) uckb = read_uckb h uckb) as ->.
  { destruct uckb as [l0|]; simpl; [|done].
    destruct (decide (l = l0)) as [<-|Hne].
    - rewrite lookup_insert_eq. simpl.
      unfold l. by rewrite (not_elem_of_dom_1 _ _ (is_fresh (dom (uckbs h)))).
    - by rewrite lookup_insert_ne. }
  rewrite (for_each_uckb_assign _ l ∅)
    by (simpl; by rewrite lookup_insert_eq).
  rewrite foldl_insert_map_to_list. do 2 f_equal.
  unfold set_uckbs. simpl. by rewrite insert_insert_eq.
Qed.

Lemma grows_dom_uckbs h h' : grows h h' → dom (uckbs h) ⊆ dom (uckbs h').
Proof.
  intros (Hu & _) l Hl. apply elem_of_dom. rewrite Hu by done.
  by apply elem_of_dom.
Qed.

Lemma grows_dom_tkms h h' : grows h h' → dom (tkms h) ⊆ dom (tkms h').
Proof.
  intros (_ & Ht & _) l Hl. apply elem_of_dom. rewrite Ht by done.
  by apply elem_of_dom.
Qed.

Lemma grows_trans h1 h2 h3 : grows h1 h2 → grows h2 h3 → grows h1 h3.
Proof.
  intros H12 H23.
  pose proof H12 as (Hu & Ht & Hw & Hr). pose proof H23 as (Hu' & Ht' & Hw' & Hr').
  split_and!; intros l Hl.
  - rewrite Hu', Hu; [done..|]. by apply (grows_dom_uckbs _ _ H12).
  - rewrite Ht', Ht; [done..|]. by apply (grows_dom_tkms _ _ H12).
  - rewrite Hw', Hw; [done..|]. apply elem_of_dom. rewrite Hw by done.
    by apply elem_of_dom.
  - rewrite Hr', Hr; [done..|]. apply elem_of_dom. rewrite Hr by done.
    by apply elem_of_dom.
Qed.

Lemma grows_read_uckb h h' (uckb : UserCryptKeyBundle) :
  grows h h' → ref_live (uckbs h) uckb → read_uckb h' uckb = read_uckb h uckb.
Proof.
  intros (Hu & _) Hlive. destruct uckb as [l|]; simpl; [|done].
  by rewrite Hu.
Qed.

Lemma grows_read_tkm h h' (tkm : TLFKeyMap) :
  grows h h' → ref_live (tkms h) tkm → read_tkm h' tkm = read_tkm h tkm.
Proof.
  intros (_ & Ht & _) Hlive. destruct tkm as [l|]; simpl; [|done].
  by rewrite Ht.
Qed.

Lemma grows_key_map_value h h' (tkm : TLFKeyMap) :
  grows h h' → key_map_closed h tkm →
  key_map_value h' tkm = key_map_value h tkm.
Proof.
  intros Hgrows [Hlive Hrefs]. unfold key_map_value.
  rewrite (grows_read_tkm _ _ _ Hgrows Hlive).
  apply map_eq. intros u. rewrite !lookup_fmap.
  destruct (read_tkm h tkm !! u) as [b|] eqn:Hb; simpl; [|done].
  f_equal. apply grows_read_uckb; [done|]. exact (Hrefs _ _ Hb).
Qed.

(** Whatever is added to the store, a closed bundle keeps its value. *)
Lemma grows_bundle_value h h' tkb :
  grows h h' → closed h tkb → bundle_value h' tkb = bundle_value h tkb.
Proof.
  intros Hgrows (w & r & Hw & Hr & Hcw & Hcr).
  pose proof Hgrows as (_ & _ & Hgw & Hgr).
  unfold bundle_value, deref_wkb, deref_rkb in *.
  destruct (TLFWriterKeyBundle_ptr tkb) as [lw|]; [|done].
  destruct (wkbs h !! lw) as [w0|] eqn:Hlw; [|done].
  destruct (TLFReaderKeyBundle_ptr tkb) as [lr|]; [|done].
  destruct (rkbs h !! lr) as [r0|] eqn:Hlr; [|done].
  simplify_eq.
  rewrite Hgw, Hlw by (by apply elem_of_dom_2 in Hlw).
  rewrite Hgr, Hlr by (by apply elem_of_dom_2 in Hlr).
  by rewrite !(grows_key_map_value _ _ _ Hgrows).
Qed.

(** The loop of [TLFKeyMap.DeepCopy]: [acc] is the new map so far. *)
Lemma TLFKeyMap_DeepCopy_loop (h : store) (lk : positive)
    (entries : list (string * option positive)) (hcur : store)
    (acc : gmap string (option positive)) :
  NoDup entries.*1 →
  (∀ u b, (u, b) ∈ entries → ref_live (uckbs h) b) →
  grows h hcur → wkbs hcur = wkbs h → rkbs hcur = rkbs h →
  lk ∉ dom (tkms h) → tkms hcur = <[lk := acc]> (tkms h) →
  ∃ h' acc',
    for_each entries
      (λ um, m' <- UserCryptKeyBundle_DeepCopy um.2 ;
             tkm_assign (Some lk) um.1 m') hcur
    = Returns (tt, h')
    ∧ grows h h' ∧ wkbs h' = wkbs h ∧ rkbs h' = rkbs h
    ∧ tkms h' = <[lk := acc']> (tkms h)
    ∧ (∀ l m, uckbs hcur !! l = Some m → uckbs h' !! l = Some m)
    ∧ (∀ u, u ∉ entries.*1 → acc' !! u = acc !! u)
    ∧ (∀ u b, (u, b) ∈ entries →
         ∃ l, acc' !! u = Some (Some l) ∧ (l ∉ dom (uckbs hcur))
              ∧ uckbs h' !! l = Some (read_uckb h b)).
Proof.
  revert hcur acc.
  induction entries as [|[u1 b1] rest IH];
    intros hcur acc Hnd Hlive Hgrows Hw Hr Hlk Htkms; simpl.
  { exists hcur, acc. split_and!; try done. by intros u b ?%elem_of_nil. }
  apply NoDup_cons in Hnd as [Hu1 Hnd].
  unfold bind at 1. unfold bind at 1.
  rewrite UserCryptKeyBundle_DeepCopy_eq. simpl.
  set (lf := fresh (dom (uckbs hcur))).
  pose proof (is_fresh (dom (uckbs hcur))) as Hfresh. fold lf in Hfresh.
  rewrite Htkms, lookup_insert_eq.
  assert (read_uckb hcur b1 = read_uckb h b1) as Hb1.
  { apply grows_read_uckb; [done|]. apply (Hlive u1), list_elem_of_here. }
  set (h2 := set_tkms <[lk := <[u1 := Some lf]> acc]>
               (set_uckbs <[lf := read_uckb hcur b1]> hcur)).
  destruct (IH h2 (<[u1 := Some lf]> acc)) as
    (h' & acc' & Hloop & Hgrows' & Hw' & Hr' & Htkms' & Hkept & Hother & Hnew).
  - done.
  - intros u b Hin. apply (Hlive u). by apply list_elem_of_further.
  - destruct Hgrows as (Hgu & Hgt & Hgw & Hgr).
    split_and!; simpl; intros l Hl.
    + rewrite lookup_insert_ne; [by apply Hgu|]. intros <-.
      apply Hfresh. apply elem_of_dom. rewrite Hgu by done. by apply elem_of_dom.
    + rewrite lookup_insert_ne; [by apply Hgt|]. by intros <-.
    + by apply Hgw.
    + by apply Hgr.
  - done.
  - done.
  - done.
  - simpl. by rewrite Htkms, insert_insert_eq.
  - exists h', acc'. split_and!; try done.
    + intros l m Hl. apply Hkept. simpl. rewrite lookup_insert_ne; [done|].
      intros <-. by apply elem_of_dom_2 in Hl.
    + intros u [Hne Hu]%not_elem_of_cons. rewrite Hother by done.
      by rewrite lookup_insert_ne.
    + intros u b [[= -> ->]|Hin]%elem_of_cons.
      * exists lf. split_and!; [|done|].
        -- rewrite Hother by done. by rewrite lookup_insert_eq.
        -- apply Hkept. simpl. by rewrite lookup_insert_eq, Hb1.
      * destruct (Hnew _ _ Hin) as (l & Hacc & Hl & Hcopy).
        exists l. split_and!; [done| |done].
        intros Hin'. apply Hl. simpl. rewrite dom_insert_L. set_solver.
Qed.

(** The copy of a key map is a new map of new per-user bundles, with the
    value of the original. *)
Lemma TLFKeyMap_DeepCopy_spec (tkm : TLFKeyMap) (h : store) :
  key_map_closed h tkm →
  ∃ h',
    TLFKeyMap_DeepCopy tkm h = Returns (Some (fresh (dom (tkms h))), h')
    ∧ grows h h' ∧ wkbs h' = wkbs h ∧ rkbs h' = rkbs h
    ∧ key_map_value h' (Some (fresh (dom (tkms h)))) = key_map_value h tkm
    ∧ key_map_outside h h' (Some (fresh (dom (tkms h))))
    ∧ fresh (dom (tkms h)) ∈ dom (tkms h').
Proof.
  intros [Hlive Hrefs].
  unfold TLFKeyMap_DeepCopy.
  unfold bind at 1. unfold alloc_tkm.
  set (lk := fresh (dom (tkms h))).
  pose proof (is_fresh (dom (tkms h))) as Hfresh. fold lk in Hfresh.
  unfold bind at 1. unfold get_store.
  set (h1 := set_tkms <[lk := ∅]> h).
  assert (read_tkm h1 tkm = read_tkm h tkm) as ->.
  { destruct tkm as [l0|]; simpl; [|done]. simpl in Hlive.
    rewrite lookup_insert_ne; [done|]. by intros <-. }
  destruct (TLFKeyMap_DeepCopy_loop h lk (map_to_list (read_tkm h tkm)) h1 ∅)
    as (h' & acc' & Hloop & Hgrows & Hw & Hr & Htkms & _ & Hother & Hnew).
  - apply NoDup_fst_map_to_list.
  - intros u b Hin%elem_of_map_to_list. exact (Hrefs _ _ Hin).
  - split_and!; simpl; try done.
    intros l Hl. rewrite lookup_insert_ne; [done|]. by intros <-.
  - done.
  - done.
  - done.
  - done.
  - exists h'. unfold bind at 1. rewrite Hloop. simpl.
    assert (read_tkm h' (Some lk) = acc') as Hread.
    { simpl. by rewrite Htkms, lookup_insert_eq. }
    split_and!; try done.
    + unfold key_map_value. rewrite Hread.
      apply map_eq. intros u. rewrite !lookup_fmap.
      destruct (read_tkm h tkm !! u) as [b|] eqn:Hb; simpl.
      * apply elem_of_map_to_list in Hb.
        destruct (Hnew _ _ Hb) as (l & -> & _ & Hl). simpl. by rewrite Hl.
      * rewrite Hother, lookup_empty; [done|].
        intros ((u' & b) & -> & Hin%elem_of_map_to_list)%list_elem_of_fmap.
        simpl in Hb. congruence.
    + split; [by exists lk|]. rewrite Hread. intros u b Hu.
      destruct (read_tkm h tkm !! u) as [b0|] eqn:Hb.
      * apply elem_of_map_to_list in Hb.
        destruct (Hnew _ _ Hb) as (l & Hacc & Hl & Hcopy).
        rewrite Hacc in Hu. simplify_eq. exists l. split_and!; [done|done|].
        by apply elem_of_dom_2 in Hcopy.
      * rewrite Hother, lookup_empty in Hu; [done|].
        intros ((u' & b') & -> & Hin%elem_of_map_to_list)%list_elem_of_fmap.
        simpl in Hb. congruence.
    + rewrite Htkms, dom_insert_L. set_solver.
Qed.

Lemma grows_key_map_closed h h' (tkm : TLFKeyMap) :
  grows h h' → key_map_closed h tkm → key_map_closed h' tkm.
Proof.
  intros Hgrows [Hlive Hrefs]. split.
  - destruct tkm as [lk|]; [|done]. by apply (grows_dom_tkms _ _ Hgrows).
  - rewrite (grows_read_tkm _ _ _ Hgrows Hlive). intros u b Hb.
    specialize (Hrefs _ _ Hb). destruct b as [l|]; [|done].
    by apply (grows_dom_uckbs _ _ Hgrows).
Qed.

Lemma key_map_outside_closed h h' lk :
  key_map_outside h h' (Some lk) → lk ∈ dom (tkms h') →
  key_map_closed h' (Some lk).
Proof.
  intros [_ Hrefs] Hlk. split; [done|]. intros u b Hb.
  by destruct (Hrefs _ _ Hb) as (l & -> & _ & ?).
Qed.

Lemma key_map_outside_grows h h1 h2 (tkm : TLFKeyMap) :
  key_map_outside h h1 tkm → key_map_closed h1 tkm → grows h1 h2 →
  key_map_outside h h2 tkm.
Proof.
  intros [Hlk Hrefs] [Hlive _] Hgrows. split; [done|].
  rewrite (grows_read_tkm _ _ _ Hgrows Hlive). intros u b Hb.
  destruct (Hrefs _ _ Hb) as (l & -> & Hout & Hin).
  exists l. split_and!; [done..|]. by apply (grows_dom_uckbs _ _ Hgrows).
Qed.

Lemma key_map_outside_weaken h h1 h2 (tkm : TLFKeyMap) :
  grows h h1 → key_map_outside h1 h2 tkm → key_map_outside h h2 tkm.
Proof.
  intros Hgrows [(lk & -> & Hlk) Hrefs]. split.
  - exists lk. split; [done|]. intros Hin. apply Hlk.
    by apply (grows_dom_tkms _ _ Hgrows).
  - intros u b Hb. destruct (Hrefs _ _ Hb) as (l & -> & Hout & Hin).
    exists l. split_and!; [done| |done]. intros Hin'. apply Hout.
    by apply (grows_dom_uckbs _ _ Hgrows).
Qed.

Lemma TLFWriterKeyBundle_DeepCopy_spec (p : option positive) (h : store)
    (b : TLFWriterKeyBundle) :
  deref_wkb h p = Returns b → key_map_closed h (WKeys b) →
  ∃ h' lk,
    TLFWriterKeyBundle_DeepCopy p h = Returns (Some (fresh (dom (wkbs h))), h')
    ∧ grows h h' ∧ rkbs h' = rkbs h
    ∧ wkbs h'
      = <[fresh (dom (wkbs h)) :=
            mkTLFWriterKeyBundle (Some lk) (TLFPublicKey_of b)
              (TLFEphemeralPublicKeys_of b)]> (wkbs h)
    ∧ key_map_value h' (Some lk) = key_map_value h (WKeys b)
    ∧ key_map_outside h h' (Some lk) ∧ key_map_closed h' (Some lk).
Proof.
  intros Hb Hclosed.
  destruct (TLFKeyMap_DeepCopy_spec _ _ Hclosed)
    as (h1 & Hcopy & Hgrows & Hw & Hr & Hvalue & Hout & Hlk).
  pose proof (is_fresh (dom (wkbs h))) as Hfresh.
  exists (set_wkbs
            <[fresh (dom (wkbs h)) :=
                mkTLFWriterKeyBundle (Some (fresh (dom (tkms h))))
                  (TLFPublicKey_of b) (TLFEphemeralPublicKeys_of b)]> h1),
    (fresh (dom (tkms h))).
  split_and!.
  - unfold TLFWriterKeyBundle_DeepCopy, bind, load_wkb. rewrite Hb, Hcopy.
    unfold alloc_wkb. by rewrite Hw.
  - destruct Hgrows as (Hgu & Hgt & Hgw & Hgr). split_and!; simpl; try done.
    intros l Hl. rewrite lookup_insert_ne; [by apply Hgw|].
    by intros <-.
  - done.
  - simpl. by rewrite Hw.
  - done.
  - done.
  - by apply (key_map_outside_closed h).
Qed.

Lemma TLFReaderKeyBundle_DeepCopy_spec (p : option positive) (h : store)
    (b : TLFReaderKeyBundle) :
  deref_rkb h p = Returns b → key_map_closed h (RKeys b) →
  ∃ h' lk,
    TLFReaderKeyBundle_DeepCopy p h = Returns (Some (fresh (dom (rkbs h))), h')
    ∧ grows h h' ∧ wkbs h' = wkbs h
    ∧ rkbs h' = <[fresh (dom (rkbs h)) := mkTLFReaderKeyBundle (Some lk)]> (rkbs h)
    ∧ key_map_value h' (Some lk) = key_map_value h (RKeys b)
    ∧ key_map_outside h h' (Some lk) ∧ key_map_closed h' (Some lk).
Proof.
  intros Hb Hclosed.
  destruct (TLFKeyMap_DeepCopy_spec _ _ Hclosed)
    as (h1 & Hcopy & Hgrows & Hw & Hr & Hvalue & Hout & Hlk).
  pose proof (is_fresh (dom (rkbs h))) as Hfresh.
  exists (set_rkbs
            <[fresh (dom (rkbs h)) :=
                mkTLFReaderKeyBundle (Some (fresh (dom (tkms h))))]> h1),
    (fresh (dom (tkms h))).
  split_and!.
  - unfold TLFReaderKeyBundle_DeepCopy, bind, load_rkb. rewrite Hb, Hcopy.
    unfold alloc_rkb. by rewrite Hr.
  - destruct Hgrows as (Hgu & Hgt & Hgw & Hgr). split_and!; simpl; try done.
    intros l Hl. rewrite lookup_insert_ne; [by apply Hgr|].
    by intros <-.
  - done.
  - simpl. by rewrite Hr.
  - done.
  - done.
  - by apply (key_map_outside_closed h).
Qed.

(** A bundle that consists of objects outside [h] can be mutated without
    any object of [h] changing. *)
Lemma mutation_outside_grows h h' tkb h'' :
  grows h h' → bundle_outside h h' tkb → mutation h' tkb h'' → grows h h''.
Proof.
  intros Hgrows (lw & lr & w & r & Hlw & Hlwout & Hlr & Hlrout & Hw & Hr
                 & [(lkw & Hkw & Hkwout) Hrefsw] & [(lkr & Hkr & Hkrout) Hrefsr])
    Hmut.
  pose proof Hgrows as (Hgu & Hgt & Hgw & Hgr).
  assert (deref_wkb h' (TLFWriterKeyBundle_ptr tkb) = Returns w) as Hdw.
  { unfold deref_wkb. by rewrite Hlw, Hw. }
  assert (deref_rkb h' (TLFReaderKeyBundle_ptr tkb) = Returns r) as Hdr.
  { unfold deref_rkb. by rewrite Hlr, Hr. }
  assert (∀ l kid info t, l ∉ dom (uckbs h) →
            uckb_assign (Some l) kid info h' = Returns (t, h'') → grows h h'')
    as Hbundle.
  { intros l kid info t Hl (l0 & m & [= <-] & Hm & ->)%uckb_assign_Returns.
    split_and!; simpl; try done.
    intros l0 Hl0. rewrite lookup_insert_ne; [by apply Hgu|]. by intros <-. }
  assert (∀ lk u uckb t, lk ∉ dom (tkms h) →
            tkm_assign (Some lk) u uckb h' = Returns (t, h'') → grows h h'')
    as Hkeymap.
  { intros lk u uckb t Hlk (l0 & m & [= <-] & Hm & ->)%tkm_assign_Returns.
    split_and!; simpl; try done.
    intros l0 Hl0. rewrite lookup_insert_ne; [by apply Hgt|]. by intros <-. }
  destruct Hmut as [w0 u l kid info t h'' Hw0 Hu Hassign
                   |r0 u l kid info t h'' Hr0 Hu Hassign
                   |w0 u uckb t h'' Hw0 Hassign
                   |r0 u uckb t h'' Hr0 Hassign
                   |keys t h'' Hassign].
  - rewrite Hdw in Hw0. simplify_eq.
    destruct (Hrefsw _ _ Hu) as (l' & [= <-] & Hout & _). by eapply Hbundle.
  - rewrite Hdr in Hr0. simplify_eq.
    destruct (Hrefsr _ _ Hu) as (l' & [= <-] & Hout & _). by eapply Hbundle.
  - rewrite Hdw in Hw0. simplify_eq. rewrite Hkw in Hassign.
    exact (Hkeymap _ _ _ _ Hkwout Hassign).
  - rewrite Hdr in Hr0. simplify_eq. rewrite Hkr in Hassign.
    exact (Hkeymap _ _ _ _ Hkrout Hassign).
  - unfold store_TLFEphemeralPublicKeys in Hassign.
    rewrite Hlw, Hw in Hassign. simplify_eq.
    split_and!; simpl; try done.
    intros l0 Hl0. rewrite lookup_insert_ne; [by apply Hgw|]. by intros <-.
Qed.

(** C10: the deep copy of a bundle has the value of the original at every
    level: the per-user maps with their bundles and records, the folder
    public key and the list of ephemeral public keys.  The copy is made of
    new objects only, so that no mutation of the copy, of its per-user
    maps or of its ephemeral-key list, changes the value of the
    original. *)
Theorem TLFKeyBundle_DeepCopy_independent (h : store) (tkb : TLFKeyBundle) :
  closed h tkb →
  ∃ tkb' h' v,
    TLFKeyBundle_DeepCopy tkb h = Returns (tkb', h')
    ∧ bundle_value h tkb = Returns v
    ∧ bundle_value h' tkb' = Returns v
    ∧ bundle_value h' tkb = Returns v
    ∧ grows h h'
    ∧ bundle_outside h h' tkb'
    ∧ (∀ h'', mutation h' tkb' h'' → bundle_value h'' tkb = Returns v)
    ∧ (∀ h'', grows h h'' → bundle_value h'' tkb = Returns v).
Proof.
  intros Hclosed. pose proof Hclosed as (w & r & Hw & Hr & Hcw & Hcr).
  destruct (TLFWriterKeyBundle_DeepCopy_spec _ _ _ Hw Hcw)
    as (h1 & lkw & Hcopyw & Hgrows1 & Hr1 & Hw1 & Hvaluew & Houtw & Hclosedw).
  assert (deref_rkb h1 (TLFReaderKeyBundle_ptr tkb) = Returns r) as Hr'.
  { unfold deref_rkb in *. by rewrite Hr1. }
  pose proof (grows_key_map_closed _ _ _ Hgrows1 Hcr) as Hcr1.
  destruct (TLFReaderKeyBundle_DeepCopy_spec _ _ _ Hr' Hcr1)
    as (h2 & lkr & Hcopyr & Hgrows2 & Hw2 & Hr2 & Hvaluer & Houtr & Hclosedr).
  pose proof (grows_trans _ _ _ Hgrows1 Hgrows2) as Hgrows.
  set (v := mkTLFKeyBundle_value (key_map_value h (WKeys w)) (TLFPublicKey_of w)
              (TLFEphemeralPublicKeys_of w) (key_map_value h (RKeys r))).
  assert (bundle_value h tkb = Returns v) as Hv.
  { unfold bundle_value. by rewrite Hw, Hr. }
  pose proof (is_fresh (dom (wkbs h))) as Hfw.
  pose proof (is_fresh (dom (rkbs h1))) as Hfr.
  assert (bundle_outside h h2
            (mkTLFKeyBundle (Some (fresh (dom (wkbs h))))
               (Some (fresh (dom (rkbs h1)))))) as Hout.
  { eexists _, _, _, _. simpl. split_and!; [done|done|done| | | | |].
    - by rewrite <- Hr1.
    - by rewrite Hw2, Hw1, lookup_insert_eq.
    - by rewrite Hr2, lookup_insert_eq.
    - simpl. by apply (key_map_outside_grows h h1).
    - simpl. by apply (key_map_outside_weaken h h1). }
  exists (mkTLFKeyBundle (Some (fresh (dom (wkbs h))))
            (Some (fresh (dom (rkbs h1))))), h2, v.
  split_and!.
  - unfold TLFKeyBundle_DeepCopy, bind, ret. by rewrite Hcopyw, Hcopyr.
  - done.
  - unfold bundle_value, deref_wkb, deref_rkb. simpl.
    rewrite Hw2, Hw1, lookup_insert_eq, Hr2, lookup_insert_eq. simpl.
    unfold v. do 2 f_equal.
    + by rewrite (grows_key_map_value _ _ _ Hgrows2 Hclosedw).
    + rewrite Hvaluer. by apply grows_key_map_value.
  - rewrite <- Hv. by apply grows_bundle_value.
  - done.
  - done.
  - intros h'' Hmut. rewrite <- Hv. apply grows_bundle_value; [|done].
    by eapply mutation_outside_grows.
  - intros h'' Hgrows''. rewrite <- Hv. by apply grows_bundle_value.
Qed.

Lemma closed_check_sound h tkb : closed_check h tkb → closed h tkb.
Proof.
  unfold closed_check, closed.
  destruct (deref_wkb _ _) as [w|]; [|done].
  destruct (deref_rkb _ _) as [r|]; [|done].
  intros [? ?]. by exists w, r.
Qed.

(** The copy of the bundle of [writer_and_reader]. *)
Lemma TLFKeyBundle_DeepCopy_independent_witness :
  closed (store_of writer_and_reader) (bundle_of writer_and_reader)
  ∧ ∃ h' v,
      TLFKeyBundle_DeepCopy (bundle_of writer_and_reader)
        (store_of writer_and_reader)
      = Returns (mkTLFKeyBundle (Some 2%positive) (Some 2%positive), h')
      ∧ bundle_value (store_of writer_and_reader) (bundle_of writer_and_reader)
        = Returns v
      ∧ bundle_value h' (mkTLFKeyBundle (Some 2%positive) (Some 2%positive))
        = Returns v.
Proof.
  assert (closed (store_of writer_and_reader) (bundle_of writer_and_reader))
    as Hclosed.
  { apply closed_check_sound.
    apply (bool_decide_unpack _). vm_compute. reflexivity. }
  split; [exact Hclosed|].
  destruct (TLFKeyBundle_DeepCopy_independent _ _ Hclosed)
    as (tkb' & h' & v & Hcopy & Hv & Hv' & _).
  exists h', v.
  assert (tkb' = mkTLFKeyBundle (Some 2%positive) (Some 2%positive)) as ->.
  { vm_compute in Hcopy. by simplify_eq. }
  by split_and!.
Defined.

(** * Further properties of the code *)

(** ** Device keys of a user *)

Lemma foldl_append_keys (l : list (string * TLFCryptKeyInfo))
    (acc : list string) :
  foldl (λ keys kb, keys ++ [kb.1]) acc l = acc ++ l.*1.
Proof.
  revert acc. induction l as [|x l IH]; intros acc; simpl.
  - by rewrite app_nil_r.
  - rewrite IH. by rewrite <- app_assoc.
Qed.

Lemma UserCryptKeyBundle_GetKIDs_eq h (uckb : UserCryptKeyBundle) :
  UserCryptKeyBundle_GetKIDs h uckb = (map_to_list (read_uckb h uckb)).*1.
Proof. unfold UserCryptKeyBundle_GetKIDs. by rewrite foldl_append_keys. Qed.

Lemma elem_of_GetKIDs h (uckb : UserCryptKeyBundle) kid :
  kid ∈ UserCryptKeyBundle_GetKIDs h uckb ↔ is_Some (read_uckb h uckb !! kid).
Proof.
  rewrite UserCryptKeyBundle_GetKIDs_eq, list_elem_of_fmap. split.
  - intros ([k info] & -> & Hin). apply elem_of_map_to_list in Hin.
    by exists info.
  - intros [info Hinfo]. exists (kid, info). split; [done|].
    by apply elem_of_map_to_list.
Qed.

Lemma NoDup_GetKIDs h (uckb : UserCryptKeyBundle) :
  NoDup (UserCryptKeyBundle_GetKIDs h uckb).
Proof. rewrite UserCryptKeyBundle_GetKIDs_eq. apply NoDup_fst_map_to_list. Qed.

(** X1: [GetKIDs] returns the device keys of the bundle, each of them
    once and nothing else, so as many as the bundle has records; for a
    bundle without records, the nil bundle among them, it returns the
    empty list. *)
Theorem GetKIDs_keys_of_bundle (h : store) (uckb : UserCryptKeyBundle) :
  NoDup (UserCryptKeyBundle_GetKIDs h uckb)
  ∧ (∀ kid, kid ∈ UserCryptKeyBundle_GetKIDs h uckb
            ↔ is_Some (read_uckb h uckb !! kid))
  ∧ length (UserCryptKeyBundle_GetKIDs h uckb) = size (read_uckb h uckb)
  ∧ (read_uckb h uckb = ∅ → UserCryptKeyBundle_GetKIDs h uckb = [])
  ∧ UserCryptKeyBundle_GetKIDs h None = [].
Proof.
  split_and!.
  - apply NoDup_GetKIDs.
  - intros kid. apply elem_of_GetKIDs.
  - rewrite UserCryptKeyBundle_GetKIDs_eq, length_fmap.
    apply length_map_to_list.
  - intros Hempty. rewrite UserCryptKeyBundle_GetKIDs_eq, Hempty.
    by rewrite map_to_list_empty.
  - done.
Qed.

(** X2: [GetTLFCryptPublicKeys] panics exactly where [GetTLFCryptKeyInfo]
    does.  When it returns, [ok] tells whether the user has a per-user
    bundle, writer or reader side; the keys come without repetition, there
    are none when [ok] is false, and a device key is among them exactly
    when [GetTLFCryptKeyInfo] finds a record for that device of the
    user. *)
Theorem GetTLFCryptPublicKeys_agrees_with_GetTLFCryptKeyInfo (h : store)
    (tkb : TLFKeyBundle) (user : keybase1_UID) :
  (∀ k, GetTLFCryptPublicKeys h tkb user = Panics
        ↔ GetTLFCryptKeyInfo h tkb user k = Panics)
  ∧ ∀ kids ok,
      GetTLFCryptPublicKeys h tkb user = Returns (kids, ok) →
      NoDup kids
      ∧ (ok = true
         ↔ has_writer_bundle h tkb user ∨ has_reader_bundle h tkb user)
      ∧ (ok = false → kids = [])
      ∧ ∀ k, KID k ∈ kids
             ↔ ∃ info, GetTLFCryptKeyInfo h tkb user k
                       = Returns (Some info, None).
Proof.
  unfold GetTLFCryptPublicKeys, GetTLFCryptKeyInfo, has_writer_bundle,
    has_reader_bundle.
  destruct (deref_wkb h (TLFWriterKeyBundle_ptr tkb)) as [w|]; [|by split].
  destruct (read_tkm h (WKeys w) !! user) as [u|] eqn:Hw.
  - split; [by split|]. intros kids ok [= <- <-]. split_and!.
    + apply NoDup_GetKIDs.
    + split; [|done]. intros _. left. exists w. by rewrite Hw.
    + done.
    + intros k. rewrite elem_of_GetKIDs. split.
      * intros [info ->]. by exists info.
      * intros [info [= ->]]. by exists info.
  - destruct (deref_rkb h (TLFReaderKeyBundle_ptr tkb)) as [r|]; [|by split].
    destruct (read_tkm h (RKeys r) !! user) as [u|] eqn:Hr.
    + split; [by split|]. intros kids ok [= <- <-]. split_and!.
      * apply NoDup_GetKIDs.
      * split; [|done]. intros _. right. exists r. by rewrite Hr.
      * done.
      * intros k. rewrite elem_of_GetKIDs. split.
        -- intros [info ->]. by exists info.
        -- intros [info [= ->]]. by exists info.
    + split; [by split|]. intros kids ok [= <- <-]. split_and!.
      * constructor.
      * split; [done|]. intros [(w' & [= <-] & Hsome)|(r' & [= <-] & Hsome)].
        -- rewrite Hw in Hsome. by destruct Hsome.
        -- rewrite Hr in Hsome. by destruct Hsome.
      * done.
      * intros k. split; [by intros ?%elem_of_nil|]. by intros [info [=]].
Qed.

(** ** Membership and lookup *)

(** X3: the membership tests of the two bundles against the lookup.  A
    device for which [IsWriter] holds is found by [GetTLFCryptKeyInfo]; a
    device for which [IsReader] holds is found when the user has no writer
    bundle; a device that is found is a writer or a reader device; a
    device that is neither is not found. *)
Theorem GetTLFCryptKeyInfo_finds_writers_and_readers (h : store)
    (tkb : TLFKeyBundle) (user : keybase1_UID) (k : CryptPublicKey)
    (w : TLFWriterKeyBundle) (r : TLFReaderKeyBundle) :
  deref_wkb h (TLFWriterKeyBundle_ptr tkb) = Returns w →
  deref_rkb h (TLFReaderKeyBundle_ptr tkb) = Returns r →
  (TLFWriterKeyBundle_IsWriter h w user (KID k) = true →
   ∃ info, GetTLFCryptKeyInfo h tkb user k = Returns (Some info, None))
  ∧ (TLFReaderKeyBundle_IsReader h r user (KID k) = true →
     read_tkm h (WKeys w) !! user = None →
     ∃ info, GetTLFCryptKeyInfo h tkb user k = Returns (Some info, None))
  ∧ (∀ info oerr,
       GetTLFCryptKeyInfo h tkb user k = Returns (Some info, oerr) →
       TLFWriterKeyBundle_IsWriter h w user (KID k) = true
       ∨ TLFReaderKeyBundle_IsReader h r user (KID k) = true)
  ∧ (TLFWriterKeyBundle_IsWriter h w user (KID k) = false →
     TLFReaderKeyBundle_IsReader h r user (KID k) = false →
     GetTLFCryptKeyInfo h tkb user k = Returns (None, None)).
Proof.
  intros Hw Hr.
  unfold GetTLFCryptKeyInfo, TLFWriterKeyBundle_IsWriter,
    TLFReaderKeyBundle_IsReader, tkm_index.
  rewrite Hw, Hr.
  destruct (read_tkm h (WKeys w) !! user) as [u|] eqn:Hwu; simpl.
  - split_and!.
    + intros [info ->]%bool_decide_eq_true. by exists info.
    + done.
    + intros info oerr [= Hinfo _]. left. apply bool_decide_eq_true.
      by rewrite Hinfo.
    + intros Hnot%bool_decide_eq_false _.
      destruct (read_uckb h u !! KID k) as [info|] eqn:Hinfo; [|done].
      destruct Hnot. by eexists.
  - destruct (read_tkm h (RKeys r) !! user) as [u|] eqn:Hru; simpl.
    + split_and!.
      * by intros [info [=]]%bool_decide_eq_true.
      * intros [info ->]%bool_decide_eq_true _. by exists info.
      * intros info oerr [= Hinfo _]. right. apply bool_decide_eq_true.
        by rewrite Hinfo.
      * intros _ Hnot%bool_decide_eq_false.
        destruct (read_uckb h u !! KID k) as [info|] eqn:Hinfo; [|done].
        destruct Hnot. by eexists.
    + split_and!.
      * by intros [info [=]]%bool_decide_eq_true.
      * by intros [info [=]]%bool_decide_eq_true.
      * by intros info oerr [=].
      * done.
Qed.

(** Device [d1] of writer [u1] in the bundle of [writer_and_reader]. *)
Lemma GetTLFCryptKeyInfo_finds_writers_and_readers_witness :
  ∃ info,
    GetTLFCryptKeyInfo (store_of writer_and_reader)
      (bundle_of writer_and_reader) "u1" (dev "d1")
    = Returns (Some info, None).
Proof.
  destruct (GetTLFCryptKeyInfo_finds_writers_and_readers
              (store_of writer_and_reader) (bundle_of writer_and_reader)
              "u1" (dev "d1")
              (mkTLFWriterKeyBundle (Some 1%positive) (mkTLFPublicKey [])
                 [mkEPubKey [x01]])
              (mkTLFReaderKeyBundle (Some 2%positive)))
    as [Hwriter _].
  - vm_compute. reflexivity.
  - vm_compute. reflexivity.
  - apply Hwriter. vm_compute. reflexivity.
Defined.

(** ** New bundles *)

(** X4: [NewTLFKeyBundle] returns, whatever the store, a bundle made of
    new objects only: two empty key maps that are two maps, the zero folder
    public key and no ephemeral public key.  Nothing in the bundle is nil,
    no object of the store is changed, and every lookup in the new bundle
    finds nothing: [GetTLFCryptKeyInfo] no record, [GetTLFCryptPublicKeys]
    no user, and [GetTLFEphemeralPublicKey] fails with
    [TLFEphemeralPublicKeyNotFoundError]. *)
Theorem NewTLFKeyBundle_empty_bundle (zeroTLFPublicKey : TLFPublicKey)
    (h : store) :
  ∃ tkb h',
    NewTLFKeyBundle zeroTLFPublicKey h = Returns (tkb, h')
    ∧ grows h h'
    ∧ bundle_outside h h' tkb
    ∧ bundle_value h' tkb
      = Returns (mkTLFKeyBundle_value ∅ zeroTLFPublicKey [] ∅)
    ∧ separated h' tkb ∧ closed h' tkb ∧ live h' tkb ∧ indices_valid h' tkb
    ∧ ∀ user k,
        GetTLFCryptKeyInfo h' tkb user k = Returns (None, None)
        ∧ GetTLFEphemeralPublicKey h' tkb user k
          = Returns (Err (TLFEphemeralPublicKeyNotFoundError user (KID k)))
        ∧ GetTLFCryptPublicKeys h' tkb user = Returns ([], false).
Proof.
  unfold NewTLFKeyBundle, bind, ret, alloc_tkm, alloc_wkb, alloc_rkb. simpl.
  set (l1 := fresh (dom (tkms h))).
  set (lw := fresh (dom (wkbs h))).
  set (l2 := fresh (dom (<[l1 := ∅]> (tkms h)))).
  set (lr := fresh (dom (rkbs h))).
  assert (l1 ∉ dom (tkms h)) as Hl1 by apply is_fresh.
  assert (lw ∉ dom (wkbs h)) as Hlw by apply is_fresh.
  assert (l2 ∉ dom (<[l1 := (∅ : gmap string (option positive))]> (tkms h)))
    as Hl2 by apply is_fresh.
  assert (lr ∉ dom (rkbs h)) as Hlr by apply is_fresh.
  assert (l2 ≠ l1 ∧ l2 ∉ dom (tkms h)) as [Hne Hl2'].
  { rewrite dom_insert_L in Hl2. set_solver. }
  eexists _, _. split; [reflexivity|].
  set (h' := set_rkbs _ _).
  set (w := mkTLFWriterKeyBundle (Some l1) zeroTLFPublicKey []).
  set (r := mkTLFReaderKeyBundle (Some l2)).
  assert (deref_wkb h' (Some lw) = Returns w) as Hw.
  { simpl. by rewrite lookup_insert_eq. }
  assert (deref_rkb h' (Some lr) = Returns r) as Hr.
  { simpl. by rewrite lookup_insert_eq. }
  assert (read_tkm h' (Some l1) = ∅) as Hread1.
  { simpl. rewrite lookup_insert_ne by done. by rewrite lookup_insert_eq. }
  assert (read_tkm h' (Some l2) = ∅) as Hread2.
  { simpl. by rewrite lookup_insert_eq. }
  assert (l1 ∈ dom (tkms h')) as Hin1.
  { simpl. rewrite !dom_insert_L. set_solver. }
  assert (l2 ∈ dom (tkms h')) as Hin2.
  { simpl. rewrite !dom_insert_L. set_solver. }
  split_and!.
  - split_and!; simpl; intros l Hl; [done| | |].
    + rewrite !lookup_insert_ne; [done|set_solver..].
    + rewrite lookup_insert_ne; [done|set_solver].
    + rewrite lookup_insert_ne; [done|set_solver].
  - exists lw, lr, w, r. simpl. rewrite !lookup_insert_eq.
    split_and!; try done.
    + split; [by exists l1|]. intros u b. rewrite Hread1.
      by rewrite lookup_empty.
    + split; [by exists l2|]. intros u b. rewrite Hread2.
      by rewrite lookup_empty.
  - unfold bundle_value. cbn [TLFWriterKeyBundle_ptr TLFReaderKeyBundle_ptr].
    rewrite Hw, Hr. unfold key_map_value. cbn [WKeys RKeys w r].
    rewrite Hread1, Hread2. by rewrite fmap_empty.
  - exists w, r. cbn [TLFWriterKeyBundle_ptr TLFReaderKeyBundle_ptr].
    split_and!; try done.
    + cbn. congruence.
    + intros u l. cbn [WKeys w]. rewrite Hread1. by rewrite lookup_empty.
    + intros u l. cbn [RKeys r]. rewrite Hread2. by rewrite lookup_empty.
    + intros u1 u2 l. cbn [WKeys w]. rewrite Hread1. by rewrite lookup_empty.
  - exists w, r. cbn [TLFWriterKeyBundle_ptr TLFReaderKeyBundle_ptr].
    split_and!; try done.
    + split; [done|]. cbn [WKeys w]. rewrite Hread1. apply map_Forall_empty.
    + split; [done|]. cbn [RKeys r]. rewrite Hread2. apply map_Forall_empty.
  - exists w, r. cbn [TLFWriterKeyBundle_ptr TLFReaderKeyBundle_ptr].
    split_and!; try done.
    + split; [by exists l1|]. intros u b. cbn [WKeys w]. rewrite Hread1.
      by rewrite lookup_empty.
    + split; [by exists l2|]. intros u b. cbn [RKeys r]. rewrite Hread2.
      by rewrite lookup_empty.
  - intros user kid info. unfold writer_record, reader_record, tkm_index.
    cbn [TLFWriterKeyBundle_ptr TLFReaderKeyBundle_ptr].
    rewrite Hw, Hr. cbn [WKeys RKeys w r]. rewrite Hread1, Hread2.
    rewrite lookup_empty. simpl. rewrite lookup_empty. by intros [|].
  - intros user k.
    assert (GetTLFCryptKeyInfo h' (mkTLFKeyBundle (Some lw) (Some lr)) user k
            = Returns (None, None)) as Hget.
    { unfold GetTLFCryptKeyInfo.
      cbn [TLFWriterKeyBundle_ptr TLFReaderKeyBundle_ptr].
      rewrite Hw, Hr. cbn [WKeys RKeys w r]. rewrite Hread1, Hread2.
      by rewrite lookup_empty. }
    split_and!; [done| |].
    + unfold GetTLFEphemeralPublicKey. by rewrite Hget.
    + unfold GetTLFCryptPublicKeys.
      cbn [TLFWriterKeyBundle_ptr TLFReaderKeyBundle_ptr].
      rewrite Hw, Hr. cbn [WKeys RKeys w r]. rewrite Hread1, Hread2.
      by rewrite lookup_empty.
Qed.

(** ** What one call does for one user *)

Section per_user_bundle.
Context {C : Type} `{!Crypto C}.

Implicit Types (h : store) (c : C) (uckb : UserCryptKeyBundle).

(** A record that the loop has added belongs to a listed device. *)
Lemma fillInDeviceInfo_loop_only_listed uckb uid tlfCryptKey ePrivKey
    ePubIndex publicKeys serverMap h c r h' c' :
  fillInDeviceInfo_loop uckb uid tlfCryptKey ePrivKey ePubIndex publicKeys
    serverMap (h, c) = Returns (r, (h', c')) →
  ∀ kid, read_uckb h uckb !! kid = None →
    is_Some (read_uckb h' uckb !! kid) →
    ∃ k, k ∈ publicKeys ∧ KID k = kid.
Proof.
  revert serverMap h c.
  induction publicKeys as [|k0 rest IH]; intros serverMap h c Hloop kid Hnone
    Hsome.
  { injection Hloop as _ <- _. rewrite Hnone in Hsome. by destruct Hsome. }
  simpl in Hloop.
  assert (∀ r1 h1 c1,
            fillInDeviceInfo_iter uckb uid tlfCryptKey ePrivKey ePubIndex k0
              serverMap (h, c) = Returns (r1, (h1, c1)) →
            read_uckb h1 uckb !! kid = None ∨ KID k0 = kid) as Hiter.
  { intros r1 h1 c1 Hiter.
    apply fillInDeviceInfo_iter_Returns in Hiter
      as [(_ & _ & -> & _)|[(_ & e & _ & _ & ->)
          |(_ & serverHalf & info & l & m & _ & -> & Hl & -> & _)]];
      [by left..|].
    simpl in *. rewrite Hl in Hnone. simpl in Hnone.
    rewrite lookup_insert_eq. simpl.
    destruct (decide (KID k0 = kid)) as [|Hne]; [by right|left].
    by rewrite lookup_insert_ne. }
  apply bind_res_Returns in Hloop
    as [(e & Hfail & _)|(serverMap1 & [h1 c1] & Hok & Hrest)].
  - destruct (Hiter _ _ _ Hfail) as [Hnone'|Heq].
    + rewrite Hnone' in Hsome. by destruct Hsome.
    + exists k0. split; [apply list_elem_of_here|done].
  - destruct (Hiter _ _ _ Hok) as [Hnone'|Heq].
    + destruct (IH _ _ _ Hrest kid Hnone' Hsome) as (k & Hk & Hkid).
      exists k. split; [by apply list_elem_of_further|done].
    + exists k0. split; [apply list_elem_of_here|done].
Qed.

(** X5: what a successful [fillInDeviceInfo] call has done.  The server
    map has an entry for exactly the listed devices that had no record;
    the bundle holds the records it held and one for every listed device,
    and no other; the record of a device in the server map was made with
    the server half the map gives and carries [ePubIndex]; no other
    per-user bundle of the store has changed. *)
Theorem fillInDeviceInfo_provisions_exactly_the_new_devices uckb
    (uid : keybase1_UID) (tlfCryptKey : TLFCryptKey)
    (ePrivKey : TLFEphemeralPrivateKey) (ePubIndex : Z)
    (publicKeys : list CryptPublicKey) h c
    (serverMap : gmap string TLFCryptKeyServerHalf) h' c' :
  fillInDeviceInfo uckb uid tlfCryptKey ePrivKey ePubIndex publicKeys (h, c)
  = Returns ((Some serverMap, None), (h', c')) →
  dom serverMap = list_to_set (KID <$> publicKeys) ∖ dom (read_uckb h uckb)
  ∧ dom (read_uckb h' uckb)
    = dom (read_uckb h uckb) ∪ list_to_set (KID <$> publicKeys)
  ∧ read_uckb h uckb ⊆ read_uckb h' uckb
  ∧ (∀ kid serverHalf, serverMap !! kid = Some serverHalf →
       ∃ info, read_uckb h' uckb !! kid = Some info
               ∧ EPubKeyIndex info = ePubIndex
               ∧ made_with uid tlfCryptKey ePrivKey ePubIndex kid serverHalf
                   info)
  ∧ ∀ l, uckb ≠ Some l → uckbs h' !! l = uckbs h !! l.
Proof.
  intros Hcall.
  pose proof (fillInDeviceInfo_extends _ _ _ _ _ _ _ _ _ _ _ Hcall) as Hext.
  pose proof (extends_read_uckb _ _ _ uckb Hext) as Hsub.
  destruct (fillInDeviceInfo_frame _ _ _ _ _ _ _ _ _ _ _ Hcall)
    as (_ & _ & Hframe).
  destruct (fillInDeviceInfo_server_map _ _ _ _ _ _ _ _ _ _ _ Hcall)
    as (Hdom & Hmade & Hall).
  assert (∀ kid, read_uckb h uckb !! kid = None →
            is_Some (read_uckb h' uckb !! kid) →
            ∃ k, k ∈ publicKeys ∧ KID k = kid) as Hlisted.
  { apply fillInDeviceInfo_Returns in Hcall
      as [(sm & Hloop & _)|(e & _ & _ & [=])].
    by eapply fillInDeviceInfo_loop_only_listed. }
  assert (∀ kid, kid ∈ (list_to_set (KID <$> publicKeys) : gset string)
                 ↔ ∃ k, k ∈ publicKeys ∧ KID k = kid) as Hkeys.
  { intros kid. rewrite elem_of_list_to_set, list_elem_of_fmap.
    split; intros (k & ? & ?); by exists k. }
  split_and!.
  - apply set_eq. intros kid.
    rewrite elem_of_difference, !elem_of_dom, Hdom, Hkeys. split.
    + intros [Hnone Hsome]. split; [by apply Hlisted|].
      rewrite Hnone. by intros [? ?].
    + intros [(k & Hk & <-) Hnone]. split; [|by apply Hall].
      by destruct (read_uckb h uckb !! KID k) eqn:Hrec; [destruct Hnone|].
  - apply set_eq. intros kid. rewrite elem_of_union, !elem_of_dom, Hkeys.
    split.
    + intros Hsome.
      destruct (read_uckb h uckb !! kid) as [info|] eqn:Hrec; [by left|].
      right. by apply Hlisted.
    + intros [[info Hinfo]|(k & Hk & <-)]; [|by apply Hall].
      exists info. by eapply lookup_weaken.
  - done.
  - intros kid serverHalf Hsh.
    destruct (Hmade kid serverHalf Hsh) as (info & k & c1 & c2 & Hrec & _
                                            & Hkid & Hmake).
    exists info. split; [done|]. split.
    + by eapply make_record_index.
    + by exists k, c1, c2.
  - done.
Qed.

(** X6: [fillInDeviceInfo] on the nil bundle.  Without devices it returns
    the empty server map.  With a device it runs the crypto steps for the
    first one and returns the error if one of them fails; if they succeed
    it panics, at the assignment of the record to the nil map. *)
Theorem fillInDeviceInfo_on_nil_bundle (uid : keybase1_UID)
    (tlfCryptKey : TLFCryptKey) (ePrivKey : TLFEphemeralPrivateKey)
    (ePubIndex : Z) (k : CryptPublicKey) (rest : list CryptPublicKey) h c :
  fillInDeviceInfo None uid tlfCryptKey ePrivKey ePubIndex [] (h, c)
  = Returns ((Some ∅, None), (h, c))
  ∧ fillInDeviceInfo None uid tlfCryptKey ePrivKey ePubIndex (k :: rest) (h, c)
    = match make_record uid tlfCryptKey ePrivKey ePubIndex k c with
      | (Err e, c') => Returns ((None, Some e), (h, c'))
      | (Ok _, _) => Panics
      end.
Proof.
  split; [done|].
  unfold fillInDeviceInfo, bind at 1. simpl. unfold bind_res, bind at 1.
  rewrite fillInDeviceInfo_iter_eq. simpl. rewrite lookup_empty.
  by destruct (make_record _ _ _ _ _ _) as [[[serverHalf info]|e] c'].
Qed.
End per_user_bundle.

(** Device [d] has a record, device [e] has none. *)
Lemma fillInDeviceInfo_provisions_exactly_the_new_devices_witness :
  ∃ serverMap h' c',
    fillInDeviceInfo (Some 1%positive) "u" (mkTLFCryptKey [x03])
      (mkEPrivKey [x02]) 5 [dev "d"; dev "e"] (one_bundle, (100%nat, 0%nat))
    = Returns ((Some serverMap, None), (h', c'))
    ∧ dom serverMap = {[ "e" ]}
    ∧ dom (read_uckb h' (Some 1%positive)) = {[ "d"; "e" ]}.
Proof.
  pose (call := fillInDeviceInfo (Some 1%positive) "u" (mkTLFCryptKey [x03])
                  (mkEPrivKey [x02]) 5 [dev "d"; dev "e"]
                  (one_bundle, (100%nat, 0%nat))).
  exists (returned_map call), (final_store call), (final_crypto call).
  assert (call = Returns ((Some (returned_map call), None),
                          (final_store call, final_crypto call))) as Hcall.
  { apply succeeded_Returns. vm_compute. reflexivity. }
  split; [exact Hcall|].
  destruct (fillInDeviceInfo_provisions_exactly_the_new_devices _ _ _ _ _ _ _
              _ _ _ _ Hcall) as (Hdom & Hdom' & _).
  split.
  - rewrite Hdom. vm_compute. reflexivity.
  - rewrite Hdom'. vm_compute. reflexivity.
Defined.

(** ** What one call does for the listed users *)

Lemma slice_index_app_l {A} (l1 l2 : list A) (i : Z) (x : A) :
  slice_index l1 i = Returns x → slice_index (l1 ++ l2) i = Returns x.
Proof.
  rewrite !slice_index_Returns. intros [Hi Hx]. split; [done|].
  by apply lookup_app_l_Some.
Qed.

Lemma tkm_index_record h (tkm : TLFKeyMap) user kid info :
  read_uckb h (tkm_index h tkm user) !! kid = Some info →
  ∃ b, read_tkm h tkm !! user = Some b ∧ read_uckb h b !! kid = Some info.
Proof.
  unfold tkm_index. destruct (read_tkm h tkm !! user) as [b|]; simpl.
  - intros Hinfo. by exists b.
  - by rewrite lookup_empty.
Qed.

(** The entries of a Go map have distinct keys. *)
Lemma NoDup_fst_unique {B} (l : list (string * B)) u (a b : B) :
  NoDup l.*1 → (u, a) ∈ l → (u, b) ∈ l → a = b.
Proof.
  intros Hnd Ha Hb.
  apply (elem_of_list_to_map_1 (M := gmap string)) in Ha; [|done].
  apply (elem_of_list_to_map_1 (M := gmap string)) in Hb; [|done].
  congruence.
Qed.

Section listed_users.
Context {C : Type} `{!Crypto C}.

Implicit Types (h : store) (c : C) (cryptBundles other : TLFKeyMap)
  (u : keybase1_UID) (newServerKeys : serverKeyMap).


(** The two passes of a call that succeeds. *)
Lemma fillInDevices_Ok_inv tkb wKeys rKeys ePubKey ePrivKey tlfCryptKey h c
    newServerKeys h' c' :
  fillInDevices tkb wKeys rKeys ePubKey ePrivKey tlfCryptKey (h, c)
  = Returns ((Some newServerKeys, None), (h', c')) →
  ∃ l w r h1 c1 serverKeys1,
    let newIndex :=
      Z.of_nat (length (TLFEphemeralPublicKeys_of w ++ [ePubKey])) - 1 in
    TLFWriterKeyBundle_ptr tkb = Some l ∧ wkbs h !! l = Some w
    ∧ deref_rkb h (TLFReaderKeyBundle_ptr tkb) = Returns r
    ∧ fillInDevicesAndServerMap newIndex wKeys (WKeys w) ePubKey ePrivKey
        tlfCryptKey ∅ (with_ephemeral_key h l w ePubKey, c)
      = Returns (Ok serverKeys1, (h1, c1))
    ∧ fillInDevicesAndServerMap newIndex rKeys (RKeys r) ePubKey ePrivKey
        tlfCryptKey serverKeys1 (h1, c1)
      = Returns (Ok newServerKeys, (h', c'))
    ∧ deref_wkb h' (TLFWriterKeyBundle_ptr tkb)
      = Returns (mkTLFWriterKeyBundle (WKeys w) (TLFPublicKey_of w)
                   (TLFEphemeralPublicKeys_of w ++ [ePubKey]))
    ∧ deref_rkb h' (TLFReaderKeyBundle_ptr tkb) = Returns r
    ∧ extends newIndex h1 h'.
Proof.
  rewrite fillInDevices_eq.
  destruct (TLFWriterKeyBundle_ptr tkb) as [l|] eqn:Hptr; [|done].
  destruct (wkbs h !! l) as [w|] eqn:Hl; [|done]. cbv zeta.
  destruct (fillInDevicesAndServerMap _ wKeys _ _ _ _ _ _)
    as [[[serverKeys1|e] [h1 c1]]|] eqn:Hwriter; [|done..].
  destruct (deref_rkb h1 _) as [r|] eqn:Hr; [|done].
  destruct (fillInDevicesAndServerMap _ rKeys _ _ _ _ _ _)
    as [[[nsk|e] [h2 c2]]|] eqn:Hreader; [|done..].
  intros [= -> -> ->].
  pose proof (fillInDevicesAndServerMap_extends _ _ _ _ _ _ _ _ _ _ _ _ Hwriter)
    as Hext1.
  pose proof (fillInDevicesAndServerMap_extends _ _ _ _ _ _ _ _ _ _ _ _ Hreader)
    as Hext2.
  exists l, w, r, h1, c1, serverKeys1. cbv zeta. split_and!; try done.
  - unfold deref_rkb in *. by rewrite (ext_rkbs _ _ _ Hext1) in Hr.
  - unfold deref_wkb. rewrite (ext_wkbs _ _ _ Hext2), (ext_wkbs _ _ _ Hext1).
    simpl. by rewrite lookup_insert_eq.
  - unfold deref_rkb in *. by rewrite (ext_rkbs _ _ _ Hext2).
Qed.

(** X7: after a successful [fillInDevices] call every listed writer has a
    writer bundle and every listed reader a reader bundle, and every listed
    device has its record there, whatever the bundle shares and whatever
    the lists repeat: [IsWriter] holds for a listed writer device, which
    [GetTLFCryptKeyInfo] finds with its writer record, and [IsReader] holds
    for a listed reader device. *)
Theorem fillInDevices_provisions_listed_devices (tkb : TLFKeyBundle)
    (wKeys rKeys : list (keybase1_UID * list CryptPublicKey))
    (ePubKey : TLFEphemeralPublicKey) (ePrivKey : TLFEphemeralPrivateKey)
    (tlfCryptKey : TLFCryptKey) (h : store) (c : C)
    (newServerKeys : serverKeyMap)
    (h' : store) (c' : C) :
  fillInDevices tkb wKeys rKeys ePubKey ePrivKey tlfCryptKey (h, c)
  = Returns ((Some newServerKeys, None), (h', c')) →
  (∀ u keys, (u, keys) ∈ wKeys →
     has_writer_bundle h' tkb u
     ∧ ∀ k, k ∈ keys →
         ∃ w info,
           deref_wkb h' (TLFWriterKeyBundle_ptr tkb) = Returns w
           ∧ TLFWriterKeyBundle_IsWriter h' w u (KID k) = true
           ∧ writer_record h' tkb u (KID k) = Some info
           ∧ GetTLFCryptKeyInfo h' tkb u k = Returns (Some info, None))
  ∧ (∀ u keys, (u, keys) ∈ rKeys →
       has_reader_bundle h' tkb u
       ∧ ∀ k, k ∈ keys →
           ∃ r, deref_rkb h' (TLFReaderKeyBundle_ptr tkb) = Returns r
                ∧ TLFReaderKeyBundle_IsReader h' r u (KID k) = true
                ∧ is_Some (reader_record h' tkb u (KID k))).
Proof.
  intros Hcall.
  apply fillInDevices_Ok_inv in Hcall
    as (l & w & r & h1 & c1 & serverKeys1 & Hptr & Hl & Hr & Hwriter & Hreader
        & Hw' & Hr' & Hext).
  pose proof (fillInDevicesAndServerMap_listed _ _ _ _ _ _ _ _ _ _ _ _ Hwriter)
    as Hlisted1.
  pose proof (fillInDevicesAndServerMap_listed _ _ _ _ _ _ _ _ _ _ _ _ Hreader)
    as Hlisted2.
  split.
  - intros u keys Hin. destruct (Hlisted1 u keys Hin) as [[b Hb] Hall].
    assert (read_tkm h' (WKeys w) !! u = Some b) as Hb'.
    { eapply lookup_weaken; [done|]. by eapply extends_read_tkm. }
    split.
    { eexists. split; [done|]. simpl. by rewrite Hb'. }
    intros k Hk. destruct (Hall k Hk) as [info Hinfo].
    eapply extends_record_kept in Hinfo; [|done].
    eexists _, info. split; [done|].
    unfold TLFWriterKeyBundle_IsWriter, writer_record, GetTLFCryptKeyInfo.
    rewrite Hw'. cbn [WKeys]. split_and!.
    + apply bool_decide_eq_true. by rewrite Hinfo.
    + done.
    + unfold tkm_index in Hinfo. rewrite Hb' in *. simpl in Hinfo.
      by rewrite Hinfo.
  - intros u keys Hin. destruct (Hlisted2 u keys Hin) as [[b Hb] Hall].
    split.
    { eexists. split; [done|]. by rewrite Hb. }
    intros k Hk. destruct (Hall k Hk) as [info Hinfo].
    exists r. split; [done|].
    unfold TLFReaderKeyBundle_IsReader, reader_record. rewrite Hr'.
    rewrite Hinfo. split; [by apply bool_decide_eq_true|done].
Qed.

(** In a key map without sharing, a record that a pass has added belongs
    to a listed device of a listed user. *)
Lemma fillInDevicesAndServerMap_iter_only_listed newIndex cryptBundles ePubKey
    ePrivKey tlfCryptKey u0 keys0 newServerKeys h c r h1 c1 :
  key_map_separated h cryptBundles →
  fillInDevicesAndServerMap_iter newIndex cryptBundles ePubKey ePrivKey
    tlfCryptKey u0 keys0 newServerKeys (h, c) = Returns (r, (h1, c1)) →
  key_map_separated h1 cryptBundles
  ∧ ∀ u kid, key_map_record h cryptBundles u kid = None →
      is_Some (key_map_record h1 cryptBundles u kid) →
      u = u0 ∧ ∃ k, k ∈ keys0 ∧ KID k = kid.
Proof.
  intros Hsep. rewrite fillInDevicesAndServerMap_iter_eq.
  destruct (ensure_bundle h cryptBundles u0) as [h0|] eqn:Hensure; [|done].
  destruct (ensure_bundle_separated _ _ _ _ Hsep Hensure)
    as (Hsep0 & Hsome0 & _ & Hrec0 & _ & _).
  destruct (fillInDeviceInfo _ _ _ _ _ _ _) as [[[osm oerr] [h2 c2]]|]
    eqn:Hfill; [|done].
  intros Hres.
  assert (h2 = h1) as ->.
  { destruct oerr; by injection Hres as _ -> _. }
  clear Hres.
  destruct (fillInDeviceInfo_frame _ _ _ _ _ _ _ _ _ _ _ Hfill)
    as (Htkms & Hdom & Hframe).
  assert (read_tkm h1 cryptBundles = read_tkm h0 cryptBundles) as Hread
    by by apply read_tkm_ext.
  split.
  { intros u l. rewrite Hread. intros Hu.
    destruct (Hsep0 u l Hu) as [Hin Huniq]. split; [by rewrite Hdom|].
    apply Huniq. }
  intros u kid. rewrite <- Hrec0. unfold key_map_record, tkm_index.
  rewrite Hread. intros Hnone Hsome.
  destruct (decide (u = u0)) as [->|Hne].
  - split; [done|].
    assert (∃ r0, fillInDeviceInfo_loop
                    (default None (read_tkm h0 cryptBundles !! u0)) u0
                    tlfCryptKey ePrivKey newIndex keys0 ∅ (h0, c)
                  = Returns (r0, (h1, c2))) as [r0 Hloop].
    { apply fillInDeviceInfo_Returns in Hfill
        as [(serverMap & Hloop & _)|(e & Hloop & _)]; by eexists. }
    by eapply fillInDeviceInfo_loop_only_listed.
  - exfalso.
    destruct (read_tkm h0 cryptBundles !! u) as [[l|]|] eqn:Hu; simpl in *;
      [|by destruct Hsome..].
    rewrite Hframe in Hsome.
    { rewrite Hnone in Hsome. by destruct Hsome. }
    unfold tkm_index. intros Heq.
    destruct (read_tkm h0 cryptBundles !! u0) as [b|] eqn:Hu0; [|done].
    simpl in Heq. subst b.
    destruct (Hsep0 u l Hu) as [_ Huniq]. by apply Hne, eq_sym, Huniq.
Qed.

Lemma fillInDevicesAndServerMap_only_listed newIndex cryptKeys cryptBundles
    ePubKey ePrivKey tlfCryptKey newServerKeys h c r h' c' :
  key_map_separated h cryptBundles →
  fillInDevicesAndServerMap newIndex cryptKeys cryptBundles ePubKey ePrivKey
    tlfCryptKey newServerKeys (h, c) = Returns (r, (h', c')) →
  ∀ u kid, key_map_record h cryptBundles u kid = None →
    is_Some (key_map_record h' cryptBundles u kid) →
    ∃ keys k, (u, keys) ∈ cryptKeys ∧ k ∈ keys ∧ KID k = kid.
Proof.
  revert newServerKeys h c.
  induction cryptKeys as [|[u0 keys0] rest IH];
    intros newServerKeys h c Hsep Hpass u kid Hnone Hsome.
  { injection Hpass as _ <- _. rewrite Hnone in Hsome. by destruct Hsome. }
  simpl in Hpass. apply bind_res_Returns in Hpass
    as [(e & Hfail & _)|(nsk1 & [h1 c1] & Hok & Hrest)].
  - destruct (fillInDevicesAndServerMap_iter_only_listed _ _ _ _ _ _ _ _ _ _
                _ _ _ Hsep Hfail) as [_ Hiter].
    destruct (Hiter u kid Hnone Hsome) as (-> & k & Hk & Hkid).
    exists keys0, k. split; [apply list_elem_of_here|done].
  - destruct (fillInDevicesAndServerMap_iter_only_listed _ _ _ _ _ _ _ _ _ _
                _ _ _ Hsep Hok) as [Hsep1 Hiter].
    destruct (key_map_record h1 cryptBundles u kid) as [info|] eqn:Hrec1.
    + destruct (Hiter u kid Hnone) as (-> & k & Hk & Hkid).
      { by rewrite Hrec1. }
      exists keys0, k. split; [apply list_elem_of_here|done].
    + destruct (IH _ _ _ Hsep1 Hrest u kid Hrec1 Hsome)
        as (keys & k & Hin & Hk & Hkid).
      exists keys, k. split; [by apply list_elem_of_further|done].
Qed.

(** X8: a successful [fillInDevices] call on a bundle without sharing
    gives records to listed devices only: a device that has gained a writer
    record is listed for that user in [wKeys], a device that has gained a
    reader record is listed for that user in [rKeys], and a user listed in
    neither has no entry in the returned map. *)
Theorem fillInDevices_only_listed_devices (tkb : TLFKeyBundle)
    (wKeys rKeys : list (keybase1_UID * list CryptPublicKey))
    (ePubKey : TLFEphemeralPublicKey) (ePrivKey : TLFEphemeralPrivateKey)
    (tlfCryptKey : TLFCryptKey) (h : store) (c : C)
    (newServerKeys : serverKeyMap)
    (h' : store) (c' : C) :
  separated h tkb → NoDup wKeys.*1 → NoDup rKeys.*1 →
  fillInDevices tkb wKeys rKeys ePubKey ePrivKey tlfCryptKey (h, c)
  = Returns ((Some newServerKeys, None), (h', c')) →
  (∀ u kid, new_writer_device h h' tkb u kid →
     ∃ keys k, (u, keys) ∈ wKeys ∧ k ∈ keys ∧ KID k = kid)
  ∧ (∀ u kid, new_reader_device h h' tkb u kid →
       ∃ keys k, (u, keys) ∈ rKeys ∧ k ∈ keys ∧ KID k = kid)
  ∧ (∀ u, u ∉ wKeys.*1 → u ∉ rKeys.*1 → newServerKeys !! u = None).
Proof.
  intros Hsep Hndw Hndr Hcall.
  destruct (fillInDevices_passes _ _ _ _ _ _ _ _ _ _ _ Hsep Hndw Hndr Hcall)
    as (l & w & r & h1 & c1 & serverKeys1 & Hptr & Hw & Hw' & Hr & Hr' & _ & _
        & Hsepw & Hsepr & Hwriter & Hreader).
  assert (key_map_separated (with_ephemeral_key h l w ePubKey) (WKeys w))
    as Hsepw' by exact Hsepw.
  assert (∀ u kid, new_writer_device h h' tkb u kid →
            ∃ keys k, (u, keys) ∈ wKeys ∧ k ∈ keys ∧ KID k = kid) as Hwnew.
  { intros u kid [Hnone Hsome]. rewrite Hw in Hnone. rewrite Hw' in Hsome.
    change (key_map_record (with_ephemeral_key h l w ePubKey) (WKeys w) u kid
            = None) in Hnone.
    by eapply (fillInDevicesAndServerMap_only_listed _ _ _ _ _ _ _ _ _ _ _ _
                 Hsepw' Hwriter). }
  assert (∀ u kid, new_reader_device h h' tkb u kid →
            ∃ keys k, (u, keys) ∈ rKeys ∧ k ∈ keys ∧ KID k = kid) as Hrnew.
  { intros u kid [Hnone Hsome]. rewrite Hr in Hnone. rewrite Hr' in Hsome.
    by eapply (fillInDevicesAndServerMap_only_listed _ _ _ _ _ _ _ _ _ _ _ _
                 Hsepr Hreader). }
  split_and!; [done..|].
  intros u Hnw Hnr.
  destruct (fillInDevicesAndServerMap_server_keys _ _ _ _ _ _ _ _ _ _ _ _
              Hndw Hsepw' Hwriter) as (_ & _ & _ & _ & Hother1 & _).
  destruct (fillInDevicesAndServerMap_server_keys _ _ _ _ _ _ _ _ _ _ _ _
              Hndr Hsepr Hreader) as (_ & _ & _ & _ & Hother2 & _).
  destruct (Hother1 u Hnw) as [Heq1 _]. destruct (Hother2 u Hnr) as [Heq2 _].
  by rewrite Heq2, Heq1.
Qed.

(** X9: the devices of a user who is listed as a writer, after a
    successful call on a bundle without sharing.  [GetTLFCryptPublicKeys]
    returns the devices that had a writer record and the devices listed
    for the user in [wKeys], and [GetTLFCryptKeyInfo] finds exactly these.
    A device of the user that has a reader record only and is not listed
    in [wKeys] is not found. *)
Theorem fillInDevices_devices_of_listed_writer (tkb : TLFKeyBundle)
    (wKeys rKeys : list (keybase1_UID * list CryptPublicKey))
    (ePubKey : TLFEphemeralPublicKey) (ePrivKey : TLFEphemeralPrivateKey)
    (tlfCryptKey : TLFCryptKey) (h : store) (c : C)
    (newServerKeys : serverKeyMap)
    (h' : store) (c' : C) (u : keybase1_UID) (keys : list CryptPublicKey) :
  separated h tkb → NoDup wKeys.*1 → NoDup rKeys.*1 →
  fillInDevices tkb wKeys rKeys ePubKey ePrivKey tlfCryptKey (h, c)
  = Returns ((Some newServerKeys, None), (h', c')) →
  (u, keys) ∈ wKeys →
  ∃ kids,
    GetTLFCryptPublicKeys h' tkb u = Returns (kids, true)
    ∧ (∀ kid, kid ∈ kids
              ↔ is_Some (writer_record h tkb u kid)
                ∨ ∃ k, k ∈ keys ∧ KID k = kid)
    ∧ (∀ k, KID k ∈ kids
            ↔ ∃ info, GetTLFCryptKeyInfo h' tkb u k = Returns (Some info, None))
    ∧ ∀ k, writer_record h tkb u (KID k) = None →
           (∀ k', k' ∈ keys → KID k' ≠ KID k) →
           GetTLFCryptKeyInfo h' tkb u k = Returns (None, None).
Proof.
  intros Hsep Hndw Hndr Hcall Hin.
  destruct (fillInDevices_passes _ _ _ _ _ _ _ _ _ _ _ Hsep Hndw Hndr Hcall)
    as (l & w & r & h1 & c1 & serverKeys1 & Hptr & Hw & Hw' & _ & _ & _ & _
        & Hsepw & _ & Hwriter & _).
  destruct (fillInDevices_Ok_inv _ _ _ _ _ _ _ _ _ _ _ Hcall)
    as (l0 & w0 & r0 & h10 & c10 & sk0 & Hptr0 & Hl0 & _ & Hwriter0 & _
        & Hderef' & _ & Hext).
  pose proof (fillInDevices_records _ _ _ _ _ _ _ _ _ _ _ Hcall)
    as (_ & _ & Hkept & _).
  cbv zeta in Hwriter0.
  destruct (fillInDevicesAndServerMap_listed _ _ _ _ _ _ _ _ _ _ _ _ Hwriter0
              u keys Hin) as [[b Hb] Hall].
  assert (read_tkm h' (WKeys w0) !! u = Some b) as Hb'.
  { eapply lookup_weaken; [done|]. by eapply extends_read_tkm. }
  assert (∀ kid, writer_record h' tkb u kid = read_uckb h' b !! kid) as Hrec'.
  { intros kid. unfold writer_record, tkm_index. rewrite Hderef'. simpl.
    by rewrite Hb'. }
  assert (key_map_separated (with_ephemeral_key h l w ePubKey) (WKeys w))
    as Hsepw' by exact Hsepw.
  assert (∀ kid, is_Some (writer_record h' tkb u kid)
                 ↔ is_Some (writer_record h tkb u kid)
                   ∨ ∃ k, k ∈ keys ∧ KID k = kid) as Hdevices.
  { intros kid. split.
    - intros Hsome.
      destruct (writer_record h tkb u kid) as [info|] eqn:Hold; [by left|].
      right. rewrite Hw in Hold. rewrite Hw' in Hsome.
      change (key_map_record (with_ephemeral_key h l w ePubKey) (WKeys w) u kid
              = None) in Hold.
      destruct (fillInDevicesAndServerMap_only_listed _ _ _ _ _ _ _ _ _ _ _ _
                  Hsepw' Hwriter u kid Hold Hsome)
        as (keys' & k & Hin' & Hk & Hkid).
      rewrite (NoDup_fst_unique _ _ _ _ Hndw Hin Hin'). by exists k.
    - intros [[info Hinfo]|(k & Hk & <-)].
      + exists info. by apply Hkept.
      + destruct (Hall k Hk) as [info Hinfo].
        eapply extends_record_kept in Hinfo; [|done].
        exists info. unfold writer_record. by rewrite Hderef'. }
  assert (∀ k, GetTLFCryptKeyInfo h' tkb u k
               = Returns (read_uckb h' b !! KID k, None)) as Hget.
  { intros k. unfold GetTLFCryptKeyInfo. rewrite Hderef'. simpl.
    by rewrite Hb'. }
  exists (UserCryptKeyBundle_GetKIDs h' b). split_and!.
  - unfold GetTLFCryptPublicKeys. rewrite Hderef'. simpl. by rewrite Hb'.
  - intros kid. by rewrite elem_of_GetKIDs, <- Hrec', Hdevices.
  - intros k. rewrite elem_of_GetKIDs, Hget. split.
    + intros [info ->]. by exists info.
    + intros [info [= ->]]. by exists info.
  - intros k Hnone Hunlisted. rewrite Hget, <- Hrec'.
    destruct (writer_record h' tkb u (KID k)) as [info|] eqn:Hrec; [|done].
    destruct (proj1 (Hdevices (KID k))) as [Hold|(k' & Hk' & Hkid)].
    + by rewrite Hrec.
    + rewrite Hnone in Hold. by destruct Hold.
    + by destruct (Hunlisted k' Hk').
Qed.

(** The bundle structs and the maps before and after a call that
    returns. *)
Lemma fillInDevices_lookups tkb wKeys rKeys ePubKey ePrivKey tlfCryptKey
    h (c : C) res h' c' :
  fillInDevices tkb wKeys rKeys ePubKey ePrivKey tlfCryptKey (h, c)
  = Returns (res, (h', c')) →
  ∃ w idx,
    deref_wkb h (TLFWriterKeyBundle_ptr tkb) = Returns w
    ∧ deref_wkb h' (TLFWriterKeyBundle_ptr tkb)
      = Returns (mkTLFWriterKeyBundle (WKeys w) (TLFPublicKey_of w)
                   (TLFEphemeralPublicKeys_of w ++ [ePubKey]))
    ∧ idx = Z.of_nat (length (TLFEphemeralPublicKeys_of w ++ [ePubKey])) - 1
    ∧ deref_rkb h' (TLFReaderKeyBundle_ptr tkb)
      = deref_rkb h (TLFReaderKeyBundle_ptr tkb)
    ∧ (∀ tkm : TLFKeyMap, read_tkm h tkm ⊆ read_tkm h' tkm)
    ∧ (∀ uckb : UserCryptKeyBundle, read_uckb h uckb ⊆ read_uckb h' uckb)
    ∧ (∀ (tkm : TLFKeyMap) user kid info,
         read_uckb h' (tkm_index h' tkm user) !! kid = Some info →
         read_uckb h (tkm_index h tkm user) !! kid = Some info
         ∨ EPubKeyIndex info = idx).
Proof.
  intros Hcall.
  apply fillInDevices_extends in Hcall as (l & w & Hptr & Hl & Hext).
  exists w, (Z.of_nat (length (TLFEphemeralPublicKeys_of w ++ [ePubKey])) - 1).
  rewrite Hptr. split_and!.
  - simpl. by rewrite Hl.
  - simpl. rewrite (ext_wkbs _ _ _ Hext). simpl. by rewrite lookup_insert_eq.
  - done.
  - unfold deref_rkb. by rewrite (ext_rkbs _ _ _ Hext).
  - intros tkm. by apply (extends_read_tkm _ _ _ tkm) in Hext.
  - intros uckb. by apply (extends_read_uckb _ _ _ uckb) in Hext.
  - intros tkm user kid info Hinfo.
    eapply extends_record_new in Hinfo as [Hold|[_ Hidx]]; [| |done].
    + by left.
    + by right.
Qed.

(** X10: whatever [fillInDevices] returns, a record that
    [GetTLFCryptKeyInfo] finds afterwards and did not find before carries
    the index of the new ephemeral public key, and
    [GetTLFEphemeralPublicKey] returns that key for it. *)
Theorem fillInDevices_new_record_resolves_to_new_key (tkb : TLFKeyBundle)
    (wKeys rKeys : list (keybase1_UID * list CryptPublicKey))
    (ePubKey : TLFEphemeralPublicKey) (ePrivKey : TLFEphemeralPrivateKey)
    (tlfCryptKey : TLFCryptKey) (h : store) (c : C)
    (res : option serverKeyMap * option error)
    (h' : store) (c' : C) :
  fillInDevices tkb wKeys rKeys ePubKey ePrivKey tlfCryptKey (h, c)
  = Returns (res, (h', c')) →
  ∀ user k info oerr,
    GetTLFCryptKeyInfo h' tkb user k = Returns (Some info, oerr) →
    GetTLFCryptKeyInfo h tkb user k ≠ Returns (Some info, None) →
    EPubKeyIndex info = Z.of_nat (length (ephemeral_keys h' tkb)) - 1
    ∧ GetTLFEphemeralPublicKey h' tkb user k = Returns (Ok ePubKey).
Proof.
  intros Hcall user k info oerr Hget' Hget.
  apply fillInDevices_lookups in Hcall
    as (w & idx & Hw & Hw' & Hidx & Hr' & Htkm & Huckb & Hnew).
  assert (EPubKeyIndex info = idx) as Hindex.
  { unfold GetTLFCryptKeyInfo in Hget', Hget.
    rewrite Hw' in Hget'. rewrite Hw in Hget. cbn [WKeys] in Hget'.
    rewrite Hr' in Hget'.
    destruct (read_tkm h' (WKeys w) !! user) as [b|] eqn:Hb'.
    - injection Hget' as Hinfo _.
      destruct (Hnew (WKeys w) user (KID k) info) as [Hold|Hi]; [|exfalso|done].
      { unfold tkm_index. by rewrite Hb'. }
      apply tkm_index_record in Hold as (b0 & Hb0 & Hinfo0).
      rewrite Hb0, Hinfo0 in Hget. done.
    - assert (read_tkm h (WKeys w) !! user = None) as Hb.
      { eapply lookup_weaken_None; [done|]. apply Htkm. }
      rewrite Hb in Hget.
      destruct (deref_rkb h (TLFReaderKeyBundle_ptr tkb)) as [r|]; [|done].
      destruct (read_tkm h' (RKeys r) !! user) as [b|] eqn:Hrb'; [|done].
      injection Hget' as Hinfo _.
      destruct (Hnew (RKeys r) user (KID k) info) as [Hold|Hi]; [|exfalso|done].
      { unfold tkm_index. by rewrite Hrb'. }
      apply tkm_index_record in Hold as (b0 & Hb0 & Hinfo0).
      rewrite Hb0, Hinfo0 in Hget. done. }
  unfold ephemeral_keys, GetTLFEphemeralPublicKey. rewrite Hget', Hw'.
  cbn [TLFEphemeralPublicKeys_of]. rewrite Hindex, Hidx. split; [done|].
  assert (oerr = None) as -> by by eapply GetTLFCryptKeyInfo_no_error.
  by rewrite slice_index_last.
Qed.

(** X11: whatever [fillInDevices] returns, it keeps the answers of the
    two lookups for a user who had a writer bundle, and for a user who has
    none afterwards: the record that [GetTLFCryptKeyInfo] found is found,
    and the key that [GetTLFEphemeralPublicKey] returned is returned. *)
Theorem fillInDevices_keeps_lookups (tkb : TLFKeyBundle)
    (wKeys rKeys : list (keybase1_UID * list CryptPublicKey))
    (ePubKey : TLFEphemeralPublicKey) (ePrivKey : TLFEphemeralPrivateKey)
    (tlfCryptKey : TLFCryptKey) (h : store) (c : C)
    (res : option serverKeyMap * option error)
    (h' : store) (c' : C) :
  fillInDevices tkb wKeys rKeys ePubKey ePrivKey tlfCryptKey (h, c)
  = Returns (res, (h', c')) →
  ∀ user k,
    has_writer_bundle h tkb user ∨ ¬ has_writer_bundle h' tkb user →
    (∀ info, GetTLFCryptKeyInfo h tkb user k = Returns (Some info, None) →
             GetTLFCryptKeyInfo h' tkb user k = Returns (Some info, None))
    ∧ (∀ e, GetTLFEphemeralPublicKey h tkb user k = Returns (Ok e) →
            GetTLFEphemeralPublicKey h' tkb user k = Returns (Ok e)).
Proof.
  intros Hcall user k Hbundle.
  apply fillInDevices_lookups in Hcall
    as (w & idx & Hw & Hw' & Hidx & Hr' & Htkm & Huckb & Hnew).
  assert (∀ info, GetTLFCryptKeyInfo h tkb user k = Returns (Some info, None) →
            GetTLFCryptKeyInfo h' tkb user k = Returns (Some info, None))
    as Hkept.
  { intros info. unfold GetTLFCryptKeyInfo. rewrite Hw, Hw', Hr'.
    cbn [WKeys].
    destruct (read_tkm h (WKeys w) !! user) as [b|] eqn:Hb.
    - intros [= Hinfo].
      rewrite (lookup_weaken _ _ _ _ Hb (Htkm _)).
      by rewrite (lookup_weaken _ _ _ _ Hinfo (Huckb _)).
    - destruct (read_tkm h' (WKeys w) !! user) as [b'|] eqn:Hb'.
      { destruct Hbundle as [(w0 & Hw0 & Hsome)|Hnone].
        - rewrite Hw in Hw0. injection Hw0 as <-. rewrite Hb in Hsome.
          by destruct Hsome.
        - destruct Hnone. eexists. split; [done|]. simpl. by rewrite Hb'. }
      destruct (deref_rkb h (TLFReaderKeyBundle_ptr tkb)) as [r|]; [|done].
      destruct (read_tkm h (RKeys r) !! user) as [b|] eqn:Hrb; [|done].
      intros [= Hinfo].
      rewrite (lookup_weaken _ _ _ _ Hrb (Htkm _)).
      by rewrite (lookup_weaken _ _ _ _ Hinfo (Huckb _)). }
  split; [done|].
  intros e. unfold GetTLFEphemeralPublicKey. rewrite Hw, Hw'.
  destruct (GetTLFCryptKeyInfo h tkb user k) as [[[info|] [err|]]|] eqn:Hget;
    try done.
  rewrite (Hkept info eq_refl). cbn [TLFEphemeralPublicKeys_of].
  destruct (slice_index (TLFEphemeralPublicKeys_of w) (EPubKeyIndex info))
    as [e0|] eqn:Hslice; [|done].
  intros [= <-]. by rewrite (slice_index_app_l _ _ _ _ Hslice).
Qed.

(** A pass over users who have a per-user bundle with a record for each
    listed device does nothing at all. *)
Lemma fillInDevicesAndServerMap_all_present newIndex cryptKeys cryptBundles
    ePubKey ePrivKey tlfCryptKey newServerKeys h c :
  (∀ u keys, (u, keys) ∈ cryptKeys →
     is_Some (read_tkm h cryptBundles !! u)
     ∧ ∀ k, k ∈ keys →
            is_Some (read_uckb h (tkm_index h cryptBundles u) !! KID k)) →
  fillInDevicesAndServerMap newIndex cryptKeys cryptBundles ePubKey ePrivKey
    tlfCryptKey newServerKeys (h, c) = Returns (Ok newServerKeys, (h, c)).
Proof.
  induction cryptKeys as [|[u0 keys0] rest IH]; intros Hall; [done|].
  simpl. unfold bind_res, bind at 1.
  rewrite fillInDevicesAndServerMap_iter_eq.
  destruct (Hall u0 keys0) as [[b Hb] Hkeys]; [apply list_elem_of_here|].
  unfold ensure_bundle. rewrite Hb.
  unfold fillInDeviceInfo, bind.
  rewrite fillInDeviceInfo_loop_present by done.
  simpl. rewrite map_size_empty. simpl.
  apply IH. intros u keys Hin. apply Hall. by apply list_elem_of_further.
Qed.

Lemma fillInDevices_all_present_eq tkb wKeys rKeys ePubKey ePrivKey
    tlfCryptKey h c l w r :
  TLFWriterKeyBundle_ptr tkb = Some l → wkbs h !! l = Some w →
  deref_rkb h (TLFReaderKeyBundle_ptr tkb) = Returns r →
  (∀ u keys, (u, keys) ∈ wKeys →
     is_Some (read_tkm h (WKeys w) !! u)
     ∧ ∀ k, k ∈ keys →
            is_Some (read_uckb h (tkm_index h (WKeys w) u) !! KID k)) →
  (∀ u keys, (u, keys) ∈ rKeys →
     is_Some (read_tkm h (RKeys r) !! u)
     ∧ ∀ k, k ∈ keys →
            is_Some (read_uckb h (tkm_index h (RKeys r) u) !! KID k)) →
  fillInDevices tkb wKeys rKeys ePubKey ePrivKey tlfCryptKey (h, c)
  = Returns ((Some ∅, None), (with_ephemeral_key h l w ePubKey, c)).
Proof.
  intros Hptr Hl Hr Hwriters Hreaders.
  rewrite fillInDevices_eq, Hptr, Hl. cbv zeta.
  rewrite (fillInDevicesAndServerMap_all_present _ wKeys) by done.
  replace (deref_rkb (with_ephemeral_key h l w ePubKey)
             (TLFReaderKeyBundle_ptr tkb)) with (Returns r) by done.
  by rewrite (fillInDevicesAndServerMap_all_present _ rKeys).
Qed.

(** X12: when every listed user has a per-user bundle with a record for
    each listed device, [fillInDevices] calls no crypto step and returns
    the empty map without error; it appends the ephemeral public key and
    changes nothing else in the store. *)
Theorem fillInDevices_all_present_only_appends_key (tkb : TLFKeyBundle)
    (wKeys rKeys : list (keybase1_UID * list CryptPublicKey))
    (ePubKey : TLFEphemeralPublicKey) (ePrivKey : TLFEphemeralPrivateKey)
    (tlfCryptKey : TLFCryptKey) (h : store) (c : C)
    (w : TLFWriterKeyBundle) (r : TLFReaderKeyBundle) :
  deref_wkb h (TLFWriterKeyBundle_ptr tkb) = Returns w →
  deref_rkb h (TLFReaderKeyBundle_ptr tkb) = Returns r →
  (∀ u keys, (u, keys) ∈ wKeys →
     has_writer_bundle h tkb u
     ∧ ∀ k, k ∈ keys → is_Some (writer_record h tkb u (KID k))) →
  (∀ u keys, (u, keys) ∈ rKeys →
     has_reader_bundle h tkb u
     ∧ ∀ k, k ∈ keys → is_Some (reader_record h tkb u (KID k))) →
  ∃ h',
    fillInDevices tkb wKeys rKeys ePubKey ePrivKey tlfCryptKey (h, c)
    = Returns ((Some ∅, None), (h', c))
    ∧ ephemeral_keys h' tkb = ephemeral_keys h tkb ++ [ePubKey]
    ∧ uckbs h' = uckbs h ∧ tkms h' = tkms h ∧ rkbs h' = rkbs h
    ∧ ∀ l, TLFWriterKeyBundle_ptr tkb ≠ Some l → wkbs h' !! l = wkbs h !! l.
Proof.
  intros Hw Hr Hwriters Hreaders.
  unfold has_writer_bundle, writer_record in Hwriters.
  unfold has_reader_bundle, reader_record in Hreaders.
  rewrite Hw in Hwriters. rewrite Hr in Hreaders.
  unfold ephemeral_keys. rewrite Hw.
  unfold deref_wkb in Hw.
  destruct (TLFWriterKeyBundle_ptr tkb) as [l|] eqn:Hptr; [|done].
  destruct (wkbs h !! l) as [w0|] eqn:Hl; [|done]. injection Hw as ->.
  exists (with_ephemeral_key h l w ePubKey). split_and!; try done.
  - apply (fillInDevices_all_present_eq _ _ _ _ _ _ _ _ l w r); try done.
    + intros u keys Hin.
      destruct (Hwriters u keys Hin) as [(w0 & [= <-] & Hsome) Hkeys]. done.
    + intros u keys Hin.
      destruct (Hreaders u keys Hin) as [(r0 & [= <-] & Hsome) Hkeys]. done.
  - simpl. by rewrite lookup_insert_eq.
  - intros l' Hne. simpl. rewrite lookup_insert_ne; [done|congruence].
Qed.

(** X13: a call that lists users and devices of an earlier successful
    call again, with whatever keys, calls no crypto step and returns the
    empty map; the bundle has both ephemeral public keys and the records it
    had. *)
Theorem fillInDevices_idempotent (tkb : TLFKeyBundle)
    (wKeys rKeys : list (keybase1_UID * list CryptPublicKey))
    (ePubKey : TLFEphemeralPublicKey) (ePrivKey : TLFEphemeralPrivateKey)
    (tlfCryptKey : TLFCryptKey) (h : store) (c : C)
    (newServerKeys : serverKeyMap)
    (h1 : store) (c1 : C) :
  fillInDevices tkb wKeys rKeys ePubKey ePrivKey tlfCryptKey (h, c)
  = Returns ((Some newServerKeys, None), (h1, c1)) →
  ∀ wKeys2 rKeys2 ePubKey2 ePrivKey2 tlfCryptKey2,
    wKeys2 ⊆ wKeys → rKeys2 ⊆ rKeys →
    ∃ h2,
      fillInDevices tkb wKeys2 rKeys2 ePubKey2 ePrivKey2 tlfCryptKey2 (h1, c1)
      = Returns ((Some ∅, None), (h2, c1))
      ∧ ephemeral_keys h2 tkb = ephemeral_keys h tkb ++ [ePubKey; ePubKey2]
      ∧ uckbs h2 = uckbs h1 ∧ tkms h2 = tkms h1 ∧ rkbs h2 = rkbs h1
      ∧ (∀ user kid, writer_record h2 tkb user kid
                     = writer_record h1 tkb user kid)
      ∧ (∀ user kid, reader_record h2 tkb user kid
                     = reader_record h1 tkb user kid).
Proof.
  intros Hcall wKeys2 rKeys2 ePubKey2 ePrivKey2 tlfCryptKey2 Hsubw Hsubr.
  apply fillInDevices_Ok_inv in Hcall
    as (l & w & r & h0 & c0 & serverKeys1 & Hptr & Hl & Hr & Hwriter & Hreader
        & Hw' & Hr' & Hext).
  pose proof (fillInDevicesAndServerMap_listed _ _ _ _ _ _ _ _ _ _ _ _ Hwriter)
    as Hlisted1.
  pose proof (fillInDevicesAndServerMap_listed _ _ _ _ _ _ _ _ _ _ _ _ Hreader)
    as Hlisted2.
  rewrite Hptr in Hw'. unfold deref_wkb in Hw'.
  destruct (wkbs h1 !! l) as [w1|] eqn:Hl1; [|done]. injection Hw' as ->.
  eexists. split_and!.
  - eapply (fillInDevices_all_present_eq _ _ _ _ _ _ _ _ l _ r); try done.
    + intros u keys Hin. cbn [WKeys].
      destruct (Hlisted1 u keys (Hsubw _ Hin)) as [[b Hb] Hall]. split.
      * exists b. eapply lookup_weaken; [done|]. by eapply extends_read_tkm.
      * intros k Hk. destruct (Hall k Hk) as [info Hinfo]. exists info.
        by eapply extends_record_kept.
    + intros u keys Hin. by apply Hlisted2, Hsubr.
  - unfold ephemeral_keys, deref_wkb. rewrite Hptr, Hl. simpl.
    rewrite lookup_insert_eq. simpl. by rewrite <- app_assoc.
  - done.
  - done.
  - done.
  - intros user kid. unfold writer_record, deref_wkb. rewrite Hptr, Hl1. simpl.
    by rewrite lookup_insert_eq.
  - intros user kid. unfold reader_record.
    by replace (deref_rkb (with_ephemeral_key h1 l _ ePubKey2)
                  (TLFReaderKeyBundle_ptr tkb))
      with (deref_rkb h1 (TLFReaderKeyBundle_ptr tkb)) by done.
Qed.

(** A pass over a listed user panics on the nil key map, at the
    assignment of line 263. *)
Lemma fillInDevicesAndServerMap_nil_key_map newIndex u keys rest ePubKey
    ePrivKey tlfCryptKey newServerKeys h (c : C) :
  fillInDevicesAndServerMap newIndex ((u, keys) :: rest) None ePubKey ePrivKey
    tlfCryptKey newServerKeys (h, c) = Panics.
Proof.
  simpl. unfold bind_res, bind.
  by rewrite fillInDevicesAndServerMap_iter_eq.
Qed.

(** X14: where [fillInDevices] panics on nil.  It panics when the writer
    bundle pointer is nil; when the writer key map is nil and a writer is
    listed; when no writer is listed and the reader bundle pointer is nil,
    even if no reader is listed; when no writer is listed, the reader key
    map is nil and a reader is listed. *)
Theorem fillInDevices_panics_on_nil (tkb : TLFKeyBundle)
    (wKeys rKeys : list (keybase1_UID * list CryptPublicKey))
    (ePubKey : TLFEphemeralPublicKey) (ePrivKey : TLFEphemeralPrivateKey)
    (tlfCryptKey : TLFCryptKey) (h : store) (c : C) :
  (deref_wkb h (TLFWriterKeyBundle_ptr tkb) = Panics →
   fillInDevices tkb wKeys rKeys ePubKey ePrivKey tlfCryptKey (h, c) = Panics)
  ∧ (∀ w, deref_wkb h (TLFWriterKeyBundle_ptr tkb) = Returns w →
       WKeys w = None → wKeys ≠ [] →
       fillInDevices tkb wKeys rKeys ePubKey ePrivKey tlfCryptKey (h, c)
       = Panics)
  ∧ (∀ w, deref_wkb h (TLFWriterKeyBundle_ptr tkb) = Returns w →
       wKeys = [] →
       deref_rkb h (TLFReaderKeyBundle_ptr tkb) = Panics →
       fillInDevices tkb wKeys rKeys ePubKey ePrivKey tlfCryptKey (h, c)
       = Panics)
  ∧ (∀ w r, deref_wkb h (TLFWriterKeyBundle_ptr tkb) = Returns w →
       wKeys = [] →
       deref_rkb h (TLFReaderKeyBundle_ptr tkb) = Returns r →
       RKeys r = None → rKeys ≠ [] →
       fillInDevices tkb wKeys rKeys ePubKey ePrivKey tlfCryptKey (h, c)
       = Panics).
Proof.
  rewrite fillInDevices_eq. unfold deref_wkb.
  destruct (TLFWriterKeyBundle_ptr tkb) as [l|]; [|by split_and!; intros].
  destruct (wkbs h !! l) as [w|] eqn:Hl; [|by split_and!; intros].
  assert (∀ p, deref_rkb (with_ephemeral_key h l w ePubKey) p = deref_rkb h p)
    as Hrkb by done.
  split_and!.
  - done.
  - intros ? [= <-] Hnil Hne.
    destruct wKeys as [|[u keys] rest]; [done|].
    rewrite Hnil. by rewrite fillInDevicesAndServerMap_nil_key_map.
  - intros ? [= <-] -> Hr. simpl. unfold ret. by rewrite Hrkb, Hr.
  - intros ? r [= <-] -> Hr Hnil Hne. simpl. unfold ret. rewrite Hrkb, Hr.
    destruct rKeys as [|[u keys] rest]; [done|].
    rewrite Hnil. by rewrite fillInDevicesAndServerMap_nil_key_map.
Qed.

(** Provisioning on key maps without nil. *)
Lemma key_map_live_frame h h' other :
  tkms h' = tkms h → dom (uckbs h) ⊆ dom (uckbs h') →
  key_map_live h other → key_map_live h' other.
Proof.
  intros Htkms Hdom [(lk & -> & Hlk) Hentries]. split.
  - exists lk. by rewrite Htkms.
  - intros u b. rewrite (read_tkm_ext _ _ _ Htkms). intros Hb.
    destruct (Hentries u b Hb) as (l & -> & Hl). exists l. split; [done|].
    by apply Hdom.
Qed.

Lemma ensure_bundle_live h cryptBundles u :
  key_map_live h cryptBundles →
  ∃ h0,
    ensure_bundle h cryptBundles u = Returns h0
    ∧ wkbs h0 = wkbs h ∧ rkbs h0 = rkbs h
    ∧ ∀ other, key_map_live h other → key_map_live h0 other.
Proof.
  intros [(lk & -> & Hlk) Hentries]. unfold ensure_bundle.
  destruct (read_tkm h (Some lk) !! u) as [b|] eqn:Hu.
  { by exists h. }
  apply elem_of_dom in Hlk as [mk Hmk]. rewrite Hmk.
  eexists. split; [done|]. split; [done|]. split; [done|].
  set (l := fresh (dom (uckbs h))).
  intros other [(lo & -> & Hlo) Hother]. split.
  - exists lo. split; [done|]. simpl. rewrite dom_insert_L. set_solver.
  - intros u' b. simpl. destruct (decide (lo = lk)) as [->|Hne].
    + rewrite lookup_insert_eq. simpl.
      destruct (decide (u' = u)) as [->|Hneu].
      * rewrite lookup_insert_eq. intros [= <-]. exists l. split; [done|].
        rewrite dom_insert_L. set_solver.
      * rewrite lookup_insert_ne by done. intros Hb.
        destruct (Hother u' b) as (l' & -> & Hl').
        { simpl. by rewrite Hmk. }
        exists l'. split; [done|]. rewrite dom_insert_L. set_solver.
    + rewrite lookup_insert_ne by done. intros Hb.
      destruct (Hother u' b Hb) as (l' & -> & Hl').
      exists l'. split; [done|]. rewrite dom_insert_L. set_solver.
Qed.

Lemma fillInDevicesAndServerMap_iter_live newIndex cryptBundles ePubKey
    ePrivKey tlfCryptKey u keys newServerKeys h c :
  key_map_live h cryptBundles →
  ∃ r h1 c1,
    fillInDevicesAndServerMap_iter newIndex cryptBundles ePubKey ePrivKey
      tlfCryptKey u keys newServerKeys (h, c) = Returns (r, (h1, c1))
    ∧ wkbs h1 = wkbs h ∧ rkbs h1 = rkbs h
    ∧ ∀ other, key_map_live h other → key_map_live h1 other.
Proof.
  intros Hlive. rewrite fillInDevicesAndServerMap_iter_eq.
  destruct (ensure_bundle_live h cryptBundles u Hlive)
    as (h0 & Hensure & Hw0 & Hr0 & Hlive0).
  rewrite Hensure.
  destruct (ensure_bundle_extends newIndex _ _ _ _ Hensure) as [_ [b Hb]].
  destruct (Hlive0 _ Hlive) as [_ Hentries].
  destruct (Hentries u b Hb) as (l & -> & Hl).
  assert (tkm_index h0 cryptBundles u = Some l) as Hindex.
  { unfold tkm_index. by rewrite Hb. }
  destruct (fillInDeviceInfo_loop_total (Some l) u tlfCryptKey ePrivKey
              newIndex keys ∅ h0 c l eq_refl Hl) as (r0 & h1 & c1 & Hloop).
  assert (fillInDeviceInfo (Some l) u tlfCryptKey ePrivKey newIndex keys
            (h0, c)
          = Returns (match r0 with
                     | Ok serverMap => (Some serverMap, None)
                     | Err e => (None, Some e)
                     end, (h1, c1))) as Hfill.
  { unfold fillInDeviceInfo, bind. by rewrite Hloop. }
  rewrite Hindex, Hfill.
  destruct (fillInDeviceInfo_frame _ _ _ _ _ _ _ _ _ _ _ Hfill)
    as (Htkms & Hdom & _).
  pose proof (fillInDeviceInfo_extends _ _ _ _ _ _ _ _ _ _ _ Hfill) as Hext.
  assert (∀ other, key_map_live h other → key_map_live h1 other) as Hlive1.
  { intros other Hother. eapply key_map_live_frame; [done| |by apply Hlive0].
    by rewrite Hdom. }
  destruct r0 as [serverMap|e]; eexists _, h1, c1; (split; [done|]);
    by rewrite (ext_wkbs _ _ _ Hext), (ext_rkbs _ _ _ Hext).
Qed.

Lemma fillInDevicesAndServerMap_live newIndex cryptKeys cryptBundles ePubKey
    ePrivKey tlfCryptKey newServerKeys h c :
  key_map_live h cryptBundles →
  ∃ r h1 c1,
    fillInDevicesAndServerMap newIndex cryptKeys cryptBundles ePubKey ePrivKey
      tlfCryptKey newServerKeys (h, c) = Returns (r, (h1, c1))
    ∧ wkbs h1 = wkbs h ∧ rkbs h1 = rkbs h
    ∧ ∀ other, key_map_live h other → key_map_live h1 other.
Proof.
  revert newServerKeys h c.
  induction cryptKeys as [|[u keys] rest IH]; intros newServerKeys h c Hlive.
  { by eexists _, h, c. }
  simpl. unfold bind_res, bind at 1.
  destruct (fillInDevicesAndServerMap_iter_live newIndex cryptBundles ePubKey
              ePrivKey tlfCryptKey u keys newServerKeys h c Hlive)
    as (r & h1 & c1 & -> & Hw1 & Hr1 & Hlive1).
  destruct r as [newServerKeys1|e].
  - destruct (IH newServerKeys1 h1 c1 (Hlive1 _ Hlive))
      as (r2 & h2 & c2 & -> & Hw2 & Hr2 & Hlive2).
    eexists _, h2, c2. split; [done|]. rewrite Hw2, Hr2. split_and!; try done.
    intros other Hother. by apply Hlive2, Hlive1.
  - by eexists _, h1, c1.
Qed.

(** X15: on a bundle in which no pointer and no map is nil,
    [fillInDevices] returns, with or without error, and the bundle is such
    a bundle afterwards. *)
Theorem fillInDevices_returns_on_live_bundle (tkb : TLFKeyBundle)
    (wKeys rKeys : list (keybase1_UID * list CryptPublicKey))
    (ePubKey : TLFEphemeralPublicKey) (ePrivKey : TLFEphemeralPrivateKey)
    (tlfCryptKey : TLFCryptKey) (h : store) (c : C) :
  live h tkb →
  ∃ res h' c',
    fillInDevices tkb wKeys rKeys ePubKey ePrivKey tlfCryptKey (h, c)
    = Returns (res, (h', c'))
    ∧ live h' tkb.
Proof.
  intros (w & r & Hw & Hr & Hlivew & Hliver).
  rewrite fillInDevices_eq. unfold deref_wkb in Hw.
  destruct (TLFWriterKeyBundle_ptr tkb) as [l|] eqn:Hptr; [|done].
  destruct (wkbs h !! l) as [w0|] eqn:Hl; [|done]. injection Hw as ->.
  cbv zeta.
  set (h0 := with_ephemeral_key h l w ePubKey).
  assert (∀ other, key_map_live h other → key_map_live h0 other) as Hlive0.
  { intros other. by apply key_map_live_frame. }
  destruct (fillInDevicesAndServerMap_live
              (Z.of_nat (length (TLFEphemeralPublicKeys_of w ++ [ePubKey])) - 1)
              wKeys (WKeys w) ePubKey ePrivKey tlfCryptKey ∅ h0 c
              (Hlive0 _ Hlivew))
    as (r1 & h1 & c1 & -> & Hw1 & Hr1 & Hlive1).
  assert (deref_wkb h1 (Some l)
          = Returns (mkTLFWriterKeyBundle (WKeys w) (TLFPublicKey_of w)
                       (TLFEphemeralPublicKeys_of w ++ [ePubKey]))) as Hderef1.
  { unfold deref_wkb. rewrite Hw1. simpl. by rewrite lookup_insert_eq. }
  assert (deref_rkb h1 (TLFReaderKeyBundle_ptr tkb) = Returns r) as Hderefr1.
  { unfold deref_rkb in *. by rewrite Hr1. }
  destruct r1 as [serverKeys1|e].
  - rewrite Hderefr1.
    destruct (fillInDevicesAndServerMap_live
                (Z.of_nat (length (TLFEphemeralPublicKeys_of w ++ [ePubKey])) - 1)
                rKeys (RKeys r) ePubKey ePrivKey tlfCryptKey serverKeys1 h1 c1
                (Hlive1 _ (Hlive0 _ Hliver)))
      as (r2 & h2 & c2 & -> & Hw2 & Hr2 & Hlive2).
    assert (live h2 tkb) as Hlive'.
    { eexists _, r. rewrite Hptr. split_and!.
      - unfold deref_wkb. rewrite Hw2, Hw1. simpl. by rewrite lookup_insert_eq.
      - unfold deref_rkb in *. by rewrite Hr2.
      - by apply Hlive2, Hlive1, Hlive0.
      - by apply Hlive2, Hlive1, Hlive0. }
    destruct r2; by eexists _, h2, c2.
  - eexists _, h1, c1. split; [done|].
    eexists _, r. rewrite Hptr. split_and!; [done..| |].
    + by apply Hlive1, Hlive0.
    + by apply Hlive1, Hlive0.
Qed.

(** What a pass leaves alone: the other key maps, and the per-user
    bundles of the store that are not entries of its key map. *)
Lemma fillInDevicesAndServerMap_iter_frame newIndex cryptBundles ePubKey
    ePrivKey tlfCryptKey u keys newServerKeys h c r h1 c1 :
  fillInDevicesAndServerMap_iter newIndex cryptBundles ePubKey ePrivKey
    tlfCryptKey u keys newServerKeys (h, c) = Returns (r, (h1, c1)) →
  (∀ lk, cryptBundles ≠ Some lk → tkms h1 !! lk = tkms h !! lk)
  ∧ (∀ l, l ∈ dom (uckbs h) →
       (∀ u2, read_tkm h cryptBundles !! u2 ≠ Some (Some l)) →
       uckbs h1 !! l = uckbs h !! l).
Proof.
  rewrite fillInDevicesAndServerMap_iter_eq.
  destruct (ensure_bundle h cryptBundles u) as [h0|] eqn:Hensure; [|done].
  destruct (fillInDeviceInfo _ _ _ _ _ _ _) as [[[osm oerr] [h2 c2]]|]
    eqn:Hfill; [|done].
  intros Hres.
  assert (h2 = h1) as ->.
  { destruct oerr; by injection Hres as _ -> _. }
  clear Hres.
  destruct (fillInDeviceInfo_frame _ _ _ _ _ _ _ _ _ _ _ Hfill)
    as (Htkms & _ & Hframe).
  unfold ensure_bundle in Hensure. unfold tkm_index in Hframe.
  destruct (read_tkm h cryptBundles !! u) as [b|] eqn:Hu.
  - injection Hensure as <-. split; [by rewrite Htkms|].
    intros l Hl Hentry. apply Hframe. rewrite Hu. simpl. intros ->.
    by apply (Hentry u).
  - destruct cryptBundles as [lk|]; [|done].
    destruct (tkms h !! lk) as [mk|] eqn:Hlk; [|done].
    injection Hensure as <-. split.
    + intros lk' Hne. rewrite Htkms. simpl.
      rewrite lookup_insert_ne; [done|congruence].
    + intros l Hl Hentry.
      assert (l ≠ fresh (dom (uckbs h))) as Hfresh.
      { intros ->. by apply is_fresh in Hl. }
      rewrite Hframe.
      * simpl. by rewrite lookup_insert_ne.
      * simpl. rewrite lookup_insert_eq. simpl. rewrite lookup_insert_eq.
        simpl. congruence.
Qed.

Lemma fillInDevicesAndServerMap_frame newIndex cryptKeys cryptBundles ePubKey
    ePrivKey tlfCryptKey newServerKeys h c r h' c' :
  fillInDevicesAndServerMap newIndex cryptKeys cryptBundles ePubKey ePrivKey
    tlfCryptKey newServerKeys (h, c) = Returns (r, (h', c')) →
  (∀ lk, cryptBundles ≠ Some lk → tkms h' !! lk = tkms h !! lk)
  ∧ (∀ l, l ∈ dom (uckbs h) →
       (∀ u2, read_tkm h cryptBundles !! u2 ≠ Some (Some l)) →
       uckbs h' !! l = uckbs h !! l).
Proof.
  revert newServerKeys h c.
  induction cryptKeys as [|[u keys] rest IH]; intros newServerKeys h c Hpass.
  { by injection Hpass as _ <- _. }
  simpl in Hpass. apply bind_res_Returns in Hpass
    as [(e & Hfail & _)|(nsk1 & [h1 c1] & Hok & Hrest)].
  { by eapply fillInDevicesAndServerMap_iter_frame. }
  pose proof (fillInDevicesAndServerMap_iter_extends _ _ _ _ _ _ _ _ _ _ _ _ _
                Hok) as Hext.
  apply fillInDevicesAndServerMap_iter_frame in Hok as [Htkms1 Huckbs1].
  apply IH in Hrest as [Htkms2 Huckbs2]. split.
  - intros lk Hne. by rewrite Htkms2, Htkms1.
  - intros l Hl Hentry. rewrite Huckbs2, Huckbs1; [done..| |].
    + by apply (ext_uckbs_dom _ _ _ Hext).
    + intros u2 Hu2.
      eapply extends_read_tkm_new in Hu2 as [Hold|[_ Hnew]]; [| |done].
      * by apply (Hentry u2).
      * done.
Qed.

Lemma fillInDevices_frame tkb wKeys rKeys ePubKey ePrivKey tlfCryptKey h c
    res h' c' w r :
  deref_wkb h (TLFWriterKeyBundle_ptr tkb) = Returns w →
  deref_rkb h (TLFReaderKeyBundle_ptr tkb) = Returns r →
  fillInDevices tkb wKeys rKeys ePubKey ePrivKey tlfCryptKey (h, c)
  = Returns (res, (h', c')) →
  (∀ l, TLFWriterKeyBundle_ptr tkb ≠ Some l → wkbs h' !! l = wkbs h !! l)
  ∧ rkbs h' = rkbs h
  ∧ (∀ lk, WKeys w ≠ Some lk → RKeys r ≠ Some lk →
       tkms h' !! lk = tkms h !! lk)
  ∧ (∀ l, l ∈ dom (uckbs h) →
       (∀ u, read_tkm h (WKeys w) !! u ≠ Some (Some l)) →
       (∀ u, read_tkm h (RKeys r) !! u ≠ Some (Some l)) →
       uckbs h' !! l = uckbs h !! l).
Proof.
  intros Hw Hr Hcall.
  destruct (fillInDevices_extends _ _ _ _ _ _ _ _ _ _ _ Hcall)
    as (l & w0 & Hptr & Hl & Hext).
  rewrite Hptr in Hw. simpl in Hw. rewrite Hl in Hw. injection Hw as ->.
  split.
  { intros l' Hne. rewrite (ext_wkbs _ _ _ Hext). simpl.
    rewrite lookup_insert_ne; [done|congruence]. }
  split; [by rewrite (ext_rkbs _ _ _ Hext)|].
  rewrite fillInDevices_eq, Hptr, Hl in Hcall. cbv zeta in Hcall.
  destruct (fillInDevicesAndServerMap _ wKeys _ _ _ _ _ _)
    as [[r1 [h1 c1]]|] eqn:Hwriter; [|done].
  pose proof (fillInDevicesAndServerMap_extends _ _ _ _ _ _ _ _ _ _ _ _ Hwriter)
    as Hext1.
  apply fillInDevicesAndServerMap_frame in Hwriter as [Htkms1 Huckbs1].
  destruct r1 as [serverKeys1|e]; cycle 1.
  { injection Hcall as _ <- _. split.
    - intros lk Hnew _. by rewrite Htkms1.
    - intros l' Hl' Hentryw _. by rewrite Huckbs1. }
  assert (deref_rkb h1 (TLFReaderKeyBundle_ptr tkb) = Returns r) as Hr1.
  { unfold deref_rkb in *. by rewrite (ext_rkbs _ _ _ Hext1). }
  rewrite Hr1 in Hcall.
  destruct (fillInDevicesAndServerMap _ rKeys _ _ _ _ _ _)
    as [[r2 [h2 c2]]|] eqn:Hreader; [|done].
  assert (h2 = h') as ->.
  { destruct r2; by injection Hcall as _ -> _. }
  apply fillInDevicesAndServerMap_frame in Hreader as [Htkms2 Huckbs2].
  split.
  - intros lk Hnew Hner. by rewrite Htkms2, Htkms1.
  - intros l' Hl' Hentryw Hentryr. rewrite Huckbs2, Huckbs1; [done..| |].
    + by apply (ext_uckbs_dom _ _ _ Hext1).
    + intros u Hu.
      eapply extends_read_tkm_new in Hu as [Hold|[_ Hnew]]; [| |done].
      * by apply (Hentryr u).
      * done.
Qed.

Lemma fillInDevices_frame_outside tkb wKeys rKeys ePubKey ePrivKey
    tlfCryptKey h h' c res h'' c'' :
  closed h tkb → grows h h' →
  fillInDevices tkb wKeys rKeys ePubKey ePrivKey tlfCryptKey (h', c)
  = Returns (res, (h'', c'')) →
  (∀ l, l ∈ dom (uckbs h') → l ∉ dom (uckbs h) →
        uckbs h'' !! l = uckbs h' !! l)
  ∧ (∀ l, l ∉ dom (tkms h) → tkms h'' !! l = tkms h' !! l)
  ∧ (∀ l, l ∉ dom (wkbs h) → wkbs h'' !! l = wkbs h' !! l)
  ∧ (∀ l, l ∉ dom (rkbs h) → rkbs h'' !! l = rkbs h' !! l).
Proof.
  intros (w & r & Hw & Hr & [Hlivew Hentriesw] & [Hliver Hentriesr]) Hgrows
    Hcall.
  pose proof Hgrows as (_ & _ & Hgw & Hgr).
  assert (deref_wkb h' (TLFWriterKeyBundle_ptr tkb) = Returns w) as Hw'.
  { unfold deref_wkb in *.
    destruct (TLFWriterKeyBundle_ptr tkb) as [l|]; [|done].
    rewrite Hgw; [done|]. apply elem_of_dom.
    destruct (wkbs h !! l); [by eexists|done]. }
  assert (deref_rkb h' (TLFReaderKeyBundle_ptr tkb) = Returns r) as Hr'.
  { unfold deref_rkb in *.
    destruct (TLFReaderKeyBundle_ptr tkb) as [l|]; [|done].
    rewrite Hgr; [done|]. apply elem_of_dom.
    destruct (rkbs h !! l); [by eexists|done]. }
  destruct (fillInDevices_frame _ _ _ _ _ _ _ _ _ _ _ _ _ Hw' Hr' Hcall)
    as (Hfw & Hfr & Hft & Hfu).
  assert (∀ (tkm : TLFKeyMap) l,
            ref_live (tkms h) tkm →
            map_Forall (λ _ uckb, ref_live (uckbs h) uckb) (read_tkm h tkm) →
            l ∉ dom (uckbs h) →
            ∀ u, read_tkm h' tkm !! u ≠ Some (Some l)) as Hentry.
  { intros tkm l Hlive Hentries Hl u.
    rewrite (grows_read_tkm _ _ _ Hgrows Hlive). intros Hu.
    by apply Hentries in Hu. }
  split_and!.
  - intros l Hl' Hl. apply Hfu; [done|by apply Hentry..].
  - intros l Hl. apply Hft; intros Heq.
    + by rewrite Heq in Hlivew.
    + by rewrite Heq in Hliver.
  - intros l Hl. apply Hfw. intros Hptr. unfold deref_wkb in Hw.
    rewrite Hptr in Hw. apply Hl, elem_of_dom.
    destruct (wkbs h !! l); [by eexists|done].
  - intros l Hl. by rewrite Hfr.
Qed.

Lemma fillInDevices_outside_grows tkb' wKeys rKeys ePubKey ePrivKey
    tlfCryptKey h h' c res h'' c'' :
  grows h h' → bundle_outside h h' tkb' →
  fillInDevices tkb' wKeys rKeys ePubKey ePrivKey tlfCryptKey (h', c)
  = Returns (res, (h'', c'')) →
  grows h h''.
Proof.
  intros Hgrows (lw & lr & w & r & Hlw & Hlwout & Hlr & Hlrout & Hw & Hr
                 & [(lkw & Hkw & Hkwout) Hrefsw] & [(lkr & Hkr & Hkrout) Hrefsr])
    Hcall.
  pose proof Hgrows as (Hgu & Hgt & Hgw & Hgr).
  assert (deref_wkb h' (TLFWriterKeyBundle_ptr tkb') = Returns w) as Hdw.
  { unfold deref_wkb. by rewrite Hlw, Hw. }
  assert (deref_rkb h' (TLFReaderKeyBundle_ptr tkb') = Returns r) as Hdr.
  { unfold deref_rkb. by rewrite Hlr, Hr. }
  destruct (fillInDevices_frame _ _ _ _ _ _ _ _ _ _ _ _ _ Hdw Hdr Hcall)
    as (Hfw & Hfr & Hft & Hfu).
  split_and!.
  - intros l Hl. rewrite Hfu; [by apply Hgu|by apply (grows_dom_uckbs h)| |].
    + intros u Hu. destruct (Hrefsw _ _ Hu) as (l' & [= <-] & Hout & _). done.
    + intros u Hu. destruct (Hrefsr _ _ Hu) as (l' & [= <-] & Hout & _). done.
  - intros l Hl. rewrite Hft; [by apply Hgt|congruence..].
  - intros l Hl. rewrite Hfw; [by apply Hgw|congruence].
  - intros l Hl. rewrite Hfr. by apply Hgr.
Qed.

End listed_users.

(** Writer [u1] with device [d1] and reader [u2] with device [d2] on a
    new bundle. *)
Lemma fillInDevices_provisions_listed_devices_witness :
  ∃ newServerKeys h' c',
    fillInDevices bundle_1 [("u1", [dev "d1"])] [("u2", [dev "d2"])]
      (mkEPubKey [x01]) (mkEPrivKey [x02]) (mkTLFCryptKey [x03])
      (new_bundle_store, (100%nat, 0%nat))
    = Returns ((Some newServerKeys, None), (h', c'))
    ∧ ∃ w info,
        deref_wkb h' (TLFWriterKeyBundle_ptr bundle_1) = Returns w
        ∧ TLFWriterKeyBundle_IsWriter h' w "u1" "d1" = true
        ∧ writer_record h' bundle_1 "u1" "d1" = Some info
        ∧ GetTLFCryptKeyInfo h' bundle_1 "u1" (dev "d1")
          = Returns (Some info, None).
Proof.
  pose (call := fillInDevices bundle_1 [("u1", [dev "d1"])]
                  [("u2", [dev "d2"])] (mkEPubKey [x01]) (mkEPrivKey [x02])
                  (mkTLFCryptKey [x03]) (new_bundle_store, (100%nat, 0%nat))).
  exists (returned_map call), (final_store call), (final_crypto call).
  assert (call = Returns ((Some (returned_map call), None),
                          (final_store call, final_crypto call))) as Hcall.
  { apply succeeded_Returns. vm_compute. reflexivity. }
  split; [exact Hcall|].
  destruct (fillInDevices_provisions_listed_devices _ _ _ _ _ _ _ _ _ _ _
              Hcall) as [Hwriters _].
  destruct (Hwriters "u1" [dev "d1"]) as [_ Hdevices].
  { apply list_elem_of_here. }
  apply (Hdevices (dev "d1")). apply list_elem_of_here.
Defined.

(** A second call on the bundle of [writer_and_reader]: writer [u1] gets
    device [d3], and [u3] is a new writer with device [d4]; user [u9] is
    not listed. *)
Lemma fillInDevices_only_listed_devices_witness :
  separated (store_of writer_and_reader) (bundle_of writer_and_reader)
  ∧ ∃ newServerKeys h' c',
      fillInDevices (bundle_of writer_and_reader)
        [("u1", [dev "d1"; dev "d3"]); ("u3", [dev "d4"])] [("u2", [dev "d2"])]
        (mkEPubKey [x05]) (mkEPrivKey [x06]) (mkTLFCryptKey [x03])
        (store_of writer_and_reader, (100%nat, 8%nat))
      = Returns ((Some newServerKeys, None), (h', c'))
      ∧ newServerKeys !! "u9" = None.
Proof.
  assert (separated (store_of writer_and_reader) (bundle_of writer_and_reader))
    as Hsep.
  { apply separated_check_sound.
    apply (bool_decide_unpack _). vm_compute. reflexivity. }
  assert (NoDup [("u1", [dev "d1"; dev "d3"]); ("u3", [dev "d4"])].*1) as Hndw.
  { apply (bool_decide_unpack _). vm_compute. reflexivity. }
  assert (NoDup [("u2", [dev "d2"])].*1) as Hndr.
  { apply (bool_decide_unpack _). vm_compute. reflexivity. }
  split; [exact Hsep|].
  pose (call := fillInDevices (bundle_of writer_and_reader)
                  [("u1", [dev "d1"; dev "d3"]); ("u3", [dev "d4"])]
                  [("u2", [dev "d2"])]
                  (mkEPubKey [x05]) (mkEPrivKey [x06]) (mkTLFCryptKey [x03])
                  (store_of writer_and_reader, (100%nat, 8%nat))).
  exists (returned_map call), (final_store call), (final_crypto call).
  assert (call = Returns ((Some (returned_map call), None),
                          (final_store call, final_crypto call))) as Hcall.
  { apply succeeded_Returns. vm_compute. reflexivity. }
  split; [exact Hcall|].
  destruct (fillInDevices_only_listed_devices _ _ _ _ _ _ _ _ _ _ _
              Hsep Hndw Hndr Hcall) as (_ & _ & Hunlisted).
  apply Hunlisted; apply (bool_decide_unpack _); vm_compute; reflexivity.
Defined.

(** A second call on the bundle of [writer_and_reader], in which [u2] is
    a reader with device [d2]: [u2] is listed as a writer with device [d9],
    and device [d2] is not found any more. *)
Lemma fillInDevices_devices_of_listed_writer_witness :
  separated (store_of writer_and_reader) (bundle_of writer_and_reader)
  ∧ reader_record (store_of writer_and_reader) (bundle_of writer_and_reader)
      "u2" "d2" ≠ None
  ∧ ∃ newServerKeys h' c',
      fillInDevices (bundle_of writer_and_reader) [("u2", [dev "d9"])] []
        (mkEPubKey [x05]) (mkEPrivKey [x06]) (mkTLFCryptKey [x03])
        (store_of writer_and_reader, (100%nat, 8%nat))
      = Returns ((Some newServerKeys, None), (h', c'))
      ∧ GetTLFCryptKeyInfo h' (bundle_of writer_and_reader) "u2" (dev "d2")
        = Returns (None, None).
Proof.
  assert (separated (store_of writer_and_reader) (bundle_of writer_and_reader))
    as Hsep.
  { apply separated_check_sound.
    apply (bool_decide_unpack _). vm_compute. reflexivity. }
  assert (NoDup [("u2", [dev "d9"])].*1) as Hndw.
  { apply (bool_decide_unpack _). vm_compute. reflexivity. }
  assert (NoDup ([] : list (string * list CryptPublicKey)).*1) as Hndr.
  { apply (bool_decide_unpack _). vm_compute. reflexivity. }
  split; [exact Hsep|]. split; [vm_compute; discriminate|].
  pose (call := fillInDevices (bundle_of writer_and_reader)
                  [("u2", [dev "d9"])] []
                  (mkEPubKey [x05]) (mkEPrivKey [x06]) (mkTLFCryptKey [x03])
                  (store_of writer_and_reader, (100%nat, 8%nat))).
  exists (returned_map call), (final_store call), (final_crypto call).
  assert (call = Returns ((Some (returned_map call), None),
                          (final_store call, final_crypto call))) as Hcall.
  { apply succeeded_Returns. vm_compute. reflexivity. }
  split; [exact Hcall|].
  destruct (fillInDevices_devices_of_listed_writer _ _ _ _ _ _ _ _ _ _ _
              "u2" [dev "d9"] Hsep Hndw Hndr Hcall)
    as (kids & _ & _ & _ & Hhidden).
  { apply list_elem_of_here. }
  apply Hhidden.
  - vm_compute. reflexivity.
  - intros k' Hk'. apply list_elem_of_singleton in Hk' as ->. discriminate.
Defined.

(** Device [d1] of writer [u1], provisioned on a new bundle. *)
Lemma fillInDevices_new_record_resolves_to_new_key_witness :
  ∃ res h' c',
    fillInDevices bundle_1 [("u1", [dev "d1"])] [("u2", [dev "d2"])]
      (mkEPubKey [x01]) (mkEPrivKey [x02]) (mkTLFCryptKey [x03])
      (new_bundle_store, (100%nat, 0%nat))
    = Returns (res, (h', c'))
    ∧ GetTLFEphemeralPublicKey h' bundle_1 "u1" (dev "d1")
      = Returns (Ok (mkEPubKey [x01])).
Proof.
  pose (call := fillInDevices bundle_1 [("u1", [dev "d1"])]
                  [("u2", [dev "d2"])] (mkEPubKey [x01]) (mkEPrivKey [x02])
                  (mkTLFCryptKey [x03]) (new_bundle_store, (100%nat, 0%nat))).
  exists (Some (returned_map call), None), (final_store call),
    (final_crypto call).
  assert (call = Returns ((Some (returned_map call), None),
                          (final_store call, final_crypto call))) as Hcall.
  { apply succeeded_Returns. vm_compute. reflexivity. }
  split; [exact Hcall|].
  eapply (fillInDevices_new_record_resolves_to_new_key _ _ _ _ _ _ _ _ _ _ _
            Hcall "u1" (dev "d1")).
  - vm_compute. reflexivity.
  - vm_compute. discriminate.
Defined.

(** A second call on the bundle of [writer_and_reader], for a new writer:
    device [d1] of writer [u1] keeps its key. *)
Lemma fillInDevices_keeps_lookups_witness :
  ∃ res h' c',
    fillInDevices (bundle_of writer_and_reader) [("u3", [dev "d3"])] []
      (mkEPubKey [x05]) (mkEPrivKey [x06]) (mkTLFCryptKey [x03])
      (store_of writer_and_reader, (100%nat, 8%nat))
    = Returns (res, (h', c'))
    ∧ GetTLFEphemeralPublicKey h' (bundle_of writer_and_reader) "u1" (dev "d1")
      = Returns (Ok (mkEPubKey [x01])).
Proof.
  pose (call := fillInDevices (bundle_of writer_and_reader)
                  [("u3", [dev "d3"])] []
                  (mkEPubKey [x05]) (mkEPrivKey [x06]) (mkTLFCryptKey [x03])
                  (store_of writer_and_reader, (100%nat, 8%nat))).
  exists (Some (returned_map call), None), (final_store call),
    (final_crypto call).
  assert (call = Returns ((Some (returned_map call), None),
                          (final_store call, final_crypto call))) as Hcall.
  { apply succeeded_Returns. vm_compute. reflexivity. }
  split; [exact Hcall|].
  destruct (fillInDevices_keeps_lookups _ _ _ _ _ _ _ _ _ _ _ Hcall
              "u1" (dev "d1")) as [_ Hkey].
  - left. eexists. split; [vm_compute; reflexivity|].
    vm_compute. eexists. reflexivity.
  - apply Hkey. vm_compute. reflexivity.
Defined.

(** The users and devices of [writer_and_reader], listed again. *)
Lemma fillInDevices_all_present_only_appends_key_witness :
  ∃ h',
    fillInDevices (bundle_of writer_and_reader) [("u1", [dev "d1"])]
      [("u2", [dev "d2"])] (mkEPubKey [x05]) (mkEPrivKey [x06])
      (mkTLFCryptKey [x03]) (store_of writer_and_reader, (100%nat, 8%nat))
    = Returns ((Some ∅, None), (h', (100%nat, 8%nat)))
    ∧ ephemeral_keys h' (bundle_of writer_and_reader)
      = [mkEPubKey [x01]; mkEPubKey [x05]].
Proof.
  destruct (fillInDevices_all_present_only_appends_key
              (bundle_of writer_and_reader) [("u1", [dev "d1"])]
              [("u2", [dev "d2"])] (mkEPubKey [x05]) (mkEPrivKey [x06])
              (mkTLFCryptKey [x03]) (store_of writer_and_reader)
              (100%nat, 8%nat)
              (mkTLFWriterKeyBundle (Some 1%positive) (mkTLFPublicKey [])
                 [mkEPubKey [x01]])
              (mkTLFReaderKeyBundle (Some 2%positive)))
    as (h' & Hcall & Hkeys & _).
  - vm_compute. reflexivity.
  - vm_compute. reflexivity.
  - intros u keys Hin. apply list_elem_of_singleton in Hin as [= -> ->].
    split.
    + eexists. split; [vm_compute; reflexivity|].
      vm_compute. eexists. reflexivity.
    + intros k Hk. apply list_elem_of_singleton in Hk as ->.
      vm_compute. eexists. reflexivity.
  - intros u keys Hin. apply list_elem_of_singleton in Hin as [= -> ->].
    split.
    + eexists. split; [vm_compute; reflexivity|].
      vm_compute. eexists. reflexivity.
    + intros k Hk. apply list_elem_of_singleton in Hk as ->.
      vm_compute. eexists. reflexivity.
  - exists h'. split; [exact Hcall|]. rewrite Hkeys. vm_compute. reflexivity.
Defined.

(** The same call twice on a new bundle. *)
Lemma fillInDevices_idempotent_witness :
  ∃ newServerKeys h1 c1,
    fillInDevices bundle_1 [("u1", [dev "d1"])] [("u2", [dev "d2"])]
      (mkEPubKey [x01]) (mkEPrivKey [x02]) (mkTLFCryptKey [x03])
      (new_bundle_store, (100%nat, 0%nat))
    = Returns ((Some newServerKeys, None), (h1, c1))
    ∧ ∃ h2,
        fillInDevices bundle_1 [("u1", [dev "d1"])] [("u2", [dev "d2"])]
          (mkEPubKey [x05]) (mkEPrivKey [x06]) (mkTLFCryptKey [x03]) (h1, c1)
        = Returns ((Some ∅, None), (h2, c1))
        ∧ ephemeral_keys h2 bundle_1 = [mkEPubKey [x01]; mkEPubKey [x05]].
Proof.
  pose (call := fillInDevices bundle_1 [("u1", [dev "d1"])]
                  [("u2", [dev "d2"])] (mkEPubKey [x01]) (mkEPrivKey [x02])
                  (mkTLFCryptKey [x03]) (new_bundle_store, (100%nat, 0%nat))).
  exists (returned_map call), (final_store call), (final_crypto call).
  assert (call = Returns ((Some (returned_map call), None),
                          (final_store call, final_crypto call))) as Hcall.
  { apply succeeded_Returns. vm_compute. reflexivity. }
  split; [exact Hcall|].
  destruct (fillInDevices_idempotent _ _ _ _ _ _ _ _ _ _ _ Hcall
              [("u1", [dev "d1"])] [("u2", [dev "d2"])]
              (mkEPubKey [x05]) (mkEPrivKey [x06]) (mkTLFCryptKey [x03]))
    as (h2 & Hcall2 & Hkeys & _).
  - intros x Hx. exact Hx.
  - intros x Hx. exact Hx.
  - exists h2. split; [exact Hcall2|]. rewrite Hkeys. vm_compute. reflexivity.
Defined.

(** The bundle that [NewTLFKeyBundle] makes from the empty store, and a
    call on it that fails for device [d2]. *)
Lemma fillInDevices_returns_on_live_bundle_witness :
  live new_bundle_store bundle_1
  ∧ ∃ res h' c',
      fillInDevices bundle_1 [("u1", [dev "d1"; dev "d2"])] []
        (mkEPubKey [x01]) (mkEPrivKey [x02]) (mkTLFCryptKey [x03])
        (new_bundle_store, (5%nat, 0%nat))
      = Returns (res, (h', c'))
      ∧ live h' bundle_1.
Proof.
  assert (live new_bundle_store bundle_1) as Hlive.
  { exists (mkTLFWriterKeyBundle (Some 1%positive) (mkTLFPublicKey []) []),
      (mkTLFReaderKeyBundle (Some 2%positive)).
    split; [vm_compute; reflexivity|]. split; [vm_compute; reflexivity|].
    split.
    - split.
      + exists 1%positive. split; [reflexivity|].
        apply (bool_decide_unpack _). vm_compute. reflexivity.
      + intros u b Hb. vm_compute in Hb. discriminate.
    - split.
      + exists 2%positive. split; [reflexivity|].
        apply (bool_decide_unpack _). vm_compute. reflexivity.
      + intros u b Hb. vm_compute in Hb. discriminate. }
  split; [exact Hlive|].
  exact (fillInDevices_returns_on_live_bundle bundle_1
           [("u1", [dev "d1"; dev "d2"])] [] (mkEPubKey [x01])
           (mkEPrivKey [x02]) (mkTLFCryptKey [x03]) new_bundle_store
           (5%nat, 0%nat) Hlive).
Defined.

(** ** Copies and provisioning *)

(** The copy of a closed bundle: a closed bundle of new objects with the
    value of the original. *)
Lemma TLFKeyBundle_DeepCopy_spec (h : store) (tkb : TLFKeyBundle) :
  closed h tkb →
  ∃ tkb' h' v,
    TLFKeyBundle_DeepCopy tkb h = Returns (tkb', h')
    ∧ bundle_value h tkb = Returns v
    ∧ bundle_value h' tkb' = Returns v
    ∧ grows h h'
    ∧ bundle_outside h h' tkb'
    ∧ closed h' tkb'.
Proof.
  intros Hclosed. pose proof Hclosed as (w & r & Hw & Hr & Hcw & Hcr).
  destruct (TLFWriterKeyBundle_DeepCopy_spec _ _ _ Hw Hcw)
    as (h1 & lkw & Hcopyw & Hgrows1 & Hr1 & Hw1 & Hvaluew & Houtw & Hclosedw).
  assert (deref_rkb h1 (TLFReaderKeyBundle_ptr tkb) = Returns r) as Hr'.
  { unfold deref_rkb in *. by rewrite Hr1. }
  pose proof (grows_key_map_closed _ _ _ Hgrows1 Hcr) as Hcr1.
  destruct (TLFReaderKeyBundle_DeepCopy_spec _ _ _ Hr' Hcr1)
    as (h2 & lkr & Hcopyr & Hgrows2 & Hw2 & Hr2 & Hvaluer & Houtr & Hclosedr).
  pose proof (grows_trans _ _ _ Hgrows1 Hgrows2) as Hgrows.
  pose proof (is_fresh (dom (wkbs h))) as Hfw.
  pose proof (is_fresh (dom (rkbs h1))) as Hfr.
  eexists (mkTLFKeyBundle (Some (fresh (dom (wkbs h))))
             (Some (fresh (dom (rkbs h1))))), h2, _.
  split_and!.
  - unfold TLFKeyBundle_DeepCopy, bind, ret. by rewrite Hcopyw, Hcopyr.
  - unfold bundle_value. by rewrite Hw, Hr.
  - unfold bundle_value, deref_wkb, deref_rkb. simpl.
    rewrite Hw2, Hw1, lookup_insert_eq, Hr2, lookup_insert_eq. simpl.
    do 2 f_equal.
    + by rewrite (grows_key_map_value _ _ _ Hgrows2 Hclosedw).
    + rewrite Hvaluer. by apply grows_key_map_value.
  - done.
  - eexists _, _, _, _. simpl. split_and!; [done|done|done| | | | |].
    + by rewrite <- Hr1.
    + by rewrite Hw2, Hw1, lookup_insert_eq.
    + by rewrite Hr2, lookup_insert_eq.
    + simpl. by apply (key_map_outside_grows h h1).
    + simpl. by apply (key_map_outside_weaken h h1).
  - eexists _, _. unfold deref_wkb, deref_rkb. simpl.
    rewrite Hw2, Hw1, lookup_insert_eq, Hr2, lookup_insert_eq.
    split_and!; [done|done| |done].
    simpl. by apply (grows_key_map_closed h1).
Qed.

(** The value of a bundle made of new objects depends on those alone. *)
Lemma bundle_outside_value h h' h'' tkb' :
  bundle_outside h h' tkb' → closed h' tkb' →
  (∀ l, l ∈ dom (uckbs h') → l ∉ dom (uckbs h) →
        uckbs h'' !! l = uckbs h' !! l) →
  (∀ l, l ∉ dom (tkms h) → tkms h'' !! l = tkms h' !! l) →
  (∀ l, l ∉ dom (wkbs h) → wkbs h'' !! l = wkbs h' !! l) →
  (∀ l, l ∉ dom (rkbs h) → rkbs h'' !! l = rkbs h' !! l) →
  bundle_value h'' tkb' = bundle_value h' tkb'.
Proof.
  intros (lw & lr & w & r & Hlw & Hlwout & Hlr & Hlrout & Hw & Hr
          & [(lkw & Hkw & Hkwout) Hrefsw] & [(lkr & Hkr & Hkrout) Hrefsr])
    _ Hfu Hft Hfw Hfr.
  assert (∀ lk, lk ∉ dom (tkms h) →
            (∀ u b, read_tkm h' (Some lk) !! u = Some b →
                    ∃ l, b = Some l ∧ (l ∉ dom (uckbs h)) ∧ l ∈ dom (uckbs h')) →
            key_map_value h'' (Some lk) = key_map_value h' (Some lk)) as Hvalue.
  { intros lk Hlk Hrefs. unfold key_map_value.
    assert (read_tkm h'' (Some lk) = read_tkm h' (Some lk)) as ->.
    { simpl. by rewrite Hft. }
    apply map_fmap_ext. intros u b Hb.
    destruct (Hrefs u b Hb) as (l & -> & Hout & Hin). simpl.
    by rewrite Hfu. }
  unfold bundle_value, deref_wkb, deref_rkb.
  rewrite Hlw, Hlr, (Hfw _ Hlwout), (Hfr _ Hlrout), Hw, Hr.
  rewrite Hkw, Hkr in *. by rewrite !Hvalue.
Qed.

(** A mutation of a closed bundle changes an object of that bundle. *)
Lemma mutation_frame_outside h h' tkb h'' :
  closed h tkb → grows h h' → mutation h' tkb h'' →
  (∀ l, l ∉ dom (uckbs h) → uckbs h'' !! l = uckbs h' !! l)
  ∧ (∀ l, l ∉ dom (tkms h) → tkms h'' !! l = tkms h' !! l)
  ∧ (∀ l, l ∉ dom (wkbs h) → wkbs h'' !! l = wkbs h' !! l)
  ∧ (∀ l, l ∉ dom (rkbs h) → rkbs h'' !! l = rkbs h' !! l).
Proof.
  intros (w & r & Hw & Hr & [Hlivew Hentriesw] & [Hliver Hentriesr]) Hgrows
    Hmut.
  pose proof Hgrows as (_ & _ & Hgw & Hgr).
  assert (∃ lw, TLFWriterKeyBundle_ptr tkb = Some lw ∧ lw ∈ dom (wkbs h))
    as (lw & Hlw & Hlwin).
  { unfold deref_wkb in Hw.
    destruct (TLFWriterKeyBundle_ptr tkb) as [l|]; [|done]. exists l.
    split; [done|]. apply elem_of_dom. destruct (wkbs h !! l); [by eexists|done]. }
  assert (deref_wkb h' (TLFWriterKeyBundle_ptr tkb) = Returns w) as Hw'.
  { unfold deref_wkb in *. rewrite Hlw in *. by rewrite Hgw. }
  assert (deref_rkb h' (TLFReaderKeyBundle_ptr tkb) = Returns r) as Hr'.
  { unfold deref_rkb in *.
    destruct (TLFReaderKeyBundle_ptr tkb) as [l|]; [|done].
    rewrite Hgr; [done|]. apply elem_of_dom.
    destruct (rkbs h !! l); [by eexists|done]. }
  assert (∀ (tkm : TLFKeyMap) u l kid info t,
            ref_live (tkms h) tkm →
            map_Forall (λ _ uckb, ref_live (uckbs h) uckb) (read_tkm h tkm) →
            read_tkm h' tkm !! u = Some (Some l) →
            uckb_assign (Some l) kid info h' = Returns (t, h'') →
            (∀ l, l ∉ dom (uckbs h) → uckbs h'' !! l = uckbs h' !! l)
            ∧ (∀ l, l ∉ dom (tkms h) → tkms h'' !! l = tkms h' !! l)
            ∧ (∀ l, l ∉ dom (wkbs h) → wkbs h'' !! l = wkbs h' !! l)
            ∧ (∀ l, l ∉ dom (rkbs h) → rkbs h'' !! l = rkbs h' !! l))
    as Hbundle.
  { intros tkm u l kid info t Hlive Hentries Hu
      (l0 & m & [= <-] & Hm & ->)%uckb_assign_Returns.
    rewrite (grows_read_tkm _ _ _ Hgrows Hlive) in Hu.
    apply Hentries in Hu. simpl in Hu.
    split_and!; simpl; try done.
    intros l0 Hl0. rewrite lookup_insert_ne; [done|]. by intros <-. }
  assert (∀ (tkm : TLFKeyMap) u uckb t,
            ref_live (tkms h) tkm →
            tkm_assign tkm u uckb h' = Returns (t, h'') →
            (∀ l, l ∉ dom (uckbs h) → uckbs h'' !! l = uckbs h' !! l)
            ∧ (∀ l, l ∉ dom (tkms h) → tkms h'' !! l = tkms h' !! l)
            ∧ (∀ l, l ∉ dom (wkbs h) → wkbs h'' !! l = wkbs h' !! l)
            ∧ (∀ l, l ∉ dom (rkbs h) → rkbs h'' !! l = rkbs h' !! l))
    as Hkeymap.
  { intros tkm u uckb t Hlive (lk & m & -> & Hm & ->)%tkm_assign_Returns.
    simpl in Hlive. split_and!; simpl; try done.
    intros l0 Hl0. rewrite lookup_insert_ne; [done|]. by intros <-. }
  destruct Hmut as [w0 u l kid info t h'' Hw0 Hu Hassign
                   |r0 u l kid info t h'' Hr0 Hu Hassign
                   |w0 u uckb t h'' Hw0 Hassign
                   |r0 u uckb t h'' Hr0 Hassign
                   |keys t h'' Hassign].
  - rewrite Hw' in Hw0. injection Hw0 as <-.
    exact (Hbundle (WKeys w) _ _ _ _ _ Hlivew Hentriesw Hu Hassign).
  - rewrite Hr' in Hr0. injection Hr0 as <-.
    exact (Hbundle (RKeys r) _ _ _ _ _ Hliver Hentriesr Hu Hassign).
  - rewrite Hw' in Hw0. injection Hw0 as <-.
    exact (Hkeymap (WKeys w) _ _ _ Hlivew Hassign).
  - rewrite Hr' in Hr0. injection Hr0 as <-.
    exact (Hkeymap (RKeys r) _ _ _ Hliver Hassign).
  - unfold store_TLFEphemeralPublicKeys in Hassign. rewrite Hlw in Hassign.
    destruct (wkbs h' !! lw); [|done]. injection Hassign as _ <-.
    split_and!; simpl; try done.
    intros l0 Hl0. rewrite lookup_insert_ne; [done|]. by intros <-.
Qed.

(** X16: a bundle and its deep copy are independent under provisioning,
    in both directions.  No mutation of the original, of its per-user
    bundles, of its key maps or of its ephemeral-key list, changes the
    value of the copy; whatever a [fillInDevices] call on the original
    returns, the copy has the value it had; and whatever a [fillInDevices]
    call on the copy returns, the original has the value it had. *)
Theorem TLFKeyBundle_DeepCopy_unaffected_by_provisioning {C} `{!Crypto C}
    (h : store) (tkb : TLFKeyBundle) :
  closed h tkb →
  ∃ tkb' h' v,
    TLFKeyBundle_DeepCopy tkb h = Returns (tkb', h')
    ∧ bundle_value h' tkb = Returns v
    ∧ bundle_value h' tkb' = Returns v
    ∧ (∀ h'', mutation h' tkb h'' → bundle_value h'' tkb' = Returns v)
    ∧ (∀ wKeys rKeys ePubKey ePrivKey tlfCryptKey (c : C) res h'' c'',
         fillInDevices tkb wKeys rKeys ePubKey ePrivKey tlfCryptKey (h', c)
         = Returns (res, (h'', c'')) →
         bundle_value h'' tkb' = Returns v)
    ∧ (∀ wKeys rKeys ePubKey ePrivKey tlfCryptKey (c : C) res h'' c'',
         fillInDevices tkb' wKeys rKeys ePubKey ePrivKey tlfCryptKey (h', c)
         = Returns (res, (h'', c'')) →
         bundle_value h'' tkb = Returns v).
Proof.
  intros Hclosed.
  destruct (TLFKeyBundle_DeepCopy_spec h tkb Hclosed)
    as (tkb' & h' & v & Hcopy & Hv & Hv' & Hgrows & Hout & Hclosed').
  exists tkb', h', v. split_and!; try done.
  - rewrite <- Hv. by apply grows_bundle_value.
  - intros h'' Hmut. rewrite <- Hv'.
    destruct (mutation_frame_outside _ _ _ _ Hclosed Hgrows Hmut)
      as (Hfu & Hft & Hfw & Hfr).
    apply (bundle_outside_value h); try done.
    intros l _. apply Hfu.
  - intros wKeys rKeys ePubKey ePrivKey tlfCryptKey c res h'' c'' Hcall.
    rewrite <- Hv'.
    destruct (fillInDevices_frame_outside _ _ _ _ _ _ _ _ _ _ _ _ Hclosed
                Hgrows Hcall) as (Hfu & Hft & Hfw & Hfr).
    by apply (bundle_outside_value h).
  - intros wKeys rKeys ePubKey ePrivKey tlfCryptKey c res h'' c'' Hcall.
    rewrite <- Hv. apply grows_bundle_value; [|done].
    by eapply fillInDevices_outside_grows.
Qed.

(** ** Copies of the generation lists *)

Lemma grows_dom_wkbs h h' : grows h h' → dom (wkbs h) ⊆ dom (wkbs h').
Proof.
  intros (_ & _ & Hgw & _) l Hl. apply elem_of_dom. rewrite Hgw by done.
  by apply elem_of_dom.
Qed.

Lemma grows_dom_rkbs h h' : grows h h' → dom (rkbs h) ⊆ dom (rkbs h').
Proof.
  intros (_ & _ & _ & Hgr) l Hl. apply elem_of_dom. rewrite Hgr by done.
  by apply elem_of_dom.
Qed.

(** The per-user bundle that a key map has for a user, from the value of
    the key map. *)
Lemma key_map_value_record h (tkm : TLFKeyMap) user :
  read_uckb h (tkm_index h tkm user)
  = default ∅ (key_map_value h tkm !! user).
Proof.
  unfold tkm_index, key_map_value. rewrite lookup_fmap.
  by destruct (read_tkm h tkm !! user).
Qed.

(** Whatever is added to the store, a closed writer bundle keeps its
    value. *)
Lemma grows_writer_bundle h h' (p : ref) :
  grows h h' → writer_bundle_closed h p →
  writer_bundle_closed h' p
  ∧ writer_bundle_value h' p = writer_bundle_value h p.
Proof.
  intros Hgrows (w & Hw & Hclosed).
  assert (deref_wkb h' p = Returns w) as Hw'.
  { destruct Hgrows as (_ & _ & Hgw & _). unfold deref_wkb in *.
    destruct p as [l|]; [|done]. rewrite Hgw; [done|]. apply elem_of_dom.
    destruct (wkbs h !! l); [by eexists|done]. }
  split.
  - exists w. split; [done|]. by eapply grows_key_map_closed.
  - unfold writer_bundle_value. rewrite Hw, Hw'.
    by rewrite (grows_key_map_value _ _ _ Hgrows Hclosed).
Qed.

(** The loop of [TLFWriterKeyGenerations.DeepCopy]: the slots before [i]
    are as they were, and slot [i + j] holds a pointer to a new bundle with
    the value of the [j]-th bundle of [rest]. *)
Lemma TLFWriterKeyGenerations_DeepCopy_loop_spec (rest : list (option positive))
    (i : nat) (keys : list (option positive)) (h : store) :
  (∀ p, p ∈ rest → writer_bundle_closed h p) →
  length keys = (i + length rest)%nat →
  ∃ keys' h',
    TLFWriterKeyGenerations_DeepCopy_loop i rest keys h = Returns (keys', h')
    ∧ grows h h'
    ∧ length keys' = length keys
    ∧ (∀ j, (j < i)%nat → keys' !! j = keys !! j)
    ∧ ∀ j p, rest !! j = Some p →
        ∃ l, keys' !! (i + j)%nat = Some (Some l)
             ∧ (l ∉ dom (wkbs h))
             ∧ writer_bundle_closed h' (Some l)
             ∧ writer_bundle_value h' (Some l) = writer_bundle_value h p.
Proof.
  revert i keys h.
  induction rest as [|k rest IH]; intros i keys h Hclosed Hlen.
  { exists keys, h. by split_and!. }
  simpl. unfold bind.
  destruct (Hclosed k) as (w & Hw & Hcw); [apply list_elem_of_here|].
  destruct (TLFWriterKeyBundle_DeepCopy_spec _ _ _ Hw Hcw)
    as (h1 & lkw & -> & Hgrows1 & _ & Hw1 & Hvalue1 & _ & Hclosed1).
  set (lf := fresh (dom (wkbs h))) in *.
  assert (writer_bundle_closed h1 (Some lf)) as Hcopy_closed.
  { eexists. simpl. rewrite Hw1, lookup_insert_eq. by split. }
  assert (writer_bundle_value h1 (Some lf) = writer_bundle_value h k)
    as Hcopy_value.
  { unfold writer_bundle_value. rewrite Hw. simpl.
    rewrite Hw1, lookup_insert_eq. simpl. by rewrite Hvalue1. }
  destruct (IH (S i) (<[i := Some lf]> keys) h1)
    as (keys' & h2 & Hloop & Hgrows2 & Hlen' & Hbefore & Hrest).
  { intros p Hp. eapply grows_writer_bundle; [done|].
    by apply Hclosed, list_elem_of_further. }
  { rewrite length_insert. simpl in Hlen. lia. }
  exists keys', h2. split; [done|]. split; [by eapply grows_trans|].
  split; [by rewrite Hlen', length_insert|]. split.
  - intros j Hj. rewrite Hbefore by lia. rewrite list_lookup_insert_ne; [done|lia].
  - intros [|j] p Hp; simpl in Hp.
    + injection Hp as <-. exists lf. rewrite Nat.add_0_r.
      rewrite Hbefore by lia.
      rewrite list_lookup_insert_eq by (simpl in Hlen; lia).
      split; [done|]. split; [apply is_fresh|].
      destruct (grows_writer_bundle _ _ _ Hgrows2 Hcopy_closed) as [Hc Hv].
      split; [done|]. by rewrite Hv.
    + destruct (Hrest j p Hp) as (l & Hl & Hout & Hc & Hv). exists l.
      replace (i + S j)%nat with (S i + j)%nat by lia.
      split; [done|]. split.
      { intros Hin. by apply Hout, (grows_dom_wkbs h). }
      split; [done|]. rewrite Hv.
      eapply grows_writer_bundle; [done|].
      apply Hclosed, list_elem_of_further. by eapply list_elem_of_lookup_2.
Qed.

Lemma TLFWriterKeyGenerations_DeepCopy_loop_nil (rest : list (option positive))
    (i : nat) (keys : list (option positive)) (h : store) :
  None ∈ rest →
  TLFWriterKeyGenerations_DeepCopy_loop i rest keys h = Panics.
Proof.
  revert i keys h. induction rest as [|k rest IH]; intros i keys h Hin.
  { by apply elem_of_nil in Hin. }
  simpl. unfold bind.
  apply elem_of_cons in Hin as [<-|Hin]; [done|].
  destruct (TLFWriterKeyBundle_DeepCopy k h) as [[k' h1]|]; [|done].
  by apply IH.
Qed.

(** [IsWriter] is a function of the value of the bundle. *)
Lemma IsWriter_value h h' (p p' : ref) user kid :
  writer_bundle_value h' p' = writer_bundle_value h p →
  match deref_wkb h' p' with
  | Returns b => Returns (TLFWriterKeyBundle_IsWriter h' b user kid)
  | Panics => Panics
  end
  = match deref_wkb h p with
    | Returns b => Returns (TLFWriterKeyBundle_IsWriter h b user kid)
    | Panics => Panics
    end.
Proof.
  unfold writer_bundle_value, TLFWriterKeyBundle_IsWriter.
  destruct (deref_wkb h' p') as [w'|], (deref_wkb h p) as [w|]; try done.
  intros [= Hvalue _ _]. by rewrite !key_map_value_record, Hvalue.
Qed.

(** X17: [TLFWriterKeyGenerations.DeepCopy] panics when a pointer of the
    list is nil.  On a list of closed bundles it returns a list with as
    many generations, so that [GetKeyGeneration] is the same; every
    generation of the copy is a new bundle with the value of the
    generation it copies; no object of the store is changed; and
    [IsWriter] answers for the copy what it answers for the original. *)
Theorem TLFWriterKeyGenerations_DeepCopy_same_generations (h : store)
    (tkg : TLFWriterKeyGenerations) :
  (None ∈ tkg → TLFWriterKeyGenerations_DeepCopy tkg h = Panics)
  ∧ ((∀ p, p ∈ tkg → writer_bundle_closed h p) →
     ∃ tkg' h',
       TLFWriterKeyGenerations_DeepCopy tkg h = Returns (tkg', h')
       ∧ grows h h'
       ∧ TLFWriterKeyGenerations_GetKeyGeneration tkg'
         = TLFWriterKeyGenerations_GetKeyGeneration tkg
       ∧ (∀ i p, tkg !! i = Some p →
            ∃ l, tkg' !! i = Some (Some l)
                 ∧ (l ∉ dom (wkbs h))
                 ∧ writer_bundle_value h' (Some l) = writer_bundle_value h p)
       ∧ ∀ user deviceKID,
           TLFWriterKeyGenerations_IsWriter h' tkg' user deviceKID
           = TLFWriterKeyGenerations_IsWriter h tkg user deviceKID).
Proof.
  split.
  { apply TLFWriterKeyGenerations_DeepCopy_loop_nil. }
  intros Hclosed.
  destruct (TLFWriterKeyGenerations_DeepCopy_loop_spec tkg 0
              (replicate (length tkg) None) h Hclosed)
    as (tkg' & h' & Hloop & Hgrows & Hlen & _ & Hcopies).
  { by rewrite length_replicate. }
  rewrite length_replicate in Hlen.
  assert (∀ i p, tkg !! i = Some p →
            ∃ l, tkg' !! i = Some (Some l)
                 ∧ (l ∉ dom (wkbs h))
                 ∧ writer_bundle_value h' (Some l) = writer_bundle_value h p)
    as Hvalues.
  { intros i p Hp. destruct (Hcopies i p Hp) as (l & Hl & Hout & _ & Hv).
    by exists l. }
  exists tkg', h'. split_and!; try done.
  - unfold TLFWriterKeyGenerations_GetKeyGeneration. by rewrite Hlen.
  - intros user deviceKID. unfold TLFWriterKeyGenerations_IsWriter,
      TLFWriterKeyGenerations_GetKeyGeneration. rewrite Hlen.
    destruct (decide (Z.of_nat (length tkg) < 1)) as [|Hpos]; [done|].
    unfold slice_index. destruct (decide _) as [_|]; [|lia].
    destruct (tkg !! Z.to_nat (Z.of_nat (length tkg) - 1)) as [p|] eqn:Hp.
    + destruct (Hvalues _ p Hp) as (l & -> & _ & Hv).
      by apply IsWriter_value.
    + apply lookup_ge_None in Hp. lia.
Qed.

(** Whatever is added to the store, a closed reader bundle keeps its
    value. *)
Lemma grows_reader_bundle h h' (p : ref) :
  grows h h' → reader_bundle_closed h p →
  reader_bundle_closed h' p
  ∧ reader_bundle_value h' p = reader_bundle_value h p.
Proof.
  intros Hgrows (w & Hr & Hclosed).
  assert (deref_rkb h' p = Returns w) as Hr'.
  { destruct Hgrows as (_ & _ & _ & Hgr). unfold deref_rkb in *.
    destruct p as [l|]; [|done]. rewrite Hgr; [done|]. apply elem_of_dom.
    destruct (rkbs h !! l); [by eexists|done]. }
  split.
  - exists w. split; [done|]. by eapply grows_key_map_closed.
  - unfold reader_bundle_value. rewrite Hr, Hr'.
    by rewrite (grows_key_map_value _ _ _ Hgrows Hclosed).
Qed.

Lemma TLFReaderKeyGenerations_DeepCopy_loop_spec (rest : list (option positive))
    (i : nat) (keys : list (option positive)) (h : store) :
  (∀ p, p ∈ rest → reader_bundle_closed h p) →
  length keys = (i + length rest)%nat →
  ∃ keys' h',
    TLFReaderKeyGenerations_DeepCopy_loop i rest keys h = Returns (keys', h')
    ∧ grows h h'
    ∧ length keys' = length keys
    ∧ (∀ j, (j < i)%nat → keys' !! j = keys !! j)
    ∧ ∀ j p, rest !! j = Some p →
        ∃ l, keys' !! (i + j)%nat = Some (Some l)
             ∧ (l ∉ dom (rkbs h))
             ∧ reader_bundle_closed h' (Some l)
             ∧ reader_bundle_value h' (Some l) = reader_bundle_value h p.
Proof.
  revert i keys h.
  induction rest as [|k rest IH]; intros i keys h Hclosed Hlen.
  { exists keys, h. by split_and!. }
  simpl. unfold bind.
  destruct (Hclosed k) as (w & Hr & Hcr); [apply list_elem_of_here|].
  destruct (TLFReaderKeyBundle_DeepCopy_spec _ _ _ Hr Hcr)
    as (h1 & lkr & -> & Hgrows1 & _ & Hr1 & Hvalue1 & _ & Hclosed1).
  set (lf := fresh (dom (rkbs h))) in *.
  assert (reader_bundle_closed h1 (Some lf)) as Hcopy_closed.
  { eexists. simpl. rewrite Hr1, lookup_insert_eq. by split. }
  assert (reader_bundle_value h1 (Some lf) = reader_bundle_value h k)
    as Hcopy_value.
  { unfold reader_bundle_value. rewrite Hr. simpl.
    rewrite Hr1, lookup_insert_eq. simpl. by rewrite Hvalue1. }
  destruct (IH (S i) (<[i := Some lf]> keys) h1)
    as (keys' & h2 & Hloop & Hgrows2 & Hlen' & Hbefore & Hrest).
  { intros p Hp. eapply grows_reader_bundle; [done|].
    by apply Hclosed, list_elem_of_further. }
  { rewrite length_insert. simpl in Hlen. lia. }
  exists keys', h2. split; [done|]. split; [by eapply grows_trans|].
  split; [by rewrite Hlen', length_insert|]. split.
  - intros j Hj. rewrite Hbefore by lia. rewrite list_lookup_insert_ne; [done|lia].
  - intros [|j] p Hp; simpl in Hp.
    + injection Hp as <-. exists lf. rewrite Nat.add_0_r.
      rewrite Hbefore by lia.
      rewrite list_lookup_insert_eq by (simpl in Hlen; lia).
      split; [done|]. split; [apply is_fresh|].
      destruct (grows_reader_bundle _ _ _ Hgrows2 Hcopy_closed) as [Hc Hv].
      split; [done|]. by rewrite Hv.
    + destruct (Hrest j p Hp) as (l & Hl & Hout & Hc & Hv). exists l.
      replace (i + S j)%nat with (S i + j)%nat by lia.
      split; [done|]. split.
      { intros Hin. by apply Hout, (grows_dom_rkbs h). }
      split; [done|]. rewrite Hv.
      eapply grows_reader_bundle; [done|].
      apply Hclosed, list_elem_of_further. by eapply list_elem_of_lookup_2.
Qed.

Lemma TLFReaderKeyGenerations_DeepCopy_loop_nil (rest : list (option positive))
    (i : nat) (keys : list (option positive)) (h : store) :
  None ∈ rest →
  TLFReaderKeyGenerations_DeepCopy_loop i rest keys h = Panics.
Proof.
  revert i keys h. induction rest as [|k rest IH]; intros i keys h Hin.
  { by apply elem_of_nil in Hin. }
  simpl. unfold bind.
  apply elem_of_cons in Hin as [<-|Hin]; [done|].
  destruct (TLFReaderKeyBundle_DeepCopy k h) as [[k' h1]|]; [|done].
  by apply IH.
Qed.

(** [IsReader] is a function of the value of the bundle. *)
Lemma IsReader_value h h' (p p' : ref) user kid :
  reader_bundle_value h' p' = reader_bundle_value h p →
  match deref_rkb h' p' with
  | Returns b => Returns (TLFReaderKeyBundle_IsReader h' b user kid)
  | Panics => Panics
  end
  = match deref_rkb h p with
    | Returns b => Returns (TLFReaderKeyBundle_IsReader h b user kid)
    | Panics => Panics
    end.
Proof.
  unfold reader_bundle_value, TLFReaderKeyBundle_IsReader.
  destruct (deref_rkb h' p') as [w'|], (deref_rkb h p) as [w|]; try done.
  intros [= Hvalue]. by rewrite !key_map_value_record, Hvalue.
Qed.

(** X18: [TLFReaderKeyGenerations.DeepCopy] panics when a pointer of the
    list is nil.  On a list of closed bundles it returns a list with as
    many generations, so that [GetKeyGeneration] is the same; every
    generation of the copy is a new bundle with the value of the
    generation it copies; no object of the store is changed; and
    [IsReader] answers for the copy what it answers for the original. *)
Theorem TLFReaderKeyGenerations_DeepCopy_same_generations (h : store)
    (trg : TLFReaderKeyGenerations) :
  (None ∈ trg → TLFReaderKeyGenerations_DeepCopy trg h = Panics)
  ∧ ((∀ p, p ∈ trg → reader_bundle_closed h p) →
     ∃ trg' h',
       TLFReaderKeyGenerations_DeepCopy trg h = Returns (trg', h')
       ∧ grows h h'
       ∧ TLFReaderKeyGenerations_GetKeyGeneration trg'
         = TLFReaderKeyGenerations_GetKeyGeneration trg
       ∧ (∀ i p, trg !! i = Some p →
            ∃ l, trg' !! i = Some (Some l)
                 ∧ (l ∉ dom (rkbs h))
                 ∧ reader_bundle_value h' (Some l) = reader_bundle_value h p)
       ∧ ∀ user deviceKID,
           TLFReaderKeyGenerations_IsReader h' trg' user deviceKID
           = TLFReaderKeyGenerations_IsReader h trg user deviceKID).
Proof.
  split.
  { apply TLFReaderKeyGenerations_DeepCopy_loop_nil. }
  intros Hclosed.
  destruct (TLFReaderKeyGenerations_DeepCopy_loop_spec trg 0
              (replicate (length trg) None) h Hclosed)
    as (trg' & h' & Hloop & Hgrows & Hlen & _ & Hcopies).
  { by rewrite length_replicate. }
  rewrite length_replicate in Hlen.
  assert (∀ i p, trg !! i = Some p →
            ∃ l, trg' !! i = Some (Some l)
                 ∧ (l ∉ dom (rkbs h))
                 ∧ reader_bundle_value h' (Some l) = reader_bundle_value h p)
    as Hvalues.
  { intros i p Hp. destruct (Hcopies i p Hp) as (l & Hl & Hout & _ & Hv).
    by exists l. }
  exists trg', h'. split_and!; try done.
  - unfold TLFReaderKeyGenerations_GetKeyGeneration. by rewrite Hlen.
  - intros user deviceKID. unfold TLFReaderKeyGenerations_IsReader,
      TLFReaderKeyGenerations_GetKeyGeneration. rewrite Hlen.
    destruct (decide (Z.of_nat (length trg) < 1)) as [|Hpos]; [done|].
    unfold slice_index. destruct (decide _) as [_|]; [|lia].
    destruct (trg !! Z.to_nat (Z.of_nat (length trg) - 1)) as [p|] eqn:Hp.
    + destruct (Hvalues _ p Hp) as (l & -> & _ & Hv).
      by apply IsReader_value.
    + apply lookup_ge_None in Hp. lia.
Qed.

(** The bundle of [writer_and_reader], its copy, and a call on the
    original for a new writer. *)
Lemma TLFKeyBundle_DeepCopy_unaffected_by_provisioning_witness :
  closed (store_of writer_and_reader) (bundle_of writer_and_reader)
  ∧ ∃ tkb' h' v,
      TLFKeyBundle_DeepCopy (bundle_of writer_and_reader)
        (store_of writer_and_reader)
      = Returns (tkb', h')
      ∧ bundle_value h' tkb' = Returns v
      ∧ ∀ res h'' c'',
          fillInDevices (bundle_of writer_and_reader) [("u3", [dev "d3"])] []
            (mkEPubKey [x05]) (mkEPrivKey [x06]) (mkTLFCryptKey [x03])
            (h', (100%nat, 8%nat))
          = Returns (res, (h'', c'')) →
          bundle_value h'' tkb' = Returns v.
Proof.
  assert (closed (store_of writer_and_reader) (bundle_of writer_and_reader))
    as Hclosed.
  { apply closed_check_sound.
    apply (bool_decide_unpack _). vm_compute. reflexivity. }
  split; [exact Hclosed|].
  destruct (TLFKeyBundle_DeepCopy_unaffected_by_provisioning (C := nat * nat)
              _ _ Hclosed)
    as (tkb' & h' & v & Hcopy & _ & Hv' & _ & Horiginal & _).
  exists tkb', h', v. split; [exact Hcopy|]. split; [exact Hv'|].
  intros res h'' c''. apply Horiginal.
Defined.

(** The one generation of the bundle of [writer_and_reader]. *)
Lemma TLFWriterKeyGenerations_DeepCopy_same_generations_witness :
  ∃ tkg' h',
    TLFWriterKeyGenerations_DeepCopy [Some 1%positive]
      (store_of writer_and_reader)
    = Returns (tkg', h')
    ∧ TLFWriterKeyGenerations_GetKeyGeneration tkg' = 1
    ∧ TLFWriterKeyGenerations_IsWriter h' tkg' "u1" "d1" = Returns true.
Proof.
  destruct (proj2 (TLFWriterKeyGenerations_DeepCopy_same_generations
                     (store_of writer_and_reader) [Some 1%positive]))
    as (tkg' & h' & Hcopy & _ & Hgen & _ & Hsame).
  - intros p Hp. apply list_elem_of_singleton in Hp as ->.
    eexists. split; [vm_compute; reflexivity|].
    apply (bool_decide_unpack _). vm_compute. reflexivity.
  - exists tkg', h'. split; [exact Hcopy|]. split.
    + rewrite Hgen. reflexivity.
    + rewrite Hsame. vm_compute. reflexivity.
Defined.

Lemma TLFReaderKeyGenerations_DeepCopy_same_generations_witness :
  ∃ trg' h',
    TLFReaderKeyGenerations_DeepCopy [Some 1%positive]
      (store_of writer_and_reader)
    = Returns (trg', h')
    ∧ TLFReaderKeyGenerations_GetKeyGeneration trg' = 1
    ∧ TLFReaderKeyGenerations_IsReader h' trg' "u2" "d2" = Returns true.
Proof.
  destruct (proj2 (TLFReaderKeyGenerations_DeepCopy_same_generations
                     (store_of writer_and_reader) [Some 1%positive]))
    as (trg' & h' & Hcopy & _ & Hgen & _ & Hsame).
  - intros p Hp. apply list_elem_of_singleton in Hp as ->.
    eexists. split; [vm_compute; reflexivity|].
    apply (bool_decide_unpack _). vm_compute. reflexivity.
  - exists trg', h'. split; [exact Hcopy|]. split.
    + rewrite Hgen. reflexivity.
    + rewrite Hsame. vm_compute. reflexivity.
Defined.
